(** * GithubSync: the manifest store and the remote sync client of
    [githubbackup.py], embedded in Rocq.

    Layout of the development:
    - [PyStr]: Python text (sequences of code points) and the [str] methods
      the program calls ([strip], [split], [replace], [readlines]);
    - [Codec]: UTF-8 and base64, as [str.encode], [bytes.decode] and the
      [base64] module compute them;
    - [Json]: the values [requests] hands back from [Response.json()];
    - [Http]: requests, responses, and a small monad of programs that talk
      to the hosting provider, with its trace semantics;
    - [Local]: the local file system and the manifest file [.master];
    - the class [GitHubRepo] and the menu functions, method by method;
    - [Provider]: an in-memory stand-in for the hosting provider, used to
      run the client end to end;
    - the theorems. *)

From Stdlib Require Import List NArith ZArith Bool String Ascii Lia.
From Stdlib Require Import DecimalString.
Import ListNotations.

Set Implicit Arguments.

(* ===================================================================== *)
(** * Python text *)
(* ===================================================================== *)

Module PyStr.
Local Open Scope N_scope.

(** A Python [str] is a sequence of Unicode code points. *)
Definition char := N.
Definition str := list char.

(** Literals of the source are ASCII; [py] reads a Rocq string literal as
    the Python text with the same characters. *)
Definition py (s : string) : str :=
  map N_of_ascii (list_ascii_of_string s).

Definition NL : char := 10.
Definition CR : char := 13.
Definition SP : char := 32.
Definition TILDE : char := 126.

Fixpoint eqb_str (a b : str) : bool :=
  match a, b with
  | [], [] => true
  | x :: a', y :: b' => (x =? y) && eqb_str a' b'
  | _, _ => false
  end.

(** [str.isspace] on one code point: the characters [str.strip()] and
    [str.split()] treat as whitespace. *)
Definition is_space (c : char) : bool :=
  ((9 <=? c) && (c <=? 13)) || ((28 <=? c) && (c <=? 32))
  || (c =? 133) || (c =? 160) || (c =? 5760)
  || ((8192 <=? c) && (c <=? 8202))
  || (c =? 8232) || (c =? 8233) || (c =? 8239) || (c =? 8287)
  || (c =? 12288).

(** [s.lstrip()], [s.rstrip()], [s.strip()]. *)
Fixpoint lstrip (s : str) : str :=
  match s with
  | [] => []
  | c :: t => if is_space c then lstrip t else s
  end.

Fixpoint rstrip (s : str) : str :=
  match s with
  | [] => []
  | c :: t =>
      match rstrip t with
      | [] => if is_space c then [] else [c]
      | t' => c :: t'
      end
  end.

Definition strip (s : str) : str := lstrip (rstrip s).

(** [s.split(sep)] for a one-character separator: the result is never
    empty, and adjacent separators give empty fields. *)
Fixpoint split_on (sep : char) (s : str) : list str :=
  match s with
  | [] => [[]]
  | c :: t =>
      if c =? sep then [] :: split_on sep t
      else match split_on sep t with
           | w :: ws => (c :: w) :: ws
           | [] => [[c]]
           end
  end.

(** [s.split()]: fields separated by runs of whitespace, no empty field. *)
Fixpoint split_ws (s : str) : list str :=
  match s with
  | [] => []
  | c :: t =>
      if is_space c then split_ws t
      else match t with
           | [] => [[c]]
           | d :: _ =>
               if is_space d then [c] :: split_ws t
               else match split_ws t with
                    | w :: ws => (c :: w) :: ws
                    | [] => [[c]]
                    end
           end
  end.

(** [s.replace(old, new)] for a one-character [old], the only form the
    program uses: every occurrence is replaced. *)
Fixpoint replace_char (old : char) (new : str) (s : str) : str :=
  match s with
  | [] => []
  | c :: t =>
      if c =? old then new ++ replace_char old new t
      else c :: replace_char old new t
  end.

(** Text-mode reading translates the line ends [\r\n] and [\r] to [\n]
    ([open] with its default [newline=None]). *)
Fixpoint universal_newlines (s : str) : str :=
  match s with
  | [] => []
  | c :: t =>
      if c =? CR then
        NL :: match t with
              | d :: t' => if d =? NL then universal_newlines t'
                           else universal_newlines t
              | [] => []
              end
      else c :: universal_newlines t
  end.

(** [splitlines] as [file.readlines()] does it on translated text: each
    line keeps its final [\n]; the last line may lack one. *)
Fixpoint lines_keepends (s : str) : list str :=
  match s with
  | [] => []
  | c :: t =>
      if c =? NL then [c] :: lines_keepends t
      else match lines_keepends t with
           | w :: ws => (c :: w) :: ws
           | [] => [[c]]
           end
  end.

(** [s.endswith("\n")]. *)
Definition ends_with_newline (s : str) : bool :=
  match rev s with
  | c :: _ => c =? NL
  | [] => false
  end.

End PyStr.
Import PyStr.

(* ===================================================================== *)
(** * Exceptions and results *)
(* ===================================================================== *)

(** The exceptions the program and the library calls it makes can raise.
    [Exception msg] is [raise Exception(msg)], the only kind the program
    raises itself. [RequestException] stands for whatever [requests]
    raises when no response is obtained. *)
Inductive exn : Type :=
| KeyError (key : str)
| IndexError
| TypeError
| ValueError
| Exception (msg : str)
| JSONDecodeError
| BinasciiError
| UnicodeDecodeError
| UnicodeEncodeError
| AttributeError
| RequestException
| FileNotFoundError
| OSError (name : str).

Inductive outcome (A : Type) : Type :=
| Returned (a : A)
| Raised (e : exn).
Arguments Raised {A} e.

Definition obind {A B} (o : outcome A) (f : A -> outcome B) : outcome B :=
  match o with
  | Returned a => f a
  | Raised e => Raised e
  end.

Definition omap {A B} (f : A -> B) (o : outcome A) : outcome B :=
  obind o (fun a => Returned (f a)).

Notation "x <~ o ;; k" := (obind o (fun x => k))
  (at level 61, o at next level, right associativity).

(* ===================================================================== *)
(** * UTF-8 and base64 *)
(* ===================================================================== *)

Module Codec.
Local Open Scope N_scope.

(** A Python [bytes] value: every element is below 256. *)
Definition bytes := list N.

(** ** [str.encode()] *)

Definition utf8_char (c : char) : option bytes :=
  if c <? 128 then Some [c]
  else if c <? 2048 then
    Some [N.lor 192 (N.shiftr c 6); N.lor 128 (N.land c 63)]
  else if c <? 65536 then
    if (55296 <=? c) && (c <=? 57343) then None   (* lone surrogate *)
    else Some [N.lor 224 (N.shiftr c 12);
               N.lor 128 (N.land (N.shiftr c 6) 63);
               N.lor 128 (N.land c 63)]
  else if c <? 1114112 then
    Some [N.lor 240 (N.shiftr c 18);
          N.lor 128 (N.land (N.shiftr c 12) 63);
          N.lor 128 (N.land (N.shiftr c 6) 63);
          N.lor 128 (N.land c 63)]
  else None.

Fixpoint encode (s : str) : outcome bytes :=
  match s with
  | [] => Returned []
  | c :: t =>
      match utf8_char c with
      | None => Raised UnicodeEncodeError
      | Some bs => omap (app bs) (encode t)
      end
  end.

(** ** [bytes.decode('utf-8')], strict *)

Definition in_range (lo hi b : N) : bool := (lo <=? b) && (b <=? hi).
Definition cont (b : N) : bool := in_range 128 191 b.
Definition low6 (b : N) : N := N.land b 63.

Fixpoint decode (bs : bytes) : outcome str :=
  match bs with
  | [] => Returned []
  | b0 :: t0 =>
      if b0 <? 128 then omap (cons b0) (decode t0)
      else if in_range 194 223 b0 then
        match t0 with
        | b1 :: t1 =>
            if cont b1
            then omap (cons (N.lor (N.shiftl (N.land b0 31) 6) (low6 b1)))
                      (decode t1)
            else Raised UnicodeDecodeError
        | _ => Raised UnicodeDecodeError
        end
      else if in_range 224 239 b0 then
        match t0 with
        | b1 :: b2 :: t2 =>
            if in_range (if b0 =? 224 then 160 else 128)
                        (if b0 =? 237 then 159 else 191) b1 && cont b2
            then omap (cons (N.lor (N.shiftl (N.land b0 15) 12)
                               (N.lor (N.shiftl (low6 b1) 6) (low6 b2))))
                      (decode t2)
            else Raised UnicodeDecodeError
        | _ => Raised UnicodeDecodeError
        end
      else if in_range 240 244 b0 then
        match t0 with
        | b1 :: b2 :: b3 :: t3 =>
            if in_range (if b0 =? 240 then 144 else 128)
                        (if b0 =? 244 then 143 else 191) b1
               && cont b2 && cont b3
            then omap (cons (N.lor (N.shiftl (N.land b0 7) 18)
                               (N.lor (N.shiftl (low6 b1) 12)
                                  (N.lor (N.shiftl (low6 b2) 6) (low6 b3)))))
                      (decode t3)
            else Raised UnicodeDecodeError
        | _ => Raised UnicodeDecodeError
        end
      else Raised UnicodeDecodeError
  end.

(** ** [base64.b64encode(b).decode()] *)

Definition b64_char (v : N) : char :=
  if v <? 26 then 65 + v                 (* A-Z *)
  else if v <? 52 then 97 + (v - 26)     (* a-z *)
  else if v <? 62 then 48 + (v - 52)     (* 0-9 *)
  else if v =? 62 then 43                (* + *)
  else 47.                               (* / *)

Definition PAD : char := 61.             (* = *)

Fixpoint b64encode (bs : bytes) : str :=
  match bs with
  | [] => []
  | [a] =>
      [b64_char (N.shiftr a 2); b64_char (N.shiftl (N.land a 3) 4); PAD; PAD]
  | [a; b] =>
      [b64_char (N.shiftr a 2);
       b64_char (N.lor (N.shiftl (N.land a 3) 4) (N.shiftr b 4));
       b64_char (N.shiftl (N.land b 15) 2); PAD]
  | a :: b :: c :: rest =>
      b64_char (N.shiftr a 2)
      :: b64_char (N.lor (N.shiftl (N.land a 3) 4) (N.shiftr b 4))
      :: b64_char (N.lor (N.shiftl (N.land b 15) 2) (N.shiftr c 6))
      :: b64_char (N.land c 63)
      :: b64encode rest
  end.

(** ** [base64.b64decode(s)] on a [str], with its default [validate=False]

    Characters outside the alphabet are skipped; a padding sequence that
    completes a quad ends the decoding; left-over characters are an
    error. This is [binascii.a2b_base64] in its non-strict mode. *)

Definition b64_value (c : char) : option N :=
  if in_range 65 90 c then Some (c - 65)
  else if in_range 97 122 c then Some (c - 97 + 26)
  else if in_range 48 57 c then Some (c - 48 + 52)
  else if c =? 43 then Some 62
  else if c =? 47 then Some 63
  else None.

Fixpoint a2b_base64 (s : str) (quad_pos leftchar pads : N) : outcome bytes :=
  match s with
  | [] => if quad_pos =? 0 then Returned [] else Raised BinasciiError
  | c :: t =>
      if c =? PAD then
        if 2 <=? quad_pos then
          if 4 <=? quad_pos + (pads + 1) then Returned []
          else a2b_base64 t quad_pos leftchar (pads + 1)
        else a2b_base64 t quad_pos leftchar pads
      else
        match b64_value c with
        | None => a2b_base64 t quad_pos leftchar pads
        | Some v =>
            if quad_pos =? 0 then a2b_base64 t 1 v 0
            else if quad_pos =? 1 then
              omap (cons (N.lor (N.shiftl leftchar 2) (N.shiftr v 4)))
                   (a2b_base64 t 2 (N.land v 15) 0)
            else if quad_pos =? 2 then
              omap (cons (N.lor (N.shiftl leftchar 4) (N.shiftr v 2)))
                   (a2b_base64 t 3 (N.land v 3) 0)
            else
              omap (cons (N.lor (N.shiftl leftchar 6) v))
                   (a2b_base64 t 0 0 0)
        end
  end.

Definition b64decode (s : str) : outcome bytes :=
  if forallb (fun c => c <? 128) s       (* s.encode('ascii') *)
  then a2b_base64 s 0 0 0
  else Raised ValueError.

End Codec.

(* ===================================================================== *)
(** * JSON values *)
(* ===================================================================== *)

Module Json.

(** What [Response.json()] returns, and what the program puts in request
    payloads: Python's [None], [bool], numbers, [str], [list] and [dict]
    (keys in insertion order). The program never computes with a number,
    so a number is kept as its literal. *)
#[local] Unset Elimination Schemes.
Inductive json : Type :=
| JNull
| JBool (b : bool)
| JNum (literal : str)
| JStr (s : str)
| JList (items : list json)
| JDict (fields : list (str * json)).
#[local] Set Elimination Schemes.

Fixpoint lookup {V} (k : str) (d : list (str * V)) : option V :=
  match d with
  | [] => None
  | (k', v) :: d' => if eqb_str k' k then Some v else lookup k d'
  end.

(** [v[key]] for a string key: only a [dict] can be subscripted by a
    string. *)
Definition getitem (v : json) (key : str) : outcome json :=
  match v with
  | JDict d =>
      match lookup key d with
      | Some x => Returned x
      | None => Raised (KeyError key)
      end
  | _ => Raised TypeError
  end.

(** [d[key] = v] on a [dict]: an existing key keeps its position. *)
Fixpoint dict_set {V} (k : str) (v : V) (d : list (str * V))
  : list (str * V) :=
  match d with
  | [] => [(k, v)]
  | (k', v') :: d' =>
      if eqb_str k' k then (k, v) :: d' else (k', v') :: dict_set k v d'
  end.

Definition is_none (v : json) : bool :=
  match v with JNull => true | _ => false end.

Definition is_list (v : json) : bool :=
  match v with JList _ => true | _ => false end.

Section Format.
(** [str(v)], as an f-string or [requests] applies it to a value. On
    numbers, lists and dicts it is left to [render], a parameter of the
    development: the program relies on it for strings and [None] only. *)
Variable render : json -> str.

Definition py_str (v : json) : str :=
  match v with
  | JStr s => s
  | JNull => py "None"
  | JBool true => py "True"
  | JBool false => py "False"
  | _ => render v
  end.
End Format.

End Json.
Import Json.

(* ===================================================================== *)
(** * HTTP exchanges and programs that make them *)
(* ===================================================================== *)

Module Http.

Inductive http_method : Type := GET | POST | PUT | PATCH.

Record request : Type := mk_request {
  method : http_method;
  url : str;
  headers : list (str * str);
  payload : json
}.

(** A response as the program can observe it: [res.status_code] and
    [res.json()], which raises when the body is not JSON ([None] here). *)
Record response : Type := mk_response {
  status_code : Z;
  json_body : option json
}.

(** Programs: return, raise, or send a request and go on with the
    response. *)
Inductive prog (A : Type) : Type :=
| Ret (a : A)
| Raise (e : exn)
| Call (q : request) (k : response -> prog A).
Arguments Raise {A} e.
Arguments Call {A} q k.

Fixpoint bind {A B} (p : prog A) (f : A -> prog B) : prog B :=
  match p with
  | Ret a => f a
  | Raise e => Raise e
  | Call q k => Call q (fun r => bind (k r) f)
  end.

Definition lift {A} (o : outcome A) : prog A :=
  match o with
  | Returned a => Ret a
  | Raised e => Raise e
  end.

(** One exchange, as the trace records it: the request and the response,
    or [None] when [requests] raised instead of returning one. *)
Definition event : Type := request * option response.
Definition trace : Type := list event.

(** The environment of the client: the [requests] library, the network
    and the hosting provider. Its answer may depend on everything that
    was exchanged before. *)
Definition provider : Type := trace -> request -> option response.

(** [run P h p] runs [p] against [P] after the exchanges [h]; it gives the
    outcome and the exchanges of this run, oldest first. *)
Fixpoint run {A} (P : provider) (h : trace) (p : prog A)
  : outcome A * trace :=
  match p with
  | Ret a => (Returned a, [])
  | Raise e => (Raised e, [])
  | Call q k =>
      match P h q with
      | Some r =>
          let (o, t) := run P (h ++ [(q, Some r)]) (k r) in
          (o, (q, Some r) :: t)
      | None => (Raised RequestException, [(q, None)])
      end
  end.

(** A provider that plays back fixed answers, one per request. *)
Definition replay (answers : list (option response)) : provider :=
  fun h _ => nth (List.length h) answers None.

End Http.
Import Http.

Notation "x <- p ;; k" := (bind p (fun x => k))
  (at level 61, p at next level, right associativity).
Notation "p ;;; k" := (bind p (fun _ => k))
  (at level 61, right associativity).

(* ===================================================================== *)
(** * The local file system *)
(* ===================================================================== *)

Module Local.

(** Files by path, as the program names them. Reading a missing file
    raises; a write to one of the program's own files, [.master] and
    [.env] in the working directory, is accepted; the platform's line end
    is [\n], so writing translates nothing. The files that a download
    writes are named by the user: they go through [write_file] below. *)
Definition fs : Type := str -> option str.

(** [open(p, 'w').write(s)] *)
Definition write_text (f : fs) (p s : str) : fs :=
  fun q => if eqb_str q p then Some s else f q.

(** What the operating system decides about a path that the user
    names: the file it stands for ([realpath]: two spellings of one file,
    as [/tmp/x] and [/tmp//x], have the same), and the exception, if any,
    that opening it for writing raises, the files being as they are. *)
Record os : Type := mk_os {
  realpath : str -> str;
  open_w : fs -> str -> option exn
}.

(** [open(p, 'w').write(s)] on such a path: when the file can be opened,
    every spelling of it reads the new text afterwards. *)
Definition write_file (o : os) (f : fs) (p s : str) : outcome fs :=
  match open_w o f p with
  | Some e => Raised e
  | None =>
      Returned (fun q => if eqb_str (realpath o q) (realpath o p)
                         then Some s else f q)
  end.

(** [open(p, 'a').write(s)] *)
Definition append_text (f : fs) (p s : str) : fs :=
  write_text f p (match f p with Some c => c ++ s | None => s end).

(** [open(p, 'r').read()] *)
Definition read_text (f : fs) (p : str) : outcome str :=
  match f p with
  | Some c => Returned (universal_newlines c)
  | None => Raised FileNotFoundError
  end.

(** [open(p, 'r').readlines()] *)
Definition readlines (f : fs) (p : str) : outcome (list str) :=
  omap lines_keepends (read_text f p).

(** [os.path.exists(p)] *)
Definition exists_ (f : fs) (p : str) : bool :=
  match f p with Some _ => true | None => false end.

End Local.
Import Local.

(* ===================================================================== *)
(** * class GitHubRepo *)
(* ===================================================================== *)

(** The instance attributes set by [__init__]; [homeDir] is
    [os.path.expanduser('~')] at construction time. *)
Record GitHubRepo : Type := mk_GitHubRepo {
  username : str;
  repoName : str;
  accessToken : str;
  addedFiles : list str;
  homeDir : str
}.

Definition __init__ (username repoName accessToken home : str) : GitHubRepo :=
  mk_GitHubRepo username repoName accessToken [] home.

(** Class attributes. *)
Definition _apiBaseURL : str := py "https://api.github.com/".
Definition masterFile : str := py ".master".
Definition ref : str := py "main".
Definition fileMode : str := py "100644".
Definition directoryMode : str := py "040000".
Definition branch : str := py "main".
Definition emptyTreeSha : str := py "4b825dc642cb6eb9a060e54bf8d69288fbee4904".

(** One entry of the dictionaries [readLocalFiles] and [readRemoteFiles]
    build: [{"localPath": ..., "contents": ...}]. *)
Record fileRec : Type := mk_fileRec {
  localPath : str;
  contents : str
}.

(** A dictionary of registered files, in insertion order; the keys of a
    Python [dict] are distinct. *)
Definition registeredFiles : Type := list (str * fileRec).

(** What [_queryAPI] returns: the response itself or its parsed body. *)
Inductive qresult : Type :=
| QResponse (res : response)
| QJson (j : json).

(** [r[key]] on a result of [_queryAPI]. *)
Definition qgetitem (r : qresult) (key : str) : outcome json :=
  match r with
  | QJson j => getitem j key
  | QResponse _ => Raised TypeError
  end.

Section Client.

Variable render : json -> str.
Variable self : GitHubRepo.

Definition repoURL : str :=
  py "https://api.github.com/repos/" ++ username self ++ py "/"
  ++ repoName self.

(** The default [headers] dictionary after [headers.update(...)]. *)
Definition queryHeaders : list (str * str) :=
  [(py "Accept", py "application/vnd.github+json");
   (py "Authorization", py "token " ++ accessToken self)].

Definition _queryAPI (url : str) (json : json) (method : str)
  (wantJson : bool) : prog qresult :=
  let send (m : http_method) : prog qresult :=
    Call (mk_request m url queryHeaders json) (fun res =>
      if negb wantJson then Ret (QResponse res)
      else match json_body res with
           | Some j => Ret (QJson j)
           | None => Raise JSONDecodeError
           end) in
  if eqb_str method (py "get") then send GET
  else if eqb_str method (py "post") then send POST
  else if eqb_str method (py "put") then send PUT
  else if eqb_str method (py "patch") then send PATCH
  else Raise (Exception (method ++ py " is not an implemented request method")).

Definition refURL : str := repoURL ++ py "/git/refs/heads/" ++ branch.

Definition _getPreviousCommit : prog json :=
  response <- _queryAPI refURL (JDict []) (py "get") false ;;
  match response with
  | QResponse res =>
      if (status_code res =? 409)%Z then Ret JNull
      else match json_body res with
           | Some j =>
               lift (o <~ getitem j (py "object") ;; getitem o (py "sha"))
           | None => Raise JSONDecodeError
           end
  | QJson _ => Raise AttributeError
  end.

Definition _getBranchTree (previousCommit : json) : prog json :=
  let url := repoURL ++ py "/commits/" ++ py_str render previousCommit in
  r <- _queryAPI url (JDict []) (py "get") true ;;
  treeUrl <- lift (c <~ qgetitem r (py "commit") ;;
                   t <~ getitem c (py "tree") ;;
                   getitem t (py "url")) ;;
  r' <- _queryAPI (py_str render treeUrl) (JDict []) (py "get") true ;;
  lift (qgetitem r' (py "sha")).

Definition _createNewBlob (content : str) : prog json :=
  encoded <- lift (Codec.encode content) ;;
  let blob_data := JDict [(py "content", JStr (Codec.b64encode encoded));
                          (py "encoding", JStr (py "base64"))] in
  response <- _queryAPI (repoURL ++ py "/git/blobs") blob_data (py "post")
                        true ;;
  lift (qgetitem response (py "sha")).

Definition _createNewTreeBlob (path fileType : str) (sha : json) : json :=
  JDict [(py "path", JStr path);
         (py "mode", JStr fileType);
         (py "type", JStr (py "blob"));
         (py "sha", sha)].

Definition _createTree (blobs : list json) : prog json :=
  let tree_data := JDict [(py "tree", JList blobs)] in
  response <- _queryAPI (repoURL ++ py "/git/trees") tree_data (py "post")
                        true ;;
  lift (qgetitem response (py "sha")).

Definition _updateTree (treeSha : json) (newBlobs : list json) : prog json :=
  let tree_data := JDict [(py "base_tree", treeSha);
                          (py "tree", JList newBlobs)] in
  response <- _queryAPI (repoURL ++ py "/git/trees") tree_data (py "post")
                        true ;;
  lift (qgetitem response (py "sha")).

Definition commit_data (treeSha previousCommitSha : json) (message : str)
  : json :=
  let d := [(py "message", JStr message); (py "tree", treeSha)] in
  JDict (if negb (is_none previousCommitSha)
         then dict_set (py "parents") (JList [previousCommitSha]) d
         else d).

Definition _commitTree (treeSha previousCommitSha : json) (message : str)
  : prog json :=
  response <- _queryAPI (repoURL ++ py "/git/commits")
                        (commit_data treeSha previousCommitSha message)
                        (py "post") true ;;
  lift (qgetitem response (py "sha")).

Definition reference_data (commitSha : json) (force : bool) : json :=
  let d := [(py "sha", commitSha)] in
  JDict (if force then dict_set (py "force") (JStr (py "true")) d else d).

Definition _updateBranchReference (commitSha : json) (force : bool)
  : prog unit :=
  _queryAPI refURL (reference_data commitSha force) (py "patch") true ;;;
  Ret tt.

Definition _createFile (contents path message branch : str) : prog json :=
  encoded <- lift (Codec.encode contents) ;;
  let file_data := JDict [(py "branch", JStr branch);
                          (py "message", JStr message);
                          (py "content", JStr (Codec.b64encode encoded))] in
  response <- _queryAPI (repoURL ++ py "/contents/" ++ path) file_data
                        (py "put") true ;;
  lift (c <~ qgetitem response (py "content") ;; getitem c (py "sha")).

Definition _createBranch (branchName : str) : prog unit :=
  _createFile [] (py ".master") [] branchName ;;;
  commitSha <- _commitTree (JStr emptyTreeSha) JNull (py "Initial Commit") ;;
  _updateBranchReference commitSha false.

(** [base64.b64decode(v).decode('utf-8')] on a value of a response. *)
Definition b64decode_text (v : json) : outcome str :=
  match v with
  | JStr s => bs <~ Codec.b64decode s ;; Codec.decode bs
  | _ => Raised TypeError
  end.

Definition contentsURL (path : str) : str :=
  _apiBaseURL ++ py "repos/" ++ username self ++ py "/" ++ repoName self
  ++ py "/contents/" ++ path ++ py "?ref=" ++ ref.

Definition getFile (path : str) : prog str :=
  jsonData <- _queryAPI (contentsURL path) (JDict []) (py "get") true ;;
  match jsonData with
  | QJson (JList _) => Raise (Exception (path ++ py " is a directory!"))
  | _ => lift (c <~ qgetitem jsonData (py "content") ;; b64decode_text c)
  end.

(** [temp[2].replace('~', self.homeDir)] *)
Definition resolve (path : str) : str :=
  replace_char TILDE (homeDir self) path.

(** The loop of [readRemoteFiles]. The value of the new entry is built
    before it is stored: [temp[2]] is read first, then the file is
    fetched. *)
Fixpoint readRemoteFiles_loop (fileInfo : list str) (acc : registeredFiles)
  : prog registeredFiles :=
  match fileInfo with
  | [] => Ret acc
  | line :: rest =>
      match split_ws line with
      | t0 :: _ :: t2 :: _ =>
          c <- getFile t0 ;;
          readRemoteFiles_loop rest
            (dict_set t0 (mk_fileRec (resolve t2) c) acc)
      | _ => Raise IndexError
      end
  end.

Definition readRemoteFiles : prog registeredFiles :=
  text <- getFile masterFile ;;
  let masterFile := split_on NL (strip text) in
  let fileInfo := tl masterFile in
  readRemoteFiles_loop fileInfo [].

(** The loop of [readLocalFiles]. *)
Fixpoint readLocalFiles_loop (f : fs) (fileInfo : list str)
  (acc : registeredFiles) : outcome registeredFiles :=
  match fileInfo with
  | [] => Returned acc
  | line :: rest =>
      if eqb_str (strip line) [] then readLocalFiles_loop f rest acc
      else
        match split_ws line with
        | t0 :: _ :: t2 :: _ =>
            let localPath := resolve t2 in
            c <~ read_text f localPath ;;
            readLocalFiles_loop f rest
              (dict_set t0 (mk_fileRec localPath c) acc)
        | _ => Raised IndexError
        end
  end.

Definition readLocalFiles (f : fs) : outcome registeredFiles :=
  text <~ read_text f (py ".master") ;;
  let fileInfo := tl (split_on NL (strip text)) in
  readLocalFiles_loop f fileInfo [].

(** [writeLocalFiles]: the files are opened and written in the order of
    the dictionary; the first [open] that raises ends the loop, with the
    files before it written. *)
Fixpoint writeLocalFiles (o : os) (files : registeredFiles) (f : fs)
  : outcome unit * fs :=
  match files with
  | [] => (Returned tt, f)
  | (_, file) :: rest =>
      match write_file o f (localPath file) (contents file) with
      | Returned f' => writeLocalFiles o rest f'
      | Raised e => (Raised e, f)
      end
  end.

(** The text [registerFile] appends. *)
Definition entry_line (remotePath localPath timestamp : str) : str :=
  NL :: remotePath ++ py " -> " ++ localPath ++ py " - " ++ timestamp.

Definition registerFile (remotePath localPath timestamp : str) (f : fs)
  : fs :=
  append_text f masterFile (entry_line remotePath localPath timestamp).

(** The first loop of [writeRemoteFiles]. *)
Fixpoint writeRemoteFiles_blobs (files : registeredFiles)
  (newTreeBlobs : list json) : prog (list json) :=
  match files with
  | [] => Ret newTreeBlobs
  | (fileName, file) :: rest =>
      newFileSha <- _createNewBlob (contents file) ;;
      writeRemoteFiles_blobs rest
        (newTreeBlobs ++ [_createNewTreeBlob fileName fileMode newFileSha])
  end.

Definition writeRemoteFiles (files : registeredFiles) : prog unit :=
  newTreeBlobs <- writeRemoteFiles_blobs files [] ;;
  previousCommitSha <- _getPreviousCommit ;;
  previousCommitSha <-
    (if is_none previousCommitSha
     then _createBranch (py "main") ;;; _getPreviousCommit
     else Ret previousCommitSha) ;;
  currentTreeSha <- _getBranchTree previousCommitSha ;;
  newTreeSha <- _updateTree currentTreeSha newTreeBlobs ;;
  newCommitSha <- _commitTree newTreeSha previousCommitSha [] ;;
  _updateBranchReference newCommitSha false.

End Client.

(* ===================================================================== *)
(** * The menu functions that work on the manifest *)
(* ===================================================================== *)

(** What a function printed, line by line. *)
Definition printed : Type := list str.

(** The manifest creation at start-up: the header is written when
    [.master] does not exist. *)
Definition header : str := py "[FILES]" ++ [NL].

Definition create_manifest (f : fs) : fs :=
  if negb (exists_ f (py ".master"))
  then write_text f (py ".master") header
  else f.

(** The [for] loop of [deregisterFile]: the first line whose first field
    is [fileName] is popped and the loop ends. *)
Fixpoint deregister_scan (fileName : str) (lines : list str)
  : outcome (list str) :=
  match lines with
  | [] => Returned []
  | line :: rest =>
      match split_ws line with
      | [] => Raised IndexError
      | w :: _ =>
          if eqb_str w fileName then Returned rest
          else omap (cons line) (deregister_scan fileName rest)
      end
  end.

(** [deregisterFile(repository)], given the line the user types at the
    prompt. An exception leaves the file as it was. *)
Definition deregisterFile (fileName : str) (f : fs) : outcome printed * fs :=
  if eqb_str fileName (py "exit") || eqb_str fileName (py "back")
  then (Returned [], f)
  else
    match readlines f masterFile with
    | Raised e => (Raised e, f)
    | Returned lines =>
        match deregister_scan fileName lines with
        | Raised e => (Raised e, f)
        | Returned lines' =>
            (Returned [py "Successfully deregistered file!"],
             write_text f masterFile (List.concat lines'))
        end
    end.

(** [displayRegisteredFiles(repository)]: the title, then every line
    after the first, stripped. *)
Definition displayRegisteredFiles (f : fs) : outcome printed :=
  lines <~ readlines f masterFile ;;
  Returned ((py "Remote Name" ++ [9%N] ++ py "Local Path")
            :: map strip (tl lines)).

(** Command 1 of the menu of [connectToGitHubRepo]:
    [remoteFiles = repo.readRemoteFiles()], then
    [repo.writeLocalFiles(remoteFiles)]. *)
Definition command_download (o : os) (self : GitHubRepo) (P : provider)
  (h : trace) (f : fs) : outcome unit * fs :=
  match fst (run P h (readRemoteFiles self)) with
  | Returned remoteFiles => writeLocalFiles o remoteFiles f
  | Raised e => (Raised e, f)
  end.

(** Command 2: [localFiles = repo.readLocalFiles()], then
    [repo.writeRemoteFiles(localFiles)]. *)
Definition command_upload (render : json -> str) (self : GitHubRepo)
  (P : provider) (h : trace) (f : fs) : outcome unit * trace :=
  match readLocalFiles self f with
  | Returned localFiles => run P h (writeRemoteFiles render self localFiles)
  | Raised e => (Raised e, [])
  end.

(* ===================================================================== *)
(** * An in-memory hosting provider *)
(* ===================================================================== *)

(** A stand-in for the hosting provider, for running the client end to
    end: blobs, trees and commits are stored under sequential names
    instead of content hashes, and one branch reference points at the
    head commit. Creating a file through the contents endpoint commits
    it on the branch, on an empty repository too; a reference update is
    honoured when it is a fast-forward or is forced, and refused with
    status 422 otherwise. *)
Module Provider.

Record pstate : Type := mk_pstate {
  blobs : list (str * str);                  (* sha -> base64 content *)
  trees : list (str * list (str * str));     (* sha -> path -> blob sha *)
  commits : list (str * (str * list str));   (* sha -> tree, parents *)
  head : option str;
  next : N
}.

Definition fresh (s : pstate) : str :=
  py "obj" ++ py (DecimalString.NilEmpty.string_of_uint (N.to_uint (next s))).

Fixpoint strip_prefix (p s : str) : option str :=
  match p, s with
  | [], _ => Some s
  | a :: p', b :: s' => if (a =? b)%N then strip_prefix p' s' else None
  | _ :: _, [] => None
  end.

Definition strip_suffix (p s : str) : option str :=
  option_map (@rev _) (strip_prefix (rev p) (rev s)).

Definition ok (code : Z) (fields : list (str * json)) : response :=
  mk_response code (Some (JDict fields)).

Definition not_found : response :=
  ok 404 [(py "message", JStr (py "Not Found"))].

Definition unprocessable : response :=
  ok 422 [(py "message", JStr (py "Unprocessable Entity"))].

Definition tree_of (s : pstate) (c : str) : list (str * str) :=
  match lookup c (commits s) with
  | Some (t, _) => match lookup t (trees s) with Some es => es | None => [] end
  | None => []
  end.

Definition head_tree (s : pstate) : list (str * str) :=
  match head s with Some c => tree_of s c | None => [] end.

(** One entry of a tree payload: its path and blob sha. *)
Definition tree_entry (e : json) : option (str * str) :=
  match getitem e (py "path"), getitem e (py "sha") with
  | Returned (JStr p), Returned (JStr b) => Some (p, b)
  | _, _ => None
  end.

Fixpoint tree_entries (es : list json) (acc : list (str * str))
  : option (list (str * str)) :=
  match es with
  | [] => Some acc
  | e :: es' =>
      match tree_entry e with
      | Some (p, b) => tree_entries es' (dict_set p b acc)
      | None => None
      end
  end.

Definition entry_json (e : str * str) : json :=
  JDict [(py "path", JStr (fst e)); (py "type", JStr (py "blob"));
         (py "sha", JStr (snd e))].

(** The commits of the branch, head first, following first parents
    (a commit of this provider has one parent at most). *)
Fixpoint ancestry (fuel : nat) (s : pstate) (c : str) : list str :=
  match fuel with
  | O => []
  | S n =>
      c :: match lookup c (commits s) with
           | Some (_, p :: _) => ancestry n s p
           | _ => []
           end
  end.

(** Moving the head to [c] is a fast-forward when the branch has no
    head yet or its head is [c] or one of the ancestors of [c]. *)
Definition fast_forward (s : pstate) (c : str) : bool :=
  match head s with
  | None => true
  | Some hd => existsb (eqb_str hd) (ancestry (List.length (commits s)) s c)
  end.

(** The body of a reference update asks to force it. *)
Definition forced (body : json) : bool :=
  match getitem body (py "force") with
  | Returned (JBool true) => true
  | _ => false
  end.

Definition not_fast_forward : response :=
  ok 422 [(py "message", JStr (py "Update is not a fast forward"))].

Section Repo.
(** [base] is the URL of the repository the provider serves. *)
Variable base : str.

Definition add_blob (s : pstate) (content : str) : pstate * str :=
  let b := fresh s in
  (mk_pstate ((b, content) :: blobs s) (trees s) (commits s) (head s)
             (next s + 1), b).

Definition add_tree (s : pstate) (es : list (str * str)) : pstate * str :=
  let t := fresh s in
  (mk_pstate (blobs s) ((t, es) :: trees s) (commits s) (head s)
             (next s + 1), t).

Definition add_commit (s : pstate) (t : str) (ps : list str)
  : pstate * str :=
  let c := fresh s in
  (mk_pstate (blobs s) (trees s) ((c, (t, ps)) :: commits s) (head s)
             (next s + 1), c).

Definition set_head (s : pstate) (c : str) : pstate :=
  mk_pstate (blobs s) (trees s) (commits s) (Some c) (next s).

Definition get_ref (s : pstate) : response :=
  match head s with
  | None => ok 409 [(py "message", JStr (py "Git Repository is empty."))]
  | Some c => ok 200 [(py "ref", JStr (py "refs/heads/main"));
                      (py "object", JDict [(py "sha", JStr c)])]
  end.

Definition get_commit (s : pstate) (c : str) : response :=
  match lookup c (commits s) with
  | Some (t, _) =>
      ok 200 [(py "sha", JStr c);
              (py "commit",
               JDict [(py "tree",
                       JDict [(py "sha", JStr t);
                              (py "url",
                               JStr (base ++ py "/git/trees/" ++ t))])])]
  | None => not_found
  end.

Definition get_tree (s : pstate) (t : str) : response :=
  match lookup t (trees s) with
  | Some es => ok 200 [(py "sha", JStr t);
                       (py "tree", JList (map entry_json es))]
  | None => not_found
  end.

Definition get_contents (s : pstate) (path : str) : response :=
  match path with
  | [] => mk_response 200 (Some (JList (map entry_json (head_tree s))))
  | _ =>
      match lookup path (head_tree s) with
      | Some b =>
          match lookup b (blobs s) with
          | Some c => ok 200 [(py "path", JStr path); (py "sha", JStr b);
                              (py "type", JStr (py "file"));
                              (py "encoding", JStr (py "base64"));
                              (py "content", JStr c)]
          | None => not_found
          end
      | None => not_found
      end
  end.

Definition post_blob (s : pstate) (body : json) : pstate * response :=
  match getitem body (py "content") with
  | Returned (JStr c) =>
      let (s', b) := add_blob s c in (s', ok 201 [(py "sha", JStr b)])
  | _ => (s, unprocessable)
  end.

Definition post_tree (s : pstate) (body : json) : pstate * response :=
  let base_entries :=
    match getitem body (py "base_tree") with
    | Returned (JStr t) => lookup t (trees s)
    | Returned _ => None
    | Raised _ => Some []
    end in
  match base_entries, getitem body (py "tree") with
  | Some es0, Returned (JList es) =>
      match tree_entries es es0 with
      | Some es' =>
          let (s', t) := add_tree s es' in (s', ok 201 [(py "sha", JStr t)])
      | None => (s, unprocessable)
      end
  | _, _ => (s, unprocessable)
  end.

Definition post_commit (s : pstate) (body : json) : pstate * response :=
  let parents :=
    match getitem body (py "parents") with
    | Returned (JList [JStr p]) => Some [p]
    | Returned _ => None
    | Raised _ => Some []
    end in
  match parents, getitem body (py "tree") with
  | Some ps, Returned (JStr t) =>
      match lookup t (trees s) with
      | Some _ =>
          let (s', c) := add_commit s t ps in
          (s', ok 201 [(py "sha", JStr c)])
      | None => (s, unprocessable)
      end
  | _, _ => (s, unprocessable)
  end.

(** An update of the reference is honoured when it is a fast-forward
    or is forced; otherwise it is refused and the head stays. *)
Definition patch_ref (s : pstate) (body : json) : pstate * response :=
  match getitem body (py "sha") with
  | Returned (JStr c) =>
      match lookup c (commits s) with
      | Some _ =>
          if forced body || fast_forward s c
          then (set_head s c,
                ok 200 [(py "object", JDict [(py "sha", JStr c)])])
          else (s, not_fast_forward)
      | None => (s, unprocessable)
      end
  | _ => (s, unprocessable)
  end.

Definition put_contents (s : pstate) (path : str) (body : json)
  : pstate * response :=
  match getitem body (py "content") with
  | Returned (JStr c) =>
      let (s1, b) := add_blob s c in
      let (s2, t) := add_tree s1 (dict_set path b (head_tree s)) in
      let (s3, k) := add_commit s2 t (match head s with
                                      | Some p => [p]
                                      | None => []
                                      end) in
      (set_head s3 k,
       ok 201 [(py "content", JDict [(py "path", JStr path);
                                     (py "sha", JStr b)]);
               (py "commit", JDict [(py "sha", JStr k)])])
  | _ => (s, unprocessable)
  end.

Definition contents_path (u : str) : option str :=
  match strip_prefix (base ++ py "/contents/") u with
  | Some rest =>
      match strip_suffix (py "?ref=main") rest with
      | Some p => Some p
      | None => Some rest
      end
  | None => None
  end.

Definition step (s : pstate) (q : request) : pstate * response :=
  let u := url q in
  match method q with
  | GET =>
      if eqb_str u (base ++ py "/git/refs/heads/main") then (s, get_ref s)
      else match strip_prefix (base ++ py "/commits/") u with
      | Some c => (s, get_commit s c)
      | None =>
      match strip_prefix (base ++ py "/git/trees/") u with
      | Some t => (s, get_tree s t)
      | None =>
      match contents_path u with
      | Some p => (s, get_contents s p)
      | None => (s, not_found)
      end end end
  | POST =>
      if eqb_str u (base ++ py "/git/blobs") then post_blob s (payload q)
      else if eqb_str u (base ++ py "/git/trees")
      then post_tree s (payload q)
      else if eqb_str u (base ++ py "/git/commits")
      then post_commit s (payload q)
      else (s, not_found)
  | PATCH =>
      if eqb_str u (base ++ py "/git/refs/heads/main")
      then patch_ref s (payload q)
      else (s, not_found)
  | PUT =>
      match contents_path u with
      | Some p => put_contents s p (payload q)
      | None => (s, not_found)
      end
  end.

(** The state after the exchanges [h], from the state [s0]. *)
Definition state_after (s0 : pstate) (h : trace) : pstate :=
  fold_left (fun s (ev : event) => fst (step s (fst ev))) h s0.

Definition serve (s0 : pstate) : provider :=
  fun h q => Some (snd (step (state_after s0 h) q)).
End Repo.

(** A repository without any commit; it knows the empty tree. *)
Definition empty_repo : pstate :=
  mk_pstate [] [(emptyTreeSha, [])] [] None 1.

(** A repository created with [auto_init]: one commit holding a README. *)
Definition initialised_repo : pstate :=
  mk_pstate [(py "obj1", py "IyBiYWNrdXAK")]
            [(py "obj2", [(py "README.md", py "obj1")]); (emptyTreeSha, [])]
            [(py "obj3", (py "obj2", []))]
            (Some (py "obj3")) 4.

Definition history (s : pstate) : list str :=
  match head s with
  | Some c => ancestry (List.length (commits s)) s c
  | None => []
  end.

Definition parents_of (s : pstate) (c : str) : list str :=
  match lookup c (commits s) with Some (_, ps) => ps | None => [] end.

End Provider.

(* ===================================================================== *)
(** * Notions used in the statements *)
(* ===================================================================== *)

(** A word: a non-empty text without whitespace, what [split()] gives. *)
Definition is_word (w : str) : bool :=
  negb (eqb_str w []) && forallb (fun c => negb (is_space c)) w.

(** The manifests the store itself produces: the header written at
    start-up, then any number of [registerFile] appends. *)
Inductive store_built : str -> Prop :=
| built_header : store_built header
| built_register m remotePath localPath timestamp :
    store_built m ->
    store_built (m ++ entry_line remotePath localPath timestamp).

(** The first line of a manifest, as [readlines] gives it. *)
Definition first_line (f : fs) : option str :=
  match readlines f masterFile with
  | Returned (l :: _) => Some l
  | _ => None
  end.

(** ** Scenario data *)

Definition alice : GitHubRepo :=
  __init__ (py "alice") (py "backup") (py "token") (py "/home/alice").

(** A formatting of numbers, lists and dicts, for the scenarios. *)
Definition render0 (_ : json) : str := py "<value>".

Definition no_files : fs := fun _ => None.

(** A fresh installation: only the manifest with its header. *)
Definition fresh_fs : fs := create_manifest no_files.

(** The request [getFile path] sends. *)
Definition fetch_request (self : GitHubRepo) (path : str) : request :=
  mk_request GET (contentsURL self path) (queryHeaders self) (JDict []).

(** The text a response of the contents endpoint carries for a single
    file: its [content] field, base64-decoded, read as UTF-8. *)
Definition file_text (res : response) : outcome str :=
  match json_body res with
  | Some j => c <~ getitem j (py "content") ;; b64decode_text c
  | None => Raised JSONDecodeError
  end.

(** The line of an entry registered without a timestamp, stripped. *)
Definition entry_text (r l : str) : str := r ++ py " -> " ++ l ++ py " -".

(** The manifest of a file system. *)
Definition manifest (f : fs) : option str := f masterFile.

(** Fresh installation, then [a], [b] and [c] registered in that order. *)
Definition abc_fs : fs :=
  registerFile (py "c") (py "/tmp/c") []
    (registerFile (py "b") (py "/tmp/b") []
       (registerFile (py "a") (py "/tmp/a") [] fresh_fs)).

(** Fresh installation, then [notes.txt -> ~/notes.txt] registered, with
    the local file holding [hello]. *)
Definition notes_fs : fs :=
  write_text (registerFile (py "notes.txt") (py "~/notes.txt") [] fresh_fs)
             (py "/home/alice/notes.txt") (py "hello").

(** ** Requests and answers *)

(** A success status. *)
Definition is_success (code : Z) : bool :=
  ((200 <=? code) && (code <? 300))%Z.

(** The request method [_queryAPI] uses for a method name. *)
Definition method_named (name : str) : option http_method :=
  if eqb_str name (py "get") then Some GET
  else if eqb_str name (py "post") then Some POST
  else if eqb_str name (py "put") then Some PUT
  else if eqb_str name (py "patch") then Some PATCH
  else None.

(** The requests of the client, by what they ask for. *)
Definition ref_read (self : GitHubRepo) : request :=
  mk_request GET (refURL self) (queryHeaders self) (JDict []).

Definition ref_update (self : GitHubRepo) (commitSha : json) (force : bool)
  : request :=
  mk_request PATCH (refURL self) (queryHeaders self)
             (reference_data commitSha force).

Definition commit_create (self : GitHubRepo)
  (treeSha previousCommitSha : json) (message : str) : request :=
  mk_request POST (repoURL self ++ py "/git/commits") (queryHeaders self)
             (commit_data treeSha previousCommitSha message).

(** A field of a JSON body, by the path of keys that leads to it. *)
Fixpoint getpath (v : json) (path : list str) : outcome json :=
  match path with
  | [] => Returned v
  | k :: path' => x <~ getitem v k ;; getpath x path'
  end.

Definition field (path : list str) (res : response) : outcome json :=
  match json_body res with
  | Some j => getpath j path
  | None => Raised JSONDecodeError
  end.

(** ** Traces of an upload *)

(** The requests that leave the branch where it is: a [GET], which
    reads (the reference, a commit, a tree), and a [POST] to [git/blobs],
    [git/trees] or [git/commits] of the repository, which creates an
    object that no reference points at. *)
Definition reads_or_creates (self : GitHubRepo) (q : request) : bool :=
  match method q with
  | GET => true
  | POST =>
      eqb_str (url q) (repoURL self ++ py "/git/blobs")
      || eqb_str (url q) (repoURL self ++ py "/git/trees")
      || eqb_str (url q) (repoURL self ++ py "/git/commits")
  | PUT | PATCH => false
  end.

Definition harmless (self : GitHubRepo) (ev : event) : bool :=
  reads_or_creates self (fst ev).

Definition is_ref_read (self : GitHubRepo) (q : request) : bool :=
  match method q with
  | GET => eqb_str (url q) (refURL self)
  | _ => false
  end.

Definition is_commit_create (self : GitHubRepo) (q : request) : bool :=
  match method q with
  | POST => eqb_str (url q) (repoURL self ++ py "/git/commits")
  | _ => false
  end.

(** An answer to the head read after which [_getPreviousCommit] returns
    [None]: status 409, or a null sha. *)
Definition no_head (res : response) : bool :=
  (status_code res =? 409)%Z
  || match field [py "object"; py "sha"] res with
     | Returned JNull => true
     | _ => false
     end.

(** An exchange that reads the reference and finds no head. *)
Definition finds_no_head (self : GitHubRepo) (ev : event) : bool :=
  is_ref_read self (fst ev)
  && match snd ev with
     | Some res => no_head res
     | None => false
     end.

(** The payloads of the commit creations of a trace, oldest first. *)
Definition commits_requested (self : GitHubRepo) (tr : trace) : list json :=
  map (fun ev : event => payload (fst ev))
      (filter (fun ev : event => is_commit_create self (fst ev)) tr).

(** The last exchange of a trace. *)
Definition last_event (tr : trace) : option event :=
  last (map (@Some event) tr) None.

(** Programs all of whose requests satisfy [ok], whatever the answers. *)
Fixpoint calls_only {A} (ok : request -> bool) (p : prog A) : Prop :=
  match p with
  | Ret _ => True
  | Raise _ => True
  | Call q k => ok q = true /\ forall r, calls_only ok (k r)
  end.

(** What [writeRemoteFiles] does once it holds a head commit. *)
Definition upload_onto (render : json -> str) (self : GitHubRepo)
  (previousCommitSha : json) (newTreeBlobs : list json) : prog unit :=
  currentTreeSha <- _getBranchTree render self previousCommitSha ;;
  newTreeSha <- _updateTree self currentTreeSha newTreeBlobs ;;
  newCommitSha <- _commitTree self newTreeSha previousCommitSha [] ;;
  _updateBranchReference self newCommitSha false.

(** The shape of a trace in which the branch can move at the last
    exchange only: every exchange but the last reads or creates objects;
    a run that returns ends with the reference update; a run that raises
    either sent nothing but reads and creations, or failed in the
    reference update itself. *)
Definition moves_last (self : GitHubRepo) (out : outcome unit) (tr : trace)
  : Prop :=
  forallb (harmless self) (removelast tr) = true
  /\ (out = Returned tt ->
      exists init commitSha res,
        tr = init ++ [(ref_update self commitSha false, Some res)])
  /\ (forall e, out = Raised e ->
      forallb (harmless self) tr = true
      \/ exists init commitSha r,
           tr = init ++ [(ref_update self commitSha false, r)]).

(** ** The exchanges of an upload *)

(** The bytes of a text that [encode] accepts. *)
Definition encoded (content : str) : Codec.bytes :=
  match Codec.encode content with
  | Returned bs => bs
  | Raised _ => []
  end.

Definition is_encodable (content : str) : bool :=
  match Codec.encode content with
  | Returned _ => true
  | Raised _ => false
  end.

Definition blob_create (self : GitHubRepo) (content : str) : request :=
  mk_request POST (repoURL self ++ py "/git/blobs") (queryHeaders self)
    (JDict [(py "content", JStr (Codec.b64encode (encoded content)));
            (py "encoding", JStr (py "base64"))]).

Definition file_create (self : GitHubRepo) (contents path message branch : str)
  : request :=
  mk_request PUT (repoURL self ++ py "/contents/" ++ path)
    (queryHeaders self)
    (JDict [(py "branch", JStr branch);
            (py "message", JStr message);
            (py "content", JStr (Codec.b64encode (encoded contents)))]).

Definition commit_read (render : json -> str) (self : GitHubRepo)
  (commitSha : json) : request :=
  mk_request GET (repoURL self ++ py "/commits/" ++ py_str render commitSha)
             (queryHeaders self) (JDict []).

Definition tree_read (render : json -> str) (self : GitHubRepo)
  (treeUrl : json) : request :=
  mk_request GET (py_str render treeUrl) (queryHeaders self) (JDict []).

Definition tree_update (self : GitHubRepo) (treeSha : json)
  (newBlobs : list json) : request :=
  mk_request POST (repoURL self ++ py "/git/trees") (queryHeaders self)
    (JDict [(py "base_tree", treeSha); (py "tree", JList newBlobs)]).

(** A response that carries [v] in its JSON body under the keys [path]. *)
Definition carries (path : list str) (v : json) (res : response) : Prop :=
  field path res = Returned v.

(** The tree entries [writeRemoteFiles] builds from the files and the
    shas of their blobs. *)
Definition tree_blobs (files : registeredFiles) (shas : list json)
  : list json :=
  map (fun p : (str * fileRec) * json =>
         _createNewTreeBlob (fst (fst p)) fileMode (snd p))
      (combine files shas).

(** The exchanges that create the blobs of the files. *)
Definition blob_exchanges (self : GitHubRepo) (files : registeredFiles)
  (answers : list response) : trace :=
  map (fun p : (str * fileRec) * response =>
         (blob_create self (contents (snd (fst p))), Some (snd p)))
      (combine files answers).

(** The exchanges of [_createBranch], with the sha of the bootstrap
    commit. *)
Definition bootstrap_exchanges (self : GitHubRepo) (boot : json)
  (r_put r_boot r_upd : response) : trace :=
  [(file_create self [] (py ".master") [] (py "main"), Some r_put);
   (commit_create self (JStr emptyTreeSha) JNull (py "Initial Commit"),
    Some r_boot);
   (ref_update self boot false, Some r_upd)].

(** The exchanges of an upload onto the head [hd]. *)
Definition upload_exchanges (render : json -> str) (self : GitHubRepo)
  (hd tree_url base_tree new_tree new_commit : json) (blobs : list json)
  (r_commit r_tree r_newtree r_new r_upd : response) : trace :=
  [(commit_read render self hd, Some r_commit);
   (tree_read render self tree_url, Some r_tree);
   (tree_update self base_tree blobs, Some r_newtree);
   (commit_create self new_tree hd [], Some r_new);
   (ref_update self new_commit false, Some r_upd)].

(** ** Scenario: uploading [notes.txt] *)

(** What [readLocalFiles] gives on [notes_fs]. *)
Definition notes_files : registeredFiles :=
  [(py "notes.txt", mk_fileRec (py "/home/alice/notes.txt") (py "hello"))].

(** A response with a JSON object for body. *)
Definition answer (code : Z) (fields : list (str * json)) : response :=
  mk_response code (Some (JDict fields)).

(** The provider serving [alice]'s repository from a given state. *)
Definition hosting (s0 : Provider.pstate) : provider :=
  Provider.serve (repoURL alice) s0.

(** A provider that answers as [P] does for the first [n] exchanges and
    is unreachable afterwards. *)
Definition cut_after (n : nat) (P : provider) : provider :=
  fun h q => if Nat.ltb (List.length h) n then P h q else None.

(** The answers of the in-memory provider to the upload of [notes.txt]
    onto an empty repository, in order: to the blob creation, and to the
    ten requests that follow. *)
Definition sha_answer (code : Z) (sha : string) : response :=
  answer code [(py "sha", JStr (py sha))].

Definition ref_answer (sha : string) : response :=
  answer 200 [(py "ref", JStr (py "refs/heads/main"));
              (py "object", JDict [(py "sha", JStr (py sha))])].

Definition updated_answer (sha : string) : response :=
  answer 200 [(py "object", JDict [(py "sha", JStr (py sha))])].

Definition commit_answer (sha : string) (tree : str) : response :=
  answer 200
    [(py "sha", JStr (py sha));
     (py "commit",
      JDict [(py "tree",
              JDict [(py "sha", JStr tree);
                     (py "url",
                      JStr (repoURL alice ++ py "/git/trees/" ++ tree))])])].

Definition empty_answer : response :=
  answer 409 [(py "message", JStr (py "Git Repository is empty."))].

Definition placeholder_answer : response :=
  answer 201 [(py "content", JDict [(py "path", JStr (py ".master"));
                                    (py "sha", JStr (py "obj2"))]);
              (py "commit", JDict [(py "sha", JStr (py "obj4"))])].

(** The refusal of a reference update that is no fast-forward. *)
Definition refused_answer : response :=
  answer 422 [(py "message", JStr (py "Update is not a fast forward"))].

(** The tree of the commit the provider made for the placeholder file. *)
Definition placeholder_tree_answer : response :=
  answer 200 [(py "sha", JStr (py "obj3"));
              (py "tree",
               JList [JDict [(py "path", JStr (py ".master"));
                             (py "type", JStr (py "blob"));
                             (py "sha", JStr (py "obj2"))]])].

Definition bootstrap_answers : list response :=
  [empty_answer; placeholder_answer; sha_answer 201 "obj5";
   refused_answer; ref_answer "obj4";
   commit_answer "obj4" (py "obj3"); placeholder_tree_answer;
   sha_answer 201 "obj6"; sha_answer 201 "obj7"; updated_answer "obj7"].

(** [notes_fs] with the manifest registered in itself as well, so that
    an upload carries it to the remote. *)
Definition self_listed_fs : fs :=
  registerFile (py ".master") (py ".master") [] notes_fs.

Definition self_listed_manifest : str :=
  header ++ entry_line (py "notes.txt") (py "~/notes.txt") []
  ++ entry_line (py ".master") (py ".master") [].

Definition self_listed_files : registeredFiles :=
  [(py "notes.txt", mk_fileRec (py "/home/alice/notes.txt") (py "hello"));
   (py ".master", mk_fileRec (py ".master") self_listed_manifest)].

(* ===================================================================== *)
(** * More of the program: credentials, registration, repository creation *)
(* ===================================================================== *)

(** [file.readline()] on a file just opened for reading: its first line
    with the line end, or the empty text. *)
Definition readline (f : fs) (p : str) : outcome str :=
  lines <~ readlines f p ;;
  Returned (match lines with l :: _ => l | [] => [] end).

Definition writeEnvFile (envFilePath token : str) (f : fs) : fs :=
  write_text f envFilePath (py "TOKEN=" ++ token).

(** [token = file.readline().split("=")[-1]] *)
Definition readEnvFile (envFilePath : str) (f : fs) : outcome str :=
  line <~ readline f envFilePath ;;
  Returned (last (split_on 61%N line) []).

(** [configureAccessTokens()], given the line typed at its prompt. *)
Definition configureAccessTokens (accessToken : str) (f : fs)
  : printed * fs :=
  if eqb_str accessToken (py "exit") || eqb_str accessToken (py "back")
  then ([], f)
  else ([py "Successfully updated your access token!"],
        writeEnvFile (py ".env") accessToken f).

(** [registerNewFile(repository)], given the lines typed at its two
    prompts; the second prompt is reached only when the first answer is
    neither [back] nor [exit]. *)
Definition registerNewFile (remoteName localPath : str) (f : fs)
  : printed * fs :=
  if eqb_str remoteName (py "back") || eqb_str remoteName (py "exit")
  then ([], f)
  else if eqb_str localPath (py "back") || eqb_str localPath (py "exit")
  then ([], f)
  else ([py "File successfully registered!"],
        registerFile remoteName localPath [] f).

(** [str(n)] for an [int]. *)
Definition py_int (n : Z) : str :=
  py (NilEmpty.string_of_int (Z.to_int n)).

Definition createRepoURL : str := _apiBaseURL ++ py "user/repos".

(** The request of [createRemoteRepo]: its own headers, without
    [Accept]. *)
Definition repo_create (repoName accessToken repoDescription : str)
  : request :=
  mk_request POST createRepoURL
    [(py "Authorization", py "token " ++ accessToken)]
    (JDict [(py "name", JStr repoName);
            (py "description", JStr repoDescription);
            (py "auto_init", JStr (py "true"))]).

(** [GitHubRepo.createRemoteRepo]; [home] is what [os.path.expanduser]
    gives when the instance is built. The message of the exception
    formats the status code and the parsed body. *)
Definition createRemoteRepo (render : json -> str)
  (username repoName accessToken repoDescription home : str)
  : prog GitHubRepo :=
  Call (repo_create repoName accessToken repoDescription) (fun res =>
    if (status_code res =? 201)%Z
    then Ret (__init__ username repoName accessToken home)
    else match json_body res with
         | Some j =>
             Raise (Exception
                      (py "Request to " ++ createRepoURL
                       ++ py " receieved a " ++ py_int (status_code res)
                       ++ py " response and could not create the GitHub repo. Message = "
                       ++ py_str render j))
         | None => Raise JSONDecodeError
         end).

(** [_checkRateLimits] *)
Definition _checkRateLimits (self : GitHubRepo) : prog qresult :=
  _queryAPI self (py "https://api.github.com/rate_limit") (JDict [])
            (py "get") true.

(** ** Checking a property of every number below a bound *)

Fixpoint all_upto (n : nat) (p : N -> bool) : bool :=
  match n with
  | O => true
  | S k => p (N.of_nat k) && all_upto k p
  end.

(** The characters [b64decode] does not skip: the alphabet and [=]. *)
Definition b64_symbol (c : char) : bool :=
  (c =? Codec.PAD)%N
  || match Codec.b64_value c with Some _ => true | None => false end.

(** The encoding of one code point decodes to it, and is made of
    bytes. *)
Definition utf8_char_ok (c : char) : bool :=
  match Codec.utf8_char c with
  | Some bs =>
      match Codec.decode bs with
      | Returned [d] => (d =? c)%N
      | _ => false
      end && forallb (fun b => (b <? 256)%N) bs
  | None => true
  end.


(** An alphabet character, or [=], that is ASCII. *)
Definition plain (c : char) : bool := (b64_symbol c && (c <? 128))%N.

(** ** Registering through the menu *)

(** The words the prompts take as commands. *)
Definition reserved (x : str) : bool :=
  eqb_str x (py "back") || eqb_str x (py "exit").


(** A registration the readers can parse: name and path are words. *)
Definition words (e : str * str) : bool :=
  is_word (fst e) && is_word (snd e).

(** [registerNewFile] once per entry, in order. *)
Definition register_all (entries : list (str * str)) (f : fs) : fs :=
  fold_left (fun f' e => snd (registerNewFile (fst e) (snd e) f'))
            entries f.

(** The text a program reads from a path; empty when there is no file. *)
Definition text_at (f : fs) (p : str) : str :=
  match f p with
  | Some c => universal_newlines c
  | None => []
  end.

(** The dictionary [readLocalFiles] builds from the entries: a name
    registered again keeps its place and takes the later path. *)
Definition local_dict (self : GitHubRepo) (f : fs)
  (entries : list (str * str)) (acc : registeredFiles) : registeredFiles :=
  fold_left (fun d e =>
               dict_set (fst e)
                 (mk_fileRec (resolve self (snd e))
                             (text_at f (resolve self (snd e)))) d)
            entries acc.

(** The manifest after the entries were registered on a fresh one. *)
Definition entry_lines (entries : list (str * str)) : str :=
  List.concat (map (fun e => entry_line (fst e) (snd e) []) entries).

Definition manifest_of (entries : list (str * str)) : str :=
  header ++ entry_lines entries.

(** Pairwise different texts. *)
Fixpoint distinct (l : list str) : bool :=
  match l with
  | [] => true
  | x :: t => negb (existsb (eqb_str x) t) && distinct t
  end.

(** The item [readLocalFiles] makes of an entry. *)
Definition file_of (self : GitHubRepo) (f : fs) (e : str * str)
  : str * fileRec :=
  (fst e, mk_fileRec (resolve self (snd e))
                     (text_at f (resolve self (snd e)))).

(** ** Lines of the manifest, as [deregisterFile] sees them *)

(** The line's first field is the name. *)
Definition names (fileName line : str) : bool :=
  match split_ws line with
  | w :: _ => eqb_str w fileName
  | [] => false
  end.

(** The line has a first field, and it is not the name. *)
Definition names_other (fileName line : str) : bool :=
  match split_ws line with
  | w :: _ => negb (eqb_str w fileName)
  | [] => false
  end.

(** The line has no field. *)
Definition blank (line : str) : bool :=
  match split_ws line with
  | [] => true
  | _ => false
  end.

(** A fresh installation with two local files. *)
Definition two_files_fs : fs :=
  write_text
    (write_text fresh_fs (py "/home/alice/notes.txt") (py "hello"))
    (py "/tmp/a") (py "A").

(** ** The [.env] file *)

Definition EQUALS : char := 61%N.

(** Text without a line end. *)
Definition one_line (s : str) : bool :=
  forallb (fun c => negb (c =? NL)%N && negb (c =? CR)%N) s.

(** Text without a line end and without [=]. *)
Definition plain_value (s : str) : bool :=
  forallb (fun c => negb (c =? EQUALS)%N) s && one_line s.

(** ** Downloading *)

(** The two fields [readRemoteFiles] takes from a line of the manifest:
    [temp[0]] and [temp[2]]. *)
Definition entry_fields (line : str) : option (str * str) :=
  match split_ws line with
  | t0 :: _ :: t2 :: _ => Some (t0, t2)
  | _ => None
  end.

(** The item [readRemoteFiles] makes of an entry and the text fetched
    for it. *)
Definition remote_file (self : GitHubRepo) (et : (str * str) * str)
  : str * fileRec :=
  (fst (fst et), mk_fileRec (resolve self (snd (fst et))) (snd et)).

(** The dictionary [readRemoteFiles] builds from the entries and the
    texts fetched. *)
Definition remote_dict (self : GitHubRepo) (ets : list ((str * str) * str))
  (acc : registeredFiles) : registeredFiles :=
  fold_left (fun d et => dict_set (fst (remote_file self et))
                                  (snd (remote_file self et)) d)
            ets acc.

(** The exchanges that fetch the files of the entries. *)
Definition fetch_exchanges (self : GitHubRepo) (es : list (str * str))
  (answers : list response) : trace :=
  map (fun p : (str * str) * response =>
         (fetch_request self (fst (fst p)), Some (snd p)))
      (combine es answers).

(** A manifest written by hand, without the empty line. *)
Definition hand_manifest : str :=
  py "[FILES]" ++ [NL] ++ py "a -> /tmp/a -" ++ [NL]
  ++ py "notes.txt -> ~/notes.txt -" ++ [NL].

(** The answer of the contents endpoint for a file with the given
    text. *)
Definition text_answer (t : str) : response :=
  answer 200 [(py "content", JStr (Codec.b64encode (encoded t)))].

(** ** Counting requests *)

(** A program that sends at most [n] requests, whatever it is
    answered. *)
Inductive sends_at_most {A} : nat -> prog A -> Prop :=
| sends_ret n a : sends_at_most n (Ret a)
| sends_raise n e : sends_at_most n (Raise e)
| sends_call n q k :
    (forall r, sends_at_most n (k r)) -> sends_at_most (S n) (Call q k).

(** A request that creates a tree. *)
Definition is_tree_create (self : GitHubRepo) (q : request) : bool :=
  match method q with
  | POST => eqb_str (url q) (repoURL self ++ py "/git/trees")
  | _ => false
  end.

(** The tree creations among the exchanges. *)
Definition trees_requested (self : GitHubRepo) (t : trace) : list request :=
  filter (is_tree_create self) (map fst t).

(** ** What the requests carry *)

(** A JSON object with the key. *)
Definition has_key (k : str) (j : json) : bool :=
  match j with
  | JDict d => match lookup k d with Some _ => true | None => false end
  | _ => false
  end.

(** The request carries the access token of the instance. *)
Definition authorised (self : GitHubRepo) (q : request) : bool :=
  match lookup (py "Authorization") (headers q) with
  | Some v => eqb_str v (py "token " ++ accessToken self)
  | None => false
  end.

(** A tree creation names the tree it builds on. *)
Definition builds_on_tree (self : GitHubRepo) (q : request) : bool :=
  negb (is_tree_create self q) || has_key (py "base_tree") (payload q).

(** The request does not ask to force anything. *)
Definition unforced (q : request) : bool :=
  negb (has_key (py "force") (payload q)).

Definition is_get (q : request) : bool :=
  match method q with
  | GET => true
  | _ => false
  end.

(** What holds of every request of an upload. *)
Definition careful (self : GitHubRepo) (q : request) : bool :=
  authorised self q && builds_on_tree self q && unforced q.

(** What holds of every request of a download. *)
Definition reading (self : GitHubRepo) (q : request) : bool :=
  is_get q && authorised self q.

(** ** Creating a repository from the menu *)

(** [createNewRepo()], given the lines typed at its prompts; [typed] is
    the answer to the prompt of [configureAccessTokens], which is asked
    only when [hasToken] is [n] or [no]. The [.env] file is written
    before it is read and before the request is sent; the instance that
    [createRemoteRepo] returns is dropped. *)
Definition createNewRepo (render : json -> str)
  (username repoName hasToken typed home : str) (f : fs)
  : fs * prog unit :=
  if reserved username then (f, Ret tt)
  else if reserved repoName then (f, Ret tt)
  else if reserved hasToken then (f, Ret tt)
  else
    let f' := if eqb_str hasToken (py "n") || eqb_str hasToken (py "no")
              then snd (configureAccessTokens typed f)
              else f in
    (f', token <- lift (readEnvFile (py ".env") f') ;;
         createRemoteRepo render username repoName token [] home ;;;
         Ret tt).

(** ** The files a download writes *)

(** Two paths that name one file, as the operating system has it. *)
Definition same_file (o : os) (p q : str) : bool :=
  eqb_str (realpath o p) (realpath o q).

(** Runs of [/] read as one. *)
Fixpoint squeeze (p : str) : str :=
  match p with
  | a :: (b :: _) as rest =>
      if ((a =? 47) && (b =? 47))%N then squeeze rest else a :: squeeze rest
  | _ => p
  end.

(** An operating system for the examples: paths that differ in repeated
    slashes name one file, and every file can be opened. *)
Definition tidy_os : os := mk_os squeeze (fun _ _ => None).

(** The same, with a directory [/etc] that cannot be written to. *)
Definition guarded_os : os :=
  mk_os squeeze
        (fun _ p => match Provider.strip_prefix (py "/etc/") (squeeze p) with
                    | Some _ => Some (OSError (py "PermissionError"))
                    | None => None
                    end).

(* ===================================================================== *)
(** * Facts about text *)
(* ===================================================================== *)

Section TextFacts.
Local Open Scope N_scope.

Lemma eqb_str_refl (a : str) : eqb_str a a = true.
Proof.
  induction a as [|x a IH]; simpl; [reflexivity|].
  now rewrite N.eqb_refl, IH.
Qed.

Lemma eqb_str_eq (a b : str) : eqb_str a b = true <-> a = b.
Proof.
  split.
  - revert b; induction a as [|x a IH]; intros [|y b]; simpl;
      try discriminate; [reflexivity|].
    intros H. apply andb_prop in H as [Hx Hab].
    apply N.eqb_eq in Hx. apply IH in Hab. now subst.
  - intros ->. apply eqb_str_refl.
Qed.

Lemma eqb_str_neq (a b : str) : a <> b -> eqb_str a b = false.
Proof.
  intros H. destruct (eqb_str a b) eqn:E; [|reflexivity].
  apply eqb_str_eq in E. contradiction.
Qed.

Lemma is_word_cons (w : str) :
  is_word w = true ->
  exists c t, w = c :: t /\ is_space c = false
              /\ forallb (fun c => negb (is_space c)) t = true.
Proof.
  destruct w as [|c t]; [discriminate|].
  unfold is_word; simpl. intros H.
  apply andb_prop in H as [Hc Ht].
  exists c, t. repeat split; [|exact Ht].
  now apply negb_true_iff.
Qed.

Lemma split_ws_spaces (s : str) :
  forallb is_space s = true -> split_ws s = [].
Proof.
  induction s as [|c t IH]; simpl; [reflexivity|].
  intros H. apply andb_prop in H as [Hc Ht]. rewrite Hc. auto.
Qed.

Lemma rstrip_spaces (s : str) :
  forallb is_space s = true -> rstrip s = [].
Proof.
  induction s as [|c t IH]; simpl; [reflexivity|].
  intros H. apply andb_prop in H as [Hc Ht]. now rewrite IH, Hc.
Qed.

Lemma strip_spaces (s : str) :
  forallb is_space s = true -> strip s = [].
Proof. intros H. unfold strip. now rewrite rstrip_spaces. Qed.

(** A word followed by a whitespace character is the first field. *)
Lemma split_ws_word_then (t : str) (sp : char) (rest : str) (c : char) :
  is_space c = false ->
  forallb (fun c => negb (is_space c)) t = true ->
  is_space sp = true ->
  split_ws (c :: t ++ sp :: rest) = (c :: t) :: split_ws rest.
Proof.
  revert c. induction t as [|d t IH]; intros c Hc Ht Hsp.
  - simpl. now rewrite Hc, Hsp.
  - simpl in Ht. apply andb_prop in Ht as [Hd Ht].
    apply negb_true_iff in Hd.
    specialize (IH d Hd Ht Hsp).
    change (split_ws (c :: (d :: t) ++ sp :: rest))
      with (if is_space c then split_ws ((d :: t) ++ sp :: rest)
            else if is_space d then [c] :: split_ws ((d :: t) ++ sp :: rest)
                 else match split_ws ((d :: t) ++ sp :: rest) with
                      | w :: ws => (c :: w) :: ws
                      | [] => [[c]]
                      end).
    rewrite Hc, Hd. simpl app. now rewrite IH.
Qed.

Lemma split_ws_word_sp (w : str) (sp : char) (rest : str) :
  is_word w = true -> is_space sp = true ->
  split_ws (w ++ sp :: rest) = w :: split_ws rest.
Proof.
  intros Hw Hsp. apply is_word_cons in Hw as (c & t & -> & Hc & Ht).
  now apply split_ws_word_then.
Qed.

Lemma rstrip_nonspace_cons (c : char) (s : str) :
  is_space c = false -> rstrip (c :: s) = c :: rstrip s.
Proof. intros Hc. simpl. rewrite Hc. now destruct (rstrip s). Qed.

(** Trailing whitespace is all that [rstrip] removes: what stands before
    a non-whitespace character is kept. *)
Lemma rstrip_keep (a : str) (c : char) (b : str) :
  is_space c = false -> rstrip (a ++ c :: b) = a ++ c :: rstrip b.
Proof.
  intros Hc. induction a as [|x a IH].
  - now apply rstrip_nonspace_cons.
  - simpl. now rewrite IH; destruct a.
Qed.

Lemma split_on_no_sep (sep : char) (s : str) :
  forallb (fun c => negb (c =? sep)) s = true -> split_on sep s = [s].
Proof.
  induction s as [|c t IH]; simpl; [reflexivity|].
  intros H. apply andb_prop in H as [Hc Ht].
  apply negb_true_iff in Hc. now rewrite Hc, IH.
Qed.

Lemma split_on_app (sep : char) (a b : str) :
  forallb (fun c => negb (c =? sep)) a = true ->
  split_on sep (a ++ sep :: b) = a :: split_on sep b.
Proof.
  induction a as [|c t IH]; simpl.
  - now rewrite N.eqb_refl.
  - intros H. apply andb_prop in H as [Hc Ht].
    apply negb_true_iff in Hc. now rewrite Hc, IH.
Qed.

Lemma lines_keepends_app (a b : str) :
  forallb (fun c => negb (c =? NL)) a = true ->
  lines_keepends (a ++ NL :: b) = (a ++ [NL]) :: lines_keepends b.
Proof.
  induction a as [|c t IH]; simpl.
  - reflexivity.
  - intros H. apply andb_prop in H as [Hc Ht].
    apply negb_true_iff in Hc. now rewrite Hc, IH.
Qed.

Lemma universal_newlines_app (a b : str) :
  forallb (fun c => negb (c =? CR)) a = true ->
  universal_newlines (a ++ b) = a ++ universal_newlines b.
Proof.
  induction a as [|c t IH]; simpl; [reflexivity|].
  intros H. apply andb_prop in H as [Hc Ht].
  apply negb_true_iff in Hc. now rewrite Hc, IH.
Qed.

Lemma universal_newlines_id (a : str) :
  forallb (fun c => negb (c =? CR)) a = true -> universal_newlines a = a.
Proof.
  intros H. rewrite <- (app_nil_r a) at 1.
  rewrite universal_newlines_app by exact H. simpl. apply app_nil_r.
Qed.

Lemma ends_with_newline_app (a : str) (c : char) :
  ends_with_newline (a ++ [c]) = (c =? NL).
Proof. unfold ends_with_newline. now rewrite rev_app_distr. Qed.

Lemma word_no_char (w : str) (c : char) :
  is_space c = true ->
  forallb (fun c => negb (is_space c)) w = true ->
  forallb (fun d => negb (d =? c)) w = true.
Proof.
  intros Hc. induction w as [|d w IH]; simpl; [reflexivity|].
  intros H. apply andb_prop in H as [Hd Hw].
  rewrite IH by exact Hw. rewrite andb_true_r.
  apply negb_true_iff. apply N.eqb_neq. intros ->.
  rewrite Hc in Hd. discriminate.
Qed.

End TextFacts.

(* ===================================================================== *)
(** * The manifest store *)
(* ===================================================================== *)

Section ManifestFacts.
Local Open Scope N_scope.

(** A manifest the store built is the header alone, or the header, an
    empty line, and more. *)
Lemma store_built_shape (m : str) :
  store_built m -> m = header \/ exists rest, m = header ++ NL :: rest.
Proof.
  induction 1 as [|m r l ts _ [-> | [rest ->]]].
  - now left.
  - right. eexists. reflexivity.
  - right. exists (rest ++ entry_line r l ts).
    now rewrite <- app_assoc.
Qed.

Lemma read_header_blank (f : fs) (rest : str) :
  f masterFile = Some (header ++ NL :: rest) ->
  readlines f masterFile
  = Returned (header :: [NL] :: lines_keepends (universal_newlines rest)).
Proof.
  intros Hf. unfold readlines, read_text. rewrite Hf. reflexivity.
Qed.

(** [deregisterFile] stops with [IndexError] at the empty second line,
    whatever follows it, unless the name typed is the header's own word
    or leaves the prompt. *)
Lemma deregister_stops_at_blank (f : fs) (rest name : str) :
  f masterFile = Some (header ++ NL :: rest) ->
  name <> py "[FILES]" -> name <> py "exit" -> name <> py "back" ->
  deregisterFile name f = (Raised IndexError, f).
Proof.
  intros Hf Hh He Hb. unfold deregisterFile.
  rewrite (eqb_str_neq He), (eqb_str_neq Hb). simpl orb. cbv iota.
  rewrite (read_header_blank _ Hf).
  assert (Hw : eqb_str (py "[FILES]") name = false)
    by (apply eqb_str_neq; congruence).
  unfold deregister_scan at 1.
  change (split_ws header) with [py "[FILES]"].
  cbv iota. rewrite Hw. reflexivity.
Qed.

End ManifestFacts.

(* ===================================================================== *)
(** * Running programs *)
(* ===================================================================== *)

Section RunFacts.

Lemma run_bind {A B} (P : provider) (p : prog A) (f : A -> prog B) :
  forall h,
  run P h (bind p f)
  = match run P h p with
    | (Returned a, t) =>
        let (o, t') := run P (h ++ t) (f a) in (o, t ++ t')
    | (Raised e, t) => (Raised e, t)
    end.
Proof.
  induction p as [a|e|q k IH]; intros h; simpl.
  - rewrite app_nil_r. now destruct (run P h (f a)).
  - reflexivity.
  - destruct (P h q) as [r|]; [|reflexivity].
    rewrite IH.
    destruct (run P (h ++ [(q, Some r)]) (k r)) as [[a|e] t];
      [|reflexivity].
    rewrite <- !app_assoc. simpl.
    now destruct (run P _ (f a)).
Qed.

Lemma run_lift {A} (P : provider) (h : trace) (o : outcome A) :
  run P h (lift o) = (o, []).
Proof. now destruct o. Qed.

(** A request through [_queryAPI] that asks for the parsed body. *)
Lemma run_queryAPI_json (P : provider) (h : trace) (self : GitHubRepo)
  (m : http_method) (name url : str) (json : json) :
  (name, m) = (py "get", GET) \/ (name, m) = (py "post", POST)
  \/ (name, m) = (py "put", PUT) \/ (name, m) = (py "patch", PATCH) ->
  run P h (_queryAPI self url json name true)
  = match P h (mk_request m url (queryHeaders self) json) with
    | Some res =>
        (match json_body res with
         | Some j => Returned (QJson j)
         | None => Raised JSONDecodeError
         end, [(mk_request m url (queryHeaders self) json, Some res)])
    | None => (Raised RequestException,
               [(mk_request m url (queryHeaders self) json, None)])
    end.
Proof.
  intros [H|[H|[H|H]]]; injection H as -> ->; unfold _queryAPI;
    simpl; (destruct (P h _) as [res|]; [|reflexivity]);
    now destruct (json_body res).
Qed.

Lemma run_getFile (P : provider) (h : trace) (self : GitHubRepo)
  (path : str) (res : response) (text : str) :
  P h (fetch_request self path) = Some res ->
  file_text res = Returned text ->
  run P h (getFile self path)
  = (Returned text, [(fetch_request self path, Some res)]).
Proof.
  intros HP Ht. unfold getFile. rewrite run_bind.
  rewrite (@run_queryAPI_json P h self GET) by auto.
  fold (fetch_request self path). rewrite HP.
  unfold file_text in Ht.
  destruct (json_body res) as [j|]; [|discriminate].
  destruct j; try discriminate Ht.
  cbv beta iota. unfold qgetitem. rewrite Ht. reflexivity.
Qed.

End RunFacts.

(* ===================================================================== *)
(** * Reading the manifest *)
(* ===================================================================== *)

Ltac list_norm :=
  repeat first [ rewrite <- app_assoc | progress cbn ]; try reflexivity.

Section ManifestReading.
Local Open Scope N_scope.

Lemma store_built_first_entry (m : str) :
  store_built m ->
  m = header
  \/ exists r l ts more, m = header ++ entry_line r l ts ++ more.
Proof.
  induction 1 as [|m r l ts _ [-> | (r0 & l0 & ts0 & more & ->)]].
  - now left.
  - right. exists r, l, ts, []. now rewrite app_nil_r.
  - right. exists r0, l0, ts0, (more ++ entry_line r l ts).
    now rewrite <- !app_assoc.
Qed.

(** After stripping, a manifest with an entry still has its empty second
    line. *)
Lemma strip_entries (r l ts more : str) :
  exists rest,
    strip (header ++ entry_line r l ts ++ more)
    = py "[FILES]" ++ NL :: NL :: rest.
Proof.
  exists (r ++ py " -" ++ rstrip (py "> " ++ l ++ py " - " ++ ts ++ more)).
  unfold strip.
  replace (header ++ entry_line r l ts ++ more)
    with ((py "[FILES]" ++ NL :: NL :: r ++ [SP])
          ++ 45 :: (py "> " ++ l ++ py " - " ++ ts ++ more))
    by (unfold header, entry_line; list_norm).
  rewrite rstrip_keep by reflexivity. list_norm.
Qed.

Lemma lines_after_strip (rest : str) :
  tl (split_on NL (py "[FILES]" ++ NL :: NL :: rest))
  = [] :: split_on NL rest.
Proof. reflexivity. Qed.

(** [readRemoteFiles] stops with [IndexError] at the empty second line of
    a manifest that has an entry. *)
Lemma readRemoteFiles_stops_at_blank (P : provider) (h : trace)
  (self : GitHubRepo) (res : response) (r l ts more : str) :
  P h (fetch_request self masterFile) = Some res ->
  file_text res = Returned (header ++ entry_line r l ts ++ more) ->
  run P h (readRemoteFiles self)
  = (Raised IndexError, [(fetch_request self masterFile, Some res)]).
Proof.
  intros HP Ht. unfold readRemoteFiles.
  rewrite run_bind, (run_getFile _ _ _ _ HP Ht).
  destruct (strip_entries r l ts more) as [rest ->].
  rewrite lines_after_strip. reflexivity.
Qed.

Lemma word_chars (w : str) :
  is_word w = true -> forallb (fun c => negb (is_space c)) w = true.
Proof. unfold is_word. intros H. now apply andb_prop in H. Qed.

Lemma forallb_app_true {A} (p : A -> bool) (a b : list A) :
  forallb p a = true -> forallb p b = true -> forallb p (a ++ b) = true.
Proof. intros Ha Hb. now rewrite forallb_app, Ha, Hb. Qed.

Lemma strip_one_entry (r l : str) :
  strip (header ++ entry_line r l [])
  = py "[FILES]" ++ NL :: NL :: entry_text r l.
Proof.
  unfold strip, entry_text.
  replace (header ++ entry_line r l [])
    with ((py "[FILES]" ++ NL :: NL :: r ++ py " -> " ++ l ++ [SP])
          ++ 45 :: [SP])
    by (unfold header, entry_line; list_norm).
  rewrite rstrip_keep by reflexivity. list_norm.
Qed.

Lemma entry_text_fields (r l : str) :
  is_word r = true -> is_word l = true ->
  split_ws (entry_text r l) = [r; py "->"; l; py "-"].
Proof.
  intros Hr Hl. unfold entry_text.
  change (py " -> " ++ l ++ py " -") with (SP :: py "-> " ++ l ++ py " -").
  rewrite split_ws_word_sp by auto.
  change (py "-> " ++ l ++ py " -") with (py "->" ++ SP :: l ++ SP :: py "-").
  rewrite (@split_ws_word_sp (py "->")) by auto.
  now rewrite split_ws_word_sp by auto.
Qed.

Lemma entry_text_strip (r l : str) :
  is_word r = true -> strip (entry_text r l) = entry_text r l.
Proof.
  intros Hr. unfold strip, entry_text.
  replace (r ++ py " -> " ++ l ++ py " -")
    with ((r ++ py " -> " ++ l ++ [SP]) ++ 45 :: [])
    by list_norm.
  rewrite rstrip_keep by reflexivity. simpl rstrip.
  apply is_word_cons in Hr as (c & t & -> & Hc & _).
  simpl. now rewrite Hc.
Qed.

Lemma entry_text_one_line (r l : str) :
  is_word r = true -> is_word l = true ->
  split_on NL (entry_text r l) = [entry_text r l].
Proof.
  intros Hr Hl. apply split_on_no_sep. unfold entry_text.
  repeat apply forallb_app_true;
    try reflexivity; apply word_no_char; auto using word_chars.
Qed.

Lemma manifest_no_cr (r l : str) :
  is_word r = true -> is_word l = true ->
  universal_newlines (header ++ entry_line r l [])
  = header ++ entry_line r l [].
Proof.
  intros Hr Hl. apply universal_newlines_id. unfold entry_line.
  change (NL :: r ++ py " -> " ++ l ++ py " - " ++ [])
    with ([NL] ++ r ++ py " -> " ++ l ++ py " - " ++ []).
  repeat apply forallb_app_true;
    try reflexivity; apply word_no_char; auto using word_chars.
Qed.

(** [readLocalFiles] skips the empty second line and reads the entry. *)
Lemma readLocalFiles_skips_blank (self : GitHubRepo) (f : fs)
  (r l c : str) :
  is_word r = true -> is_word l = true ->
  f masterFile = Some (header ++ entry_line r l []) ->
  f (resolve self l) = Some c ->
  readLocalFiles self f
  = Returned [(r, mk_fileRec (resolve self l) (universal_newlines c))].
Proof.
  intros Hr Hl Hm Hc. unfold readLocalFiles, read_text.
  change (py ".master") with masterFile. rewrite Hm.
  rewrite manifest_no_cr by assumption. cbn [obind].
  rewrite strip_one_entry, lines_after_strip.
  rewrite entry_text_one_line by assumption.
  simpl readLocalFiles_loop.
  rewrite entry_text_strip, entry_text_fields by assumption.
  assert (He : eqb_str (entry_text r l) [] = false).
  { apply is_word_cons in Hr as (x & t & -> & _). reflexivity. }
  rewrite He. unfold read_text. rewrite Hc. reflexivity.
Qed.

End ManifestReading.

(* ===================================================================== *)
(** * Registering: the empty second line *)
(* ===================================================================== *)

Section ManifestClaims.
Local Open Scope N_scope.

Lemma ends_with_newline_suffix (a b : str) :
  b <> [] -> ends_with_newline (a ++ b) = ends_with_newline b.
Proof.
  intros Hb. unfold ends_with_newline. rewrite rev_app_distr.
  destruct (rev b) as [|c t] eqn:E; [|reflexivity].
  apply (f_equal (@rev _)) in E. rewrite rev_involutive in E.
  contradiction.
Qed.

Lemma register_manifest (f : fs) (r l ts : str) :
  manifest (registerFile r l ts f)
  = Some (match manifest f with Some c => c | None => [] end
          ++ [NL] ++ r ++ py " -> " ++ l ++ py " - " ++ ts).
Proof.
  unfold manifest, registerFile, append_text, write_text.
  rewrite eqb_str_refl. now destruct (f masterFile).
Qed.

Lemma entry_end (old r l ts : str) :
  ends_with_newline (old ++ [NL] ++ r ++ py " -> " ++ l ++ py " - " ++ ts)
  = ends_with_newline ts.
Proof.
  destruct ts as [|c ts].
  - replace (old ++ [NL] ++ r ++ py " -> " ++ l ++ py " - " ++ [])
      with ((old ++ [NL] ++ r ++ py " -> " ++ l ++ py " -") ++ [SP])
      by list_norm.
    now rewrite ends_with_newline_app.
  - replace (old ++ [NL] ++ r ++ py " -> " ++ l ++ py " - " ++ c :: ts)
      with ((old ++ [NL] ++ r ++ py " -> " ++ l ++ py " - ") ++ c :: ts)
      by list_norm.
    now apply ends_with_newline_suffix.
Qed.

Lemma register_no_final_newline (f : fs) (r l ts : str) :
  option_map ends_with_newline (manifest (registerFile r l ts f))
  = Some (ends_with_newline ts).
Proof.
  rewrite register_manifest. cbn [option_map]. f_equal. apply entry_end.
Qed.

Lemma fresh_manifest : manifest fresh_fs = Some header.
Proof. reflexivity. Qed.

Lemma register_fresh_manifest (f : fs) (r l ts : str) :
  manifest f = Some header ->
  manifest (registerFile r l ts f) = Some (header ++ entry_line r l ts).
Proof. intros H. rewrite register_manifest, H. reflexivity. Qed.

(** C10. Every call to [registerFile] writes a newline character
    followed by the entry line and no final newline (the manifest then
    ends as the timestamp does, and with a space when there is none, as
    in every registration the program makes). After the first
    registration on a fresh manifest an empty line stands between the
    header and the entry. [readLocalFiles] skips that line;
    [deregisterFile] and [readRemoteFiles] stop at it with
    [IndexError]. *)
Theorem register_leaves_blank_line :
  (forall f r l ts,
      manifest (registerFile r l ts f)
      = Some (match manifest f with Some c => c | None => [] end
              ++ [NL] ++ r ++ py " -> " ++ l ++ py " - " ++ ts))
  /\ (forall f r l ts,
        option_map ends_with_newline (manifest (registerFile r l ts f))
        = Some (ends_with_newline ts))
  /\ (forall f r l,
        option_map ends_with_newline (manifest (registerFile r l [] f))
        = Some false)
  /\ (forall r l,
        readlines (registerFile r l [] fresh_fs) masterFile
        = Returned (header :: [NL]
                    :: lines_keepends
                         (universal_newlines
                            (r ++ py " -> " ++ l ++ py " - "))))
  /\ (forall self f r l c,
        manifest f = Some header ->
        is_word r = true -> is_word l = true ->
        registerFile r l [] f (resolve self l) = Some c ->
        readLocalFiles self (registerFile r l [] f)
        = Returned [(r, mk_fileRec (resolve self l)
                                   (universal_newlines c))])
  /\ (forall name r l ts,
        name <> py "[FILES]" -> name <> py "exit" -> name <> py "back" ->
        deregisterFile name (registerFile r l ts fresh_fs)
        = (Raised IndexError, registerFile r l ts fresh_fs))
  /\ (forall P h self res r l ts m,
        manifest (registerFile r l ts fresh_fs) = Some m ->
        P h (fetch_request self masterFile) = Some res ->
        file_text res = Returned m ->
        run P h (readRemoteFiles self)
        = (Raised IndexError, [(fetch_request self masterFile, Some res)])).
Proof.
  split; [exact register_manifest|].
  split; [exact register_no_final_newline|].
  split; [intros f r l; apply (register_no_final_newline f r l [])|].
  split.
  { intros r l.
    rewrite (@read_header_blank _ (r ++ py " -> " ++ l ++ py " - ")).
    - reflexivity.
    - apply register_fresh_manifest, fresh_manifest. }
  split.
  { intros self f r l c Hm Hr Hl Hc.
    apply readLocalFiles_skips_blank; try assumption.
    now apply register_fresh_manifest. }
  split.
  { intros name r l ts Hh He Hb.
    apply deregister_stops_at_blank
      with (rest := r ++ py " -> " ++ l ++ py " - " ++ ts);
      try assumption.
    apply register_fresh_manifest, fresh_manifest. }
  intros P h self res r l ts m Hm HP Ht.
  rewrite (@register_fresh_manifest fresh_fs r l ts fresh_manifest) in Hm.
  injection Hm as <-.
  apply readRemoteFiles_stops_at_blank with (r := r) (l := l) (ts := ts)
                                            (more := []); [assumption|].
  now rewrite app_nil_r.
Qed.

(** The manifest served by the remote in the example below: the fresh
    manifest after [notes.txt -> ~/notes.txt] was registered. *)
Lemma register_leaves_blank_line_example :
  let f := write_text fresh_fs (py "/home/alice/notes.txt") (py "hello") in
  let served :=
    mk_response 200
      (Some (JDict [(py "content",
                     JStr (py "W0ZJTEVTXQoKbm90ZXMudHh0IC0+IH4vbm90ZXMudHh0IC0g"))])) in
  readLocalFiles alice (registerFile (py "notes.txt") (py "~/notes.txt") [] f)
  = Returned [(py "notes.txt",
               mk_fileRec (py "/home/alice/notes.txt") (py "hello"))]
  /\ deregisterFile (py "notes.txt")
       (registerFile (py "notes.txt") (py "~/notes.txt") [] fresh_fs)
     = (Raised IndexError,
        registerFile (py "notes.txt") (py "~/notes.txt") [] fresh_fs)
  /\ run (replay [Some served]) [] (readRemoteFiles alice)
     = (Raised IndexError,
        [(fetch_request alice masterFile, Some served)]).
Proof.
  destruct register_leaves_blank_line as (_ & _ & _ & _ & H4 & H5 & H6).
  split; [|split].
  - apply (H4 alice _ (py "notes.txt") (py "~/notes.txt") (py "hello"));
      reflexivity.
  - apply H5; discriminate.
  - apply (H6 _ _ alice _ (py "notes.txt") (py "~/notes.txt") []
              (header ++ entry_line (py "notes.txt") (py "~/notes.txt") []));
      reflexivity.
Defined.

End ManifestClaims.

(* ===================================================================== *)
(** * Deregistering and resolving *)
(* ===================================================================== *)

Section DeregisterClaims.
Local Open Scope N_scope.

Lemma lines_keepends_concat (s : str) :
  List.concat (lines_keepends s) = s.
Proof.
  induction s as [|c t IH]; [reflexivity|].
  simpl. destruct (c =? NL); [simpl; now rewrite IH|].
  destruct (lines_keepends t) as [|w ws]; simpl in *; now rewrite <- IH.
Qed.

(** C3 (the code is at fault). [deregisterFile] matches the header line
    like any entry: on every manifest that begins with the header, typing
    the header's own word [[FILES]] removes that first line and reports
    success; what is left is the rest of the manifest. *)
Theorem deregister_removes_header (f : fs) (rest : str) :
  manifest f = Some (header ++ rest) ->
  deregisterFile (py "[FILES]") f
  = (Returned [py "Successfully deregistered file!"],
     write_text f masterFile (universal_newlines rest)).
Proof.
  intros Hf. unfold deregisterFile, readlines, read_text.
  change (eqb_str (py "[FILES]") (py "exit")
          || eqb_str (py "[FILES]") (py "back")) with false.
  cbv iota. unfold manifest in Hf. rewrite Hf.
  rewrite universal_newlines_app by reflexivity.
  unfold omap, obind.
  change (header ++ universal_newlines rest)
    with (py "[FILES]" ++ NL :: universal_newlines rest).
  rewrite lines_keepends_app by reflexivity.
  unfold deregister_scan.
  change (split_ws (py "[FILES]" ++ [NL])) with [py "[FILES]"].
  cbv iota. rewrite eqb_str_refl.
  now rewrite lines_keepends_concat.
Qed.

Lemma deregister_removes_header_example :
  first_line fresh_fs = Some header
  /\ fst (deregisterFile (py "[FILES]") fresh_fs)
     = Returned [py "Successfully deregistered file!"]
  /\ manifest (snd (deregisterFile (py "[FILES]") fresh_fs)) = Some []
  /\ first_line (snd (deregisterFile (py "[FILES]") fresh_fs)) = None
  /\ first_line abc_fs = Some header
  /\ manifest (snd (deregisterFile (py "[FILES]") abc_fs))
     = Some (entry_line (py "a") (py "/tmp/a") []
             ++ entry_line (py "b") (py "/tmp/b") []
             ++ entry_line (py "c") (py "/tmp/c") [])
  /\ first_line (snd (deregisterFile (py "[FILES]") abc_fs)) = Some [NL].
Proof.
  rewrite (@deregister_removes_header fresh_fs [] eq_refl).
  rewrite (@deregister_removes_header abc_fs
             (entry_line (py "a") (py "/tmp/a") []
              ++ entry_line (py "b") (py "/tmp/b") []
              ++ entry_line (py "c") (py "/tmp/c") []) eq_refl).
  repeat split.
Defined.

(** C4 (the code is at fault). On every manifest the store built with at
    least one registration, [deregisterFile] raises [IndexError] at the
    empty second line and leaves the file as it was, whatever name is
    typed other than the header's word (and [exit] and [back], which
    leave the prompt): no entry can be removed. *)
Theorem deregister_raises_after_register (m name : str) (f : fs) :
  store_built m -> m <> header -> manifest f = Some m ->
  name <> py "[FILES]" -> name <> py "exit" -> name <> py "back" ->
  deregisterFile name f = (Raised IndexError, f).
Proof.
  intros Hb Hm Hf Hh He Hk.
  destruct (store_built_shape Hb) as [->|[rest ->]]; [contradiction|].
  now apply deregister_stops_at_blank with (rest := rest).
Qed.

Lemma deregister_raises_after_register_example :
  let f := registerFile (py "a") (py "/tmp/a") [] fresh_fs in
  deregisterFile (py "a") f = (Raised IndexError, f).
Proof.
  intros f.
  apply (@deregister_raises_after_register
           (header ++ entry_line (py "a") (py "/tmp/a") []) (py "a") f).
  - apply built_register, built_header.
  - discriminate.
  - reflexivity.
  - discriminate.
  - discriminate.
  - discriminate.
Defined.

(** C5 (the code is at fault). After [a], [b] and [c] were registered on
    a fresh manifest, deregistering [b] raises [IndexError] and changes
    nothing; the listing then prints an empty line and the three
    entries, [b] included. *)
Theorem deregister_b_keeps_b :
  deregisterFile (py "b") abc_fs = (Raised IndexError, abc_fs)
  /\ displayRegisteredFiles (snd (deregisterFile (py "b") abc_fs))
     = Returned [py "Remote Name" ++ [9] ++ py "Local Path";
                 [];
                 py "a -> /tmp/a -";
                 py "b -> /tmp/b -";
                 py "c -> /tmp/c -"].
Proof. split; reflexivity. Qed.

End DeregisterClaims.

Section ResolveClaims.
Local Open Scope N_scope.

Lemma replace_char_app (old : char) (new a b : str) :
  replace_char old new (a ++ b)
  = replace_char old new a ++ replace_char old new b.
Proof.
  induction a as [|c a IH]; simpl; [reflexivity|].
  destruct (c =? old); rewrite IH; [now rewrite app_assoc|reflexivity].
Qed.

Lemma replace_char_absent (old : char) (new s : str) :
  forallb (fun c => negb (c =? old)) s = true ->
  replace_char old new s = s.
Proof.
  induction s as [|c s IH]; simpl; [reflexivity|].
  intros H. apply andb_prop in H as [Hc Hs].
  apply negb_true_iff in Hc. now rewrite Hc, IH.
Qed.

(** C9, as the code has it. Path resolution replaces every [~] of the
    path by the home directory, wherever it stands: a leading one, and
    one in the middle as well. Every other character is kept, so a path
    without [~] is unchanged, and a path with a leading [~] and no other
    becomes the home directory followed by the rest. *)
Theorem resolve_replaces_every_tilde (self : GitHubRepo) :
  (forall a b, resolve self (a ++ TILDE :: b)
               = resolve self a ++ homeDir self ++ resolve self b)
  /\ (forall p, forallb (fun c => negb (c =? TILDE)) p = true ->
                resolve self p = p)
  /\ (forall p, forallb (fun c => negb (c =? TILDE)) p = true ->
                resolve self (TILDE :: p) = homeDir self ++ p).
Proof.
  unfold resolve. repeat split.
  - intros a b. rewrite replace_char_app. simpl. reflexivity.
  - intros p Hp. now apply replace_char_absent.
  - intros p Hp. simpl. now rewrite replace_char_absent.
Qed.

Lemma resolve_replaces_every_tilde_example :
  resolve alice (py "/tmp/a" ++ TILDE :: py "b")
  = py "/tmp/a" ++ py "/home/alice" ++ py "b"
  /\ resolve alice (py "/tmp/ab") = py "/tmp/ab"
  /\ resolve alice (TILDE :: py "/notes.txt") = py "/home/alice/notes.txt".
Proof.
  destruct (resolve_replaces_every_tilde alice) as (H1 & H2 & H3).
  split; [|split].
  - apply H1.
  - apply H2. reflexivity.
  - apply (H3 (py "/notes.txt")). reflexivity.
Defined.

(** A [~] in the middle of a path is rewritten: [/tmp/a~b] resolves to
    [/tmp/a/home/aliceb], both by itself and as the local path of a
    registered file. *)
Lemma resolve_rewrites_inner_tilde :
  resolve alice (py "/tmp/a~b") = py "/tmp/a/home/aliceb"
  /\ resolve alice (py "/tmp/a~b") <> py "/tmp/a~b"
  /\ readLocalFiles alice
       (write_text (registerFile (py "x") (py "/tmp/a~b") [] fresh_fs)
                   (py "/tmp/a/home/aliceb") (py "data"))
     = Returned [(py "x", mk_fileRec (py "/tmp/a/home/aliceb") (py "data"))].
Proof. repeat split. discriminate. Qed.

End ResolveClaims.

(* ===================================================================== *)
(** * Requests through _queryAPI *)
(* ===================================================================== *)

Section QueryClaims.

Lemma run_queryAPI (P : provider) (h : trace) (self : GitHubRepo)
  (name url : str) (json : json) (wantJson : bool) (m : http_method) :
  method_named name = Some m ->
  run P h (_queryAPI self url json name wantJson)
  = match P h (mk_request m url (queryHeaders self) json) with
    | Some res =>
        (if wantJson
         then match json_body res with
              | Some j => Returned (QJson j)
              | None => Raised JSONDecodeError
              end
         else Returned (QResponse res),
         [(mk_request m url (queryHeaders self) json, Some res)])
    | None => (Raised RequestException,
               [(mk_request m url (queryHeaders self) json, None)])
    end.
Proof.
  unfold method_named, _queryAPI. intros Hm.
  destruct (eqb_str name (py "get"));
    [|destruct (eqb_str name (py "post"));
      [|destruct (eqb_str name (py "put"));
        [|destruct (eqb_str name (py "patch")); [|discriminate]]]];
    injection Hm as <-; simpl;
    (destruct (P h _) as [res|]; [|reflexivity]);
    destruct wantJson; simpl; try reflexivity;
    now destruct (json_body res).
Qed.

Lemma run_queryAPI_unknown (P : provider) (h : trace) (self : GitHubRepo)
  (name url : str) (json : json) (wantJson : bool) :
  method_named name = None ->
  run P h (_queryAPI self url json name wantJson)
  = (Raised (Exception (name ++ py " is not an implemented request method")),
     []).
Proof.
  unfold method_named, _queryAPI. intros Hm.
  destruct (eqb_str name (py "get")); [discriminate|].
  destruct (eqb_str name (py "post")); [discriminate|].
  destruct (eqb_str name (py "put")); [discriminate|].
  destruct (eqb_str name (py "patch")); [discriminate|].
  reflexivity.
Qed.

Lemma run_updateBranchReference (P : provider) (h : trace)
  (self : GitHubRepo) (commitSha : json) (force : bool) :
  run P h (_updateBranchReference self commitSha force)
  = match P h (ref_update self commitSha force) with
    | Some res =>
        (match json_body res with
         | Some _ => Returned tt
         | None => Raised JSONDecodeError
         end, [(ref_update self commitSha force, Some res)])
    | None => (Raised RequestException,
               [(ref_update self commitSha force, None)])
    end.
Proof.
  unfold _updateBranchReference. rewrite run_bind.
  rewrite (@run_queryAPI P h self _ _ _ true PATCH) by reflexivity.
  fold (ref_update self commitSha force).
  destruct (P h _) as [res|]; [|reflexivity].
  now destruct (json_body res).
Qed.

Lemma run_getPreviousCommit (P : provider) (h : trace) (self : GitHubRepo) :
  run P h (_getPreviousCommit self)
  = match P h (ref_read self) with
    | Some res =>
        (if (status_code res =? 409)%Z then Returned JNull
         else field [py "object"; py "sha"] res,
         [(ref_read self, Some res)])
    | None => (Raised RequestException, [(ref_read self, None)])
    end.
Proof.
  unfold _getPreviousCommit. rewrite run_bind.
  rewrite (@run_queryAPI P h self _ _ _ false GET) by reflexivity.
  fold (ref_read self).
  destruct (P h _) as [res|]; [|reflexivity].
  cbv beta iota. destruct (status_code res =? 409)%Z; [reflexivity|].
  unfold field. destruct (json_body res) as [j|]; [|reflexivity].
  rewrite run_lift. unfold getpath.
  destruct (getitem j (py "object")) as [o|e]; [|reflexivity].
  cbn [obind]. now destruct (getitem o (py "sha")).
Qed.

(** C1 (the code is at fault). [_queryAPI] never looks at the status
    code, its check being commented out: for each of its four methods it
    returns the response itself, or its parsed JSON body, whatever the
    status; it raises only when the body is not JSON, when no response
    is obtained, or for another method name. So the reference update
    returns normally on every status with a JSON body, and the head read
    turns status 409 into [None]. *)
Theorem queryAPI_ignores_status (P : provider) (h : trace)
  (self : GitHubRepo) :
  (forall name m url json wantJson res,
      method_named name = Some m ->
      P h (mk_request m url (queryHeaders self) json) = Some res ->
      run P h (_queryAPI self url json name wantJson)
      = (if wantJson
         then match json_body res with
              | Some j => Returned (QJson j)
              | None => Raised JSONDecodeError
              end
         else Returned (QResponse res),
         [(mk_request m url (queryHeaders self) json, Some res)]))
  /\ (forall name m url json wantJson,
        method_named name = Some m ->
        P h (mk_request m url (queryHeaders self) json) = None ->
        run P h (_queryAPI self url json name wantJson)
        = (Raised RequestException,
           [(mk_request m url (queryHeaders self) json, None)]))
  /\ (forall name url json wantJson,
        method_named name = None ->
        run P h (_queryAPI self url json name wantJson)
        = (Raised (Exception
                     (name ++ py " is not an implemented request method")),
           []))
  /\ (forall commitSha force res j,
        P h (ref_update self commitSha force) = Some res ->
        json_body res = Some j ->
        run P h (_updateBranchReference self commitSha force)
        = (Returned tt, [(ref_update self commitSha force, Some res)]))
  /\ (forall res,
        P h (ref_read self) = Some res ->
        status_code res = 409%Z ->
        run P h (_getPreviousCommit self)
        = (Returned JNull, [(ref_read self, Some res)])).
Proof.
  repeat split.
  - intros name m url json wantJson res Hm HP.
    now rewrite (@run_queryAPI P h self name url json wantJson m Hm), HP.
  - intros name m url json wantJson Hm HP.
    now rewrite (@run_queryAPI P h self name url json wantJson m Hm), HP.
  - intros. now apply run_queryAPI_unknown.
  - intros commitSha force res j HP Hj.
    now rewrite run_updateBranchReference, HP, Hj.
  - intros res HP Hs.
    now rewrite run_getPreviousCommit, HP, Hs.
Qed.

Lemma queryAPI_ignores_status_example :
  let rejected :=
    mk_response 422
      (Some (JDict [(py "message", JStr (py "Update is not a fast forward"))])) in
  let empty := mk_response 409 (Some (JDict [])) in
  run (replay [Some rejected]) []
      (_queryAPI alice (refURL alice) (JDict []) (py "patch") false)
  = (Returned (QResponse rejected),
     [(mk_request PATCH (refURL alice) (queryHeaders alice) (JDict []),
       Some rejected)])
  /\ run (replay [Some rejected]) []
         (_queryAPI alice (refURL alice) (JDict []) (py "delete") true)
     = (Raised (Exception (py "delete is not an implemented request method")),
        [])
  /\ run (replay [Some rejected]) []
         (_updateBranchReference alice (JStr (py "c0ffee")) false)
     = (Returned tt,
        [(ref_update alice (JStr (py "c0ffee")) false, Some rejected)])
  /\ run (replay [Some empty]) [] (_getPreviousCommit alice)
     = (Returned JNull, [(ref_read alice, Some empty)]).
Proof.
  intros rejected empty.
  split; [|split; [|split]].
  - apply (proj1 (queryAPI_ignores_status (replay [Some rejected]) []
                    alice) (py "patch") PATCH (refURL alice) (JDict [])
                 false rejected); reflexivity.
  - apply (proj1 (proj2 (proj2 (queryAPI_ignores_status
                                  (replay [Some rejected]) [] alice)))
                 (py "delete") (refURL alice) (JDict []) true); reflexivity.
  - apply (proj1 (proj2 (proj2 (proj2 (queryAPI_ignores_status
                                         (replay [Some rejected]) []
                                         alice)))))
      with (j := JDict [(py "message",
                         JStr (py "Update is not a fast forward"))]);
      reflexivity.
  - apply (proj2 (proj2 (proj2 (proj2 (queryAPI_ignores_status
                                         (replay [Some empty]) [] alice)))));
      reflexivity.
Defined.

(** On a non-success status the reference update returns a value, and
    the operations that do raise do so for the field they miss in the
    error object. An upload whose reference update is refused at the end
    returns normally all the same. *)
Lemma nonsuccess_status_not_raised :
  let rejected :=
    mk_response 422
      (Some (JDict [(py "message", JStr (py "Update is not a fast forward"))])) in
  let missing :=
    mk_response 404 (Some (JDict [(py "message", JStr (py "Not Found"))])) in
  let denied :=
    mk_response 401
      (Some (JDict [(py "message", JStr (py "Bad credentials"))])) in
  is_success 422 = false /\ is_success 404 = false /\ is_success 401 = false
  /\ fst (run (replay [Some rejected]) []
              (_updateBranchReference alice (JStr (py "c0ffee")) false))
     = Returned tt
  /\ fst (run (replay [Some missing]) [] (getFile alice (py "notes.txt")))
     = Raised (KeyError (py "content"))
  /\ fst (run (replay [Some denied]) [] (_createNewBlob alice (py "hello")))
     = Raised (KeyError (py "sha"))
  /\ fst (run (replay (map (@Some _)
                         [sha_answer 201 "b1"; ref_answer "c0";
                          commit_answer "c0" (py "t0"); sha_answer 200 "t0";
                          sha_answer 201 "t1"; sha_answer 201 "c1";
                          rejected]))
              [] (writeRemoteFiles render0 alice notes_files))
     = Returned tt.
Proof. repeat split. Qed.

End QueryClaims.

Section GetFileClaims.

(** C8, as the code has it. [getFile] sends one request, a [GET] to the
    contents endpoint of the path on the branch [main], with the two
    headers of the instance. When the answer is a JSON array, the listing
    of a directory, it raises its directory error
    [Exception("<path> is a directory!")] and no other. When the answer
    is a single file object, it decodes the [content] field from base64
    and reads the bytes as UTF-8: it returns the text when the bytes are
    UTF-8, and raises the decoder's exception when they are not, the
    base64 decoder's when the field is no base64, [KeyError] when the
    object has no [content]. *)
Theorem getFile_directory_or_content (P : provider) (h : trace)
  (self : GitHubRepo) (path : str) (res : response) :
  let q :=
    mk_request GET
      (py "https://api.github.com/repos/" ++ username self ++ py "/"
       ++ repoName self ++ py "/contents/" ++ path ++ py "?ref=main")
      [(py "Accept", py "application/vnd.github+json");
       (py "Authorization", py "token " ++ accessToken self)]
      (JDict []) in
  P h q = Some res ->
  (forall items,
      json_body res = Some (JList items) ->
      run P h (getFile self path)
      = (Raised (Exception (path ++ py " is a directory!")),
         [(q, Some res)]))
  /\ (forall fields c bs text,
        json_body res = Some (JDict fields) ->
        lookup (py "content") fields = Some (JStr c) ->
        Codec.b64decode c = Returned bs ->
        Codec.decode bs = Returned text ->
        run P h (getFile self path) = (Returned text, [(q, Some res)]))
  /\ (forall fields c bs e,
        json_body res = Some (JDict fields) ->
        lookup (py "content") fields = Some (JStr c) ->
        Codec.b64decode c = Returned bs ->
        Codec.decode bs = Raised e ->
        run P h (getFile self path) = (Raised e, [(q, Some res)]))
  /\ (forall fields c e,
        json_body res = Some (JDict fields) ->
        lookup (py "content") fields = Some (JStr c) ->
        Codec.b64decode c = Raised e ->
        run P h (getFile self path) = (Raised e, [(q, Some res)]))
  /\ (forall fields,
        json_body res = Some (JDict fields) ->
        lookup (py "content") fields = None ->
        run P h (getFile self path)
        = (Raised (KeyError (py "content")), [(q, Some res)])).
Proof.
  intros q HP.
  assert (Hrun : run P h (getFile self path)
                 = (match json_body res with
                    | Some (JList _) =>
                        Raised (Exception (path ++ py " is a directory!"))
                    | Some j => c <~ getitem j (py "content") ;;
                                b64decode_text c
                    | None => Raised JSONDecodeError
                    end, [(q, Some res)])).
  { unfold getFile. rewrite run_bind.
    rewrite (@run_queryAPI_json P h self GET) by auto.
    change (mk_request GET (contentsURL self path) (queryHeaders self)
                       (JDict [])) with q.
    rewrite HP. destruct (json_body res) as [j|]; [|reflexivity].
    destruct j; cbv beta iota; try reflexivity;
      rewrite run_lift; reflexivity. }
  rewrite Hrun. repeat split.
  - intros items ->. reflexivity.
  - intros fields c bs text -> Hc Hb Hd. cbn [getitem]. rewrite Hc.
    cbn [obind b64decode_text]. rewrite Hb. cbn [obind]. now rewrite Hd.
  - intros fields c bs e -> Hc Hb Hd. cbn [getitem]. rewrite Hc.
    cbn [obind b64decode_text]. rewrite Hb. cbn [obind]. now rewrite Hd.
  - intros fields c e -> Hc Hb. cbn [getitem]. rewrite Hc.
    cbn [obind b64decode_text]. now rewrite Hb.
  - intros fields -> Hc. cbn [getitem]. now rewrite Hc.
Qed.

Lemma getFile_directory_or_content_example :
  let listing :=
    mk_response 200
      (Some (JList [JDict [(py "path", JStr (py "docs/a.txt"));
                           (py "type", JStr (py "file"))]])) in
  let single :=
    mk_response 200
      (Some (JDict [(py "path", JStr (py "notes.txt"));
                    (py "encoding", JStr (py "base64"));
                    (py "content", JStr (py "aGVsbG8="))])) in
  let ask (path : str) :=
    mk_request GET
      (py "https://api.github.com/repos/alice/backup/contents/" ++ path
       ++ py "?ref=main")
      [(py "Accept", py "application/vnd.github+json");
       (py "Authorization", py "token token")]
      (JDict []) in
  run (replay [Some listing]) [] (getFile alice (py "docs"))
  = (Raised (Exception (py "docs is a directory!")),
     [(ask (py "docs"), Some listing)])
  /\ run (replay [Some single]) [] (getFile alice (py "notes.txt"))
     = (Returned (py "hello"), [(ask (py "notes.txt"), Some single)]).
Proof.
  intros listing single ask. split.
  - refine (proj1 (@getFile_directory_or_content (replay [Some listing]) []
                     alice (py "docs") listing eq_refl) _ eq_refl).
  - refine (proj1 (proj2 (@getFile_directory_or_content
                            (replay [Some single]) []
                            alice (py "notes.txt") single eq_refl))
              _ (py "aGVsbG8=") (py "hello") (py "hello")
              eq_refl eq_refl eq_refl eq_refl).
Defined.

(** A single file whose bytes are not UTF-8 text: the contents endpoint
    serves its content, the byte [0xFF], in base64; [getFile] does not
    return the decoded content but raises [UnicodeDecodeError]. *)
Lemma getFile_binary_file_raises :
  let single :=
    mk_response 200
      (Some (JDict [(py "path", JStr (py "photo.bin"));
                    (py "type", JStr (py "file"));
                    (py "encoding", JStr (py "base64"));
                    (py "content", JStr (py "/w=="))])) in
  Codec.b64decode (py "/w==") = Returned [255%N]
  /\ fst (run (replay [Some single]) [] (getFile alice (py "photo.bin")))
     = Raised UnicodeDecodeError
  /\ (forall content,
        fst (run (replay [Some single]) [] (getFile alice (py "photo.bin")))
        <> Returned content).
Proof.
  intros single. split; [reflexivity|]. split; [reflexivity|].
  intros content. vm_compute. discriminate.
Qed.

End GetFileClaims.

(* ===================================================================== *)
(** * Traces *)
(* ===================================================================== *)

Section TraceFacts.

Lemma calls_only_run {A} (ok : request -> bool) (p : prog A) :
  calls_only ok p ->
  forall P h, forallb (fun ev : event => ok (fst ev)) (snd (run P h p)) = true.
Proof.
  induction p as [a|e|q k IH]; intros Hp P h; simpl; try reflexivity.
  destruct Hp as [Hq Hk].
  destruct (P h q) as [r|]; simpl.
  - specialize (IH r (Hk r) P (h ++ [(q, Some r)])).
    destruct (run P (h ++ [(q, Some r)]) (k r)) as [o t].
    simpl in *. now rewrite Hq, IH.
  - now rewrite Hq.
Qed.

Lemma calls_only_bind {A B} (ok : request -> bool) (p : prog A)
  (f : A -> prog B) :
  calls_only ok p -> (forall a, calls_only ok (f a)) ->
  calls_only ok (bind p f).
Proof.
  induction p as [a|e|q k IH]; simpl; intros Hp Hf; auto.
  destruct Hp as [Hq Hk]. split; auto.
Qed.

Lemma calls_only_lift {A} (ok : request -> bool) (o : outcome A) :
  calls_only ok (lift o).
Proof. now destruct o. Qed.

Lemma calls_only_queryAPI (ok : request -> bool) (self : GitHubRepo)
  (name url : str) (json : json) (wantJson : bool) :
  (forall m, method_named name = Some m ->
             ok (mk_request m url (queryHeaders self) json) = true) ->
  calls_only ok (_queryAPI self url json name wantJson).
Proof.
  unfold method_named, _queryAPI. intros H.
  destruct (eqb_str name (py "get"));
    [|destruct (eqb_str name (py "post"));
      [|destruct (eqb_str name (py "put"));
        [|destruct (eqb_str name (py "patch")); [|exact I]]]];
    (split; [now apply H|]); intros r; simpl;
    destruct wantJson; simpl; try exact I; now destruct (json_body r).
Qed.

Ltac harmless_calls :=
  repeat first
    [ apply calls_only_lift
    | apply calls_only_queryAPI;
      let m := fresh in let H := fresh in
      intros m H; injection H as <-;
      unfold reads_or_creates; cbn [method url];
      rewrite ?eqb_str_refl, ?orb_true_r; reflexivity
    | apply calls_only_bind; [|intro] ].

Lemma createNewBlob_harmless (self : GitHubRepo) (content : str) :
  calls_only (reads_or_creates self) (_createNewBlob self content).
Proof. unfold _createNewBlob. harmless_calls. Qed.

Lemma blobs_harmless (self : GitHubRepo) (files : registeredFiles) :
  forall acc,
  calls_only (reads_or_creates self) (writeRemoteFiles_blobs self files acc).
Proof.
  induction files as [|[name file] rest IH]; intros acc; simpl.
  - exact I.
  - apply calls_only_bind; [apply createNewBlob_harmless|].
    intros sha. apply IH.
Qed.

Lemma getBranchTree_harmless render (self : GitHubRepo) (prev : json) :
  calls_only (reads_or_creates self) (_getBranchTree render self prev).
Proof. unfold _getBranchTree. harmless_calls. Qed.

Lemma updateTree_harmless (self : GitHubRepo) (t : json) (bs : list json) :
  calls_only (reads_or_creates self) (_updateTree self t bs).
Proof. unfold _updateTree. harmless_calls. Qed.

Lemma commitTree_harmless (self : GitHubRepo) (t prev : json) (msg : str) :
  calls_only (reads_or_creates self) (_commitTree self t prev msg).
Proof. unfold _commitTree. harmless_calls. Qed.

Lemma removelast_harmless (self : GitHubRepo) (t : trace) :
  forallb (harmless self) t = true -> forallb (harmless self) (removelast t) = true.
Proof.
  induction t as [|ev t IH]; [reflexivity|].
  intros H. simpl in H. apply andb_prop in H as [Hev Ht].
  destruct t as [|ev' t']; [reflexivity|].
  change (removelast (ev :: ev' :: t')) with (ev :: removelast (ev' :: t')).
  cbn [forallb]. now rewrite Hev, IH.
Qed.

Lemma removelast_harmless_app (self : GitHubRepo) (t1 t2 : trace) :
  forallb (harmless self) t1 = true ->
  forallb (harmless self) (removelast t2) = true ->
  forallb (harmless self) (removelast (t1 ++ t2)) = true.
Proof.
  intros H1 H2. destruct t2 as [|ev t2].
  - rewrite app_nil_r. now apply removelast_harmless.
  - rewrite removelast_app by discriminate.
    now rewrite forallb_app, H1, H2.
Qed.

Lemma last_event_app (t1 : trace) (ev : event) :
  last_event (t1 ++ [ev]) = Some ev.
Proof.
  unfold last_event. rewrite map_app. simpl. apply last_last.
Qed.

End TraceFacts.

(* ===================================================================== *)
(** * The reference update comes last *)
(* ===================================================================== *)

Section UploadOrder.

Variable render : json -> str.
Variable self : GitHubRepo.

Lemma moves_last_raised (e : exn) (t : trace) :
  forallb (harmless self) t = true -> moves_last self (Raised e) t.
Proof.
  intros H. split; [now apply removelast_harmless|].
  split; [discriminate|]. intros _ _. now left.
Qed.

Lemma moves_last_prefix (t1 t2 : trace) (out : outcome unit) :
  forallb (harmless self) t1 = true ->
  moves_last self out t2 -> moves_last self out (t1 ++ t2).
Proof.
  intros H1 (Ha & Hb & Hc). split; [now apply removelast_harmless_app|].
  split.
  - intros Ho. destruct (Hb Ho) as (init & c & res & ->).
    exists (t1 ++ init), c, res. now rewrite app_assoc.
  - intros e Ho. destruct (Hc e Ho) as [Hh | (init & c & r & ->)].
    + left. now rewrite forallb_app, H1, Hh.
    + right. exists (t1 ++ init), c, r. now rewrite app_assoc.
Qed.

Lemma moves_last_bind {A} (P : provider) (p : prog A) (f : A -> prog unit)
  (h : trace) :
  calls_only (reads_or_creates self) p ->
  (forall a h', moves_last self (fst (run P h' (f a)))
                           (snd (run P h' (f a)))) ->
  moves_last self (fst (run P h (bind p f))) (snd (run P h (bind p f))).
Proof.
  intros Hp Hf. rewrite run_bind.
  pose proof (@calls_only_run _ _ _ Hp P h) as Ht.
  destruct (run P h p) as [[a|e] t]; simpl in Ht;
    change (forallb (harmless self) t = true) in Ht.
  - specialize (Hf a (h ++ t)).
    destruct (run P (h ++ t) (f a)) as [o t']. simpl in *.
    now apply moves_last_prefix.
  - simpl. now apply moves_last_raised.
Qed.

Lemma updateBranchReference_moves_last (P : provider) (h : trace)
  (commitSha : json) :
  moves_last self (fst (run P h (_updateBranchReference self commitSha false)))
             (snd (run P h (_updateBranchReference self commitSha false))).
Proof.
  rewrite run_updateBranchReference.
  destruct (P h _) as [res|]; simpl.
  - split; [reflexivity|]. split.
    + intros _. now exists [], commitSha, res.
    + intros e _. right. now exists [], commitSha, (Some res).
  - split; [reflexivity|]. split; [discriminate|].
    intros e _. right. now exists [], commitSha, None.
Qed.

Lemma upload_onto_moves_last (P : provider) (h : trace) (prev : json)
  (blobs : list json) :
  moves_last self (fst (run P h (upload_onto render self prev blobs)))
             (snd (run P h (upload_onto render self prev blobs))).
Proof.
  unfold upload_onto.
  apply moves_last_bind; [apply getBranchTree_harmless|]. intros cur h1.
  apply moves_last_bind; [apply updateTree_harmless|]. intros nt h2.
  apply moves_last_bind; [apply commitTree_harmless|]. intros nc h3.
  apply updateBranchReference_moves_last.
Qed.

Lemma ref_read_is_ref_read : is_ref_read self (ref_read self) = true.
Proof. unfold is_ref_read, ref_read. simpl. apply eqb_str_refl. Qed.

Section BranchState.

(** The remote, as far as the claim goes: its states, what one exchange
    makes of a state, and the branch of a state (where the reference
    points and what hangs on it). The provider is no part of the
    program; all that is assumed of it is that reading, and creating a
    blob, a tree or a commit, leave the branch as it is. *)
Variable remote : Type.
Variable branch_state : Type.
Variable exchange : remote -> event -> remote.
Variable branch_of : remote -> branch_state.
Hypothesis objects_keep_branch :
  forall s ev, harmless self ev = true ->
               branch_of (exchange s ev) = branch_of s.

Lemma harmless_keeps_branch (t : trace) (s : remote) :
  forallb (harmless self) t = true ->
  branch_of (fold_left exchange t s) = branch_of s.
Proof.
  revert s. induction t as [|ev t IH]; intros s H; [reflexivity|].
  cbn [forallb] in H. apply andb_prop in H as [Hev Ht].
  cbn [fold_left]. now rewrite IH, objects_keep_branch.
Qed.

(** C7, as the code has it. When the head read finds a head (its answer
    is not status 409 and not a null sha), an upload sends the reference
    update as its last request and nothing before it that could move the
    branch: every earlier request is a [GET], or a [POST] to [git/blobs],
    [git/trees] or [git/commits] of the repository. So before the last
    exchange the branch of the remote is as it was before the run; and
    if a step before the reference update fails, it is so at the end of
    the run: the reference still points at its prior head. *)
Theorem reference_update_comes_last (files : registeredFiles)
  (P : provider) (h : trace) (out : outcome unit) (tr : trace)
  (s : remote) :
  run P h (writeRemoteFiles render self files) = (out, tr) ->
  forallb (fun ev => negb (finds_no_head self ev)) tr = true ->
  forallb (harmless self) (removelast tr) = true
  /\ (out = Returned tt ->
      exists init commitSha res,
        tr = init ++ [(ref_update self commitSha false, Some res)])
  /\ (forall e, out = Raised e ->
      forallb (harmless self) tr = true
      \/ exists init commitSha r,
           tr = init ++ [(ref_update self commitSha false, r)])
  /\ branch_of (fold_left exchange (removelast tr) s) = branch_of s
  /\ (forall e, out = Raised e ->
      (forall init commitSha r,
          tr <> init ++ [(ref_update self commitSha false, r)]) ->
      branch_of (fold_left exchange tr s) = branch_of s).
Proof.
  intros Hrun Hhead.
  assert (Hm : moves_last self out tr).
  { unfold writeRemoteFiles in Hrun. rewrite run_bind in Hrun.
    pose proof (@calls_only_run _ _ _ (blobs_harmless self files []) P h) as Ht1.
    destruct (run P h (writeRemoteFiles_blobs self files [])) as [[bl|e] t1];
      simpl in Ht1; change (forallb (harmless self) t1 = true) in Ht1.
    2:{ injection Hrun as <- <-. now apply moves_last_raised. }
    rewrite run_bind, run_getPreviousCommit in Hrun.
    destruct (P (h ++ t1) (ref_read self)) as [res|].
    2:{ injection Hrun as <- <-. apply moves_last_raised.
        now rewrite forallb_app, Ht1. }
    assert (Hno : no_head res = true -> False).
    { intros Hn.
      assert (In (ref_read self, Some res) tr) as Hin.
      { destruct (if (status_code res =? 409)%Z then _ else _) as [prev|e];
          [destruct (run P _ _) as [o t'] in Hrun|];
          injection Hrun as <- <-; apply in_or_app; right; now left. }
      rewrite forallb_forall in Hhead. specialize (Hhead _ Hin).
      unfold finds_no_head in Hhead. simpl in Hhead.
      now rewrite ref_read_is_ref_read, Hn in Hhead. }
    unfold no_head in Hno.
    destruct (status_code res =? 409)%Z; [now destruct Hno|].
    simpl in Hno.
    destruct (field [py "object"; py "sha"] res) as [prev|e].
    2:{ injection Hrun as <- <-. apply moves_last_raised.
        now rewrite forallb_app, Ht1. }
    assert (Hnone : is_none prev = false)
      by (destruct prev; try reflexivity; now destruct Hno).
    rewrite Hnone in Hrun. cbn [bind] in Hrun.
    pose proof (upload_onto_moves_last P ((h ++ t1) ++ [(ref_read self, Some res)])
                  prev bl) as Hup.
    unfold upload_onto in Hup.
    destruct (run P _ _) as [o t'] in Hrun, Hup.
    injection Hrun as <- <-. simpl in Hup.
    apply moves_last_prefix; [assumption|].
    now apply (moves_last_prefix [(ref_read self, Some res)]).
  }
  destruct Hm as (H1 & H2 & H3).
  split; [exact H1|]. split; [exact H2|]. split; [exact H3|].
  split; [now apply harmless_keeps_branch|].
  intros e He Hlast. apply harmless_keeps_branch.
  destruct (H3 e He) as [Hh | (init & c & r & Htr)]; [exact Hh|].
  now destruct (Hlast init c r).
Qed.

End BranchState.

End UploadOrder.

(* ===================================================================== *)
(** * The operations, one exchange at a time *)
(* ===================================================================== *)

Section Operations.

Variable render : json -> str.
Variable self : GitHubRepo.
Variable P : provider.

Lemma field_one (res : response) (k : str) (v : json) :
  carries [k] v res ->
  exists j, json_body res = Some j /\ getitem j k = Returned v.
Proof.
  unfold carries, field. intros H.
  destruct (json_body res) as [j|]; [|discriminate].
  cbn [getpath] in H.
  destruct (getitem j k) as [x|] eqn:E1; cbn [obind] in H; [|discriminate].
  exists j. now rewrite E1.
Qed.

Lemma field_two (res : response) (k1 k2 : str) (v : json) :
  carries [k1; k2] v res ->
  exists j x, json_body res = Some j /\ getitem j k1 = Returned x
              /\ getitem x k2 = Returned v.
Proof.
  unfold carries, field. intros H.
  destruct (json_body res) as [j|]; [|discriminate].
  cbn [getpath] in H.
  destruct (getitem j k1) as [x|] eqn:E1; cbn [obind] in H; [|discriminate].
  destruct (getitem x k2) as [y|] eqn:E2; cbn [obind] in H; [|discriminate].
  exists j, x. now rewrite E1, E2.
Qed.

Lemma field_three (res : response) (k1 k2 k3 : str) (v : json) :
  carries [k1; k2; k3] v res ->
  exists j x y, json_body res = Some j /\ getitem j k1 = Returned x
                /\ getitem x k2 = Returned y /\ getitem y k3 = Returned v.
Proof.
  unfold carries, field. intros H.
  destruct (json_body res) as [j|]; [|discriminate].
  cbn [getpath] in H.
  destruct (getitem j k1) as [x|] eqn:E1; cbn [obind] in H; [|discriminate].
  destruct (getitem x k2) as [y|] eqn:E2; cbn [obind] in H; [|discriminate].
  destruct (getitem y k3) as [z|] eqn:E3; cbn [obind] in H; [|discriminate].
  exists j, x, y. now rewrite E1, E2, E3.
Qed.

Lemma run_createNewBlob (h : trace) (content : str) (res : response)
  (sha : json) :
  is_encodable content = true ->
  P h (blob_create self content) = Some res ->
  carries [py "sha"] sha res ->
  run P h (_createNewBlob self content)
  = (Returned sha, [(blob_create self content, Some res)]).
Proof.
  unfold is_encodable, blob_create, encoded, _createNewBlob.
  destruct (Codec.encode content) as [bs|]; [|discriminate].
  intros _ HP Hs. apply field_one in Hs as (j & Hj & Hs).
  cbn [lift bind]. rewrite run_bind.
  rewrite (@run_queryAPI P h self (py "post") _ _ true POST eq_refl).
  rewrite HP, Hj. cbv beta iota. unfold qgetitem. now rewrite Hs.
Qed.

Lemma run_createFile (h : trace) (contents path message branch : str)
  (res : response) (sha : json) :
  is_encodable contents = true ->
  P h (file_create self contents path message branch) = Some res ->
  carries [py "content"; py "sha"] sha res ->
  run P h (_createFile self contents path message branch)
  = (Returned sha,
     [(file_create self contents path message branch, Some res)]).
Proof.
  unfold is_encodable, file_create, encoded, _createFile.
  destruct (Codec.encode contents) as [bs|]; [|discriminate].
  intros _ HP Hs. apply field_two in Hs as (j & x & Hj & Hx & Hs).
  cbn [lift bind]. rewrite run_bind.
  rewrite (@run_queryAPI P h self (py "put") _ _ true PUT eq_refl).
  rewrite HP, Hj. cbv beta iota. unfold qgetitem. rewrite Hx.
  cbn [obind]. now rewrite Hs.
Qed.

Lemma run_commitTree (h : trace) (treeSha prev : json) (message : str)
  (res : response) (sha : json) :
  P h (commit_create self treeSha prev message) = Some res ->
  carries [py "sha"] sha res ->
  run P h (_commitTree self treeSha prev message)
  = (Returned sha, [(commit_create self treeSha prev message, Some res)]).
Proof.
  unfold commit_create, _commitTree.
  intros HP Hs. apply field_one in Hs as (j & Hj & Hs).
  rewrite run_bind.
  rewrite (@run_queryAPI P h self (py "post") _ _ true POST eq_refl).
  rewrite HP, Hj. cbv beta iota. unfold qgetitem. now rewrite Hs.
Qed.

Lemma run_updateTree (h : trace) (treeSha : json) (newBlobs : list json)
  (res : response) (sha : json) :
  P h (tree_update self treeSha newBlobs) = Some res ->
  carries [py "sha"] sha res ->
  run P h (_updateTree self treeSha newBlobs)
  = (Returned sha, [(tree_update self treeSha newBlobs, Some res)]).
Proof.
  unfold tree_update, _updateTree.
  intros HP Hs. apply field_one in Hs as (j & Hj & Hs).
  rewrite run_bind.
  rewrite (@run_queryAPI P h self (py "post") _ _ true POST eq_refl).
  rewrite HP, Hj. cbv beta iota. unfold qgetitem. now rewrite Hs.
Qed.

Lemma run_getBranchTree (h : trace) (prev tree_url sha : json)
  (r_commit r_tree : response) :
  P h (commit_read render self prev) = Some r_commit ->
  carries [py "commit"; py "tree"; py "url"] tree_url r_commit ->
  P (h ++ [(commit_read render self prev, Some r_commit)])
    (tree_read render self tree_url) = Some r_tree ->
  carries [py "sha"] sha r_tree ->
  run P h (_getBranchTree render self prev)
  = (Returned sha,
     [(commit_read render self prev, Some r_commit);
      (tree_read render self tree_url, Some r_tree)]).
Proof.
  unfold commit_read, tree_read, _getBranchTree.
  intros HP1 Hu HP2 Hs.
  apply field_three in Hu as (j & x & y & Hj & Hx & Hy & Hu).
  apply field_one in Hs as (j' & Hj' & Hs).
  rewrite run_bind.
  rewrite (@run_queryAPI P h self (py "get") _ _ true GET eq_refl).
  rewrite HP1, Hj. cbv beta iota. rewrite run_bind.
  unfold qgetitem. rewrite Hx. cbn [obind]. rewrite Hy. cbn [obind].
  rewrite Hu. cbn [lift run]. rewrite app_nil_r, run_bind.
  rewrite (@run_queryAPI P _ self (py "get") _ _ true GET eq_refl).
  rewrite HP2, Hj'. cbv beta iota. rewrite Hs. reflexivity.
Qed.

Lemma run_getPreviousCommit_head (h : trace) (res : response) (hd : json) :
  P h (ref_read self) = Some res ->
  (status_code res =? 409)%Z = false ->
  carries [py "object"; py "sha"] hd res ->
  run P h (_getPreviousCommit self)
  = (Returned hd, [(ref_read self, Some res)]).
Proof.
  intros HP Hs Hf. rewrite run_getPreviousCommit, HP, Hs.
  now rewrite Hf.
Qed.

Lemma run_getPreviousCommit_409 (h : trace) (res : response) :
  P h (ref_read self) = Some res ->
  status_code res = 409%Z ->
  run P h (_getPreviousCommit self)
  = (Returned JNull, [(ref_read self, Some res)]).
Proof.
  intros HP Hs. now rewrite run_getPreviousCommit, HP, Hs.
Qed.

Lemma run_updateBranchReference_ok (h : trace) (commitSha : json)
  (res : response) :
  P h (ref_update self commitSha false) = Some res ->
  json_body res <> None ->
  run P h (_updateBranchReference self commitSha false)
  = (Returned tt, [(ref_update self commitSha false, Some res)]).
Proof.
  intros HP Hj. rewrite run_updateBranchReference, HP.
  now destruct (json_body res).
Qed.

End Operations.

(* ===================================================================== *)
(** * Replaying answers; the bootstrap *)
(* ===================================================================== *)

Section Replay.

Lemma replay_skip (pre s : list (option response)) (h h' : trace)
  (q : request) :
  List.length h = List.length pre ->
  replay (pre ++ s) (h ++ h') q = replay s h' q.
Proof.
  intros Hl. unfold replay. rewrite length_app, Hl.
  apply app_nth2_plus.
Qed.

Lemma replay_shift {A} (pre s : list (option response)) (h : trace)
  (p : prog A) :
  List.length h = List.length pre ->
  forall h', run (replay (pre ++ s)) (h ++ h') p = run (replay s) h' p.
Proof.
  intros Hl. induction p as [a|e|q k IH]; intros h'; simpl;
    try reflexivity.
  rewrite replay_skip by assumption.
  destruct (replay s h' q) as [r|]; [|reflexivity].
  now rewrite <- app_assoc, IH.
Qed.

(** Every run is the replay of its own answers: what is proved of all
    replays holds of all providers. *)
Lemma run_replays_its_answers {A} (P : provider) (p : prog A) :
  forall h,
  run (replay (map snd (snd (run P h p)))) [] p = run P h p.
Proof.
  induction p as [a|e|q k IH]; intros h; try reflexivity.
  cbn [run]. destruct (P h q) as [r|]; [|reflexivity].
  specialize (IH r (h ++ [(q, Some r)])).
  destruct (run P (h ++ [(q, Some r)]) (k r)) as [o t].
  cbn [snd map] in *.
  change (replay (Some r :: map snd t) [] q) with (Some r).
  cbv iota.
  pose proof (@replay_shift A [Some r] (map snd t) [(q, Some r)] (k r)
                eq_refl []) as Hs.
  match goal with
  | |- context [run ?R ?h' (k r)] =>
      replace (run R h' (k r)) with (o, t)
        by (symmetry; exact (eq_trans Hs IH))
  end.
  reflexivity.
Qed.

Variable self : GitHubRepo.

Lemma blob_exchanges_length (files : registeredFiles)
  (answers : list response) :
  List.length answers = List.length files ->
  List.length (blob_exchanges self files answers) = List.length answers.
Proof.
  intros Hl. unfold blob_exchanges.
  rewrite length_map, length_combine. lia.
Qed.

(** The first loop of an upload, against answers that carry a sha each. *)
Lemma run_blobs_replay (files : registeredFiles) :
  forall (answers : list response) (shas : list json)
         (rest pre : list (option response)) (h : trace) (acc : list json),
  forallb (fun kv : str * fileRec => is_encodable (contents (snd kv))) files
  = true ->
  Forall2 (fun res sha => carries [py "sha"] sha res) answers shas ->
  List.length answers = List.length files ->
  List.length h = List.length pre ->
  run (replay (pre ++ map (@Some _) answers ++ rest)) h
      (writeRemoteFiles_blobs self files acc)
  = (Returned (acc ++ tree_blobs files shas),
     blob_exchanges self files answers).
Proof.
  induction files as [|[name file] files IH];
    intros answers shas rest pre h acc He Hs Hl Hh.
  - destruct answers; [|discriminate]. simpl.
    unfold tree_blobs. simpl. now rewrite app_nil_r.
  - destruct answers as [|a answers]; [discriminate|].
    inversion Hs as [|? sha ? shas' Ha Hs']; subst.
    simpl in He. apply andb_prop in He as [He1 He2].
    simpl writeRemoteFiles_blobs. rewrite run_bind.
    erewrite run_createNewBlob; [|exact He1| |exact Ha].
    2:{ rewrite <- (app_nil_r h). simpl map. simpl app at 2.
        rewrite replay_skip by assumption. reflexivity. }
    simpl map.
    replace (pre ++ (Some a :: map (@Some _) answers) ++ rest)
      with ((pre ++ [Some a]) ++ map (@Some _) answers ++ rest)
      by (now rewrite <- app_assoc).
    rewrite (IH answers shas' rest (pre ++ [Some a])); try assumption.
    + unfold tree_blobs, blob_exchanges. simpl.
      now rewrite <- app_assoc.
    + simpl in Hl. lia.
    + rewrite !length_app. simpl. lia.
Qed.

Lemma run_blobs_replay_start (files : registeredFiles)
  (answers : list response) (shas : list json)
  (rest : list (option response)) :
  forallb (fun kv : str * fileRec => is_encodable (contents (snd kv))) files
  = true ->
  Forall2 (fun res sha => carries [py "sha"] sha res) answers shas ->
  List.length answers = List.length files ->
  run (replay (map (@Some _) answers ++ rest)) []
      (writeRemoteFiles_blobs self files [])
  = (Returned (tree_blobs files shas), blob_exchanges self files answers).
Proof.
  intros He Hs Hl.
  now apply (@run_blobs_replay files answers shas rest [] [] []).
Qed.

End Replay.

Section UploadRuns.

Variable render : json -> str.
Variable self : GitHubRepo.
Variable P : provider.

Lemma run_createBranch (h : trace) (placeholder boot : json)
  (r_put r_boot r_upd : response) :
  P h (file_create self [] (py ".master") [] (py "main")) = Some r_put ->
  carries [py "content"; py "sha"] placeholder r_put ->
  P (h ++ firstn 1 (bootstrap_exchanges self boot r_put r_boot r_upd))
    (commit_create self (JStr emptyTreeSha) JNull (py "Initial Commit"))
  = Some r_boot ->
  carries [py "sha"] boot r_boot ->
  P (h ++ firstn 2 (bootstrap_exchanges self boot r_put r_boot r_upd))
    (ref_update self boot false) = Some r_upd ->
  json_body r_upd <> None ->
  run P h (_createBranch self (py "main"))
  = (Returned tt, bootstrap_exchanges self boot r_put r_boot r_upd).
Proof.
  intros H1 C1 H2 C2 H3 C3. unfold _createBranch.
  rewrite run_bind.
  erewrite run_createFile; [|reflexivity|exact H1|exact C1].
  rewrite run_bind.
  erewrite run_commitTree; [|exact H2|exact C2].
  rewrite <- app_assoc.
  erewrite run_updateBranchReference_ok; [|exact H3|exact C3].
  reflexivity.
Qed.

Lemma run_upload_onto (h : trace)
  (hd tree_url base_tree new_tree new_commit : json) (blobs : list json)
  (r_commit r_tree r_newtree r_new r_upd : response) :
  let ex := upload_exchanges render self hd tree_url base_tree new_tree
                             new_commit blobs r_commit r_tree r_newtree
                             r_new r_upd in
  P h (commit_read render self hd) = Some r_commit ->
  carries [py "commit"; py "tree"; py "url"] tree_url r_commit ->
  P (h ++ firstn 1 ex) (tree_read render self tree_url) = Some r_tree ->
  carries [py "sha"] base_tree r_tree ->
  P (h ++ firstn 2 ex) (tree_update self base_tree blobs) = Some r_newtree ->
  carries [py "sha"] new_tree r_newtree ->
  P (h ++ firstn 3 ex) (commit_create self new_tree hd []) = Some r_new ->
  carries [py "sha"] new_commit r_new ->
  P (h ++ firstn 4 ex) (ref_update self new_commit false) = Some r_upd ->
  json_body r_upd <> None ->
  run P h (upload_onto render self hd blobs) = (Returned tt, ex).
Proof.
  intros ex H1 C1 H2 C2 H3 C3 H4 C4 H5 C5. unfold upload_onto.
  rewrite run_bind.
  erewrite run_getBranchTree; [|exact H1|exact C1|exact H2|exact C2].
  rewrite run_bind.
  erewrite run_updateTree; [|exact H3|exact C3].
  rewrite run_bind, <- app_assoc.
  erewrite run_commitTree; [|exact H4|exact C4].
  rewrite <- app_assoc.
  erewrite run_updateBranchReference_ok; [|exact H5|exact C5].
  reflexivity.
Qed.

End UploadRuns.

Section BootstrapClaim.

Variable render : json -> str.
Variable self : GitHubRepo.

Lemma eqb_str_app_l (a x y : str) :
  eqb_str (a ++ x) (a ++ y) = eqb_str x y.
Proof.
  induction a as [|c a IH]; simpl; [reflexivity|].
  now rewrite N.eqb_refl.
Qed.

Lemma commit_create_is (t prev : json) (msg : str) :
  is_commit_create self (commit_create self t prev msg) = true.
Proof. unfold is_commit_create, commit_create. simpl. apply eqb_str_refl. Qed.

Lemma tree_update_is_not (t : json) (bs : list json) :
  is_commit_create self (tree_update self t bs) = false.
Proof.
  unfold is_commit_create, tree_update. simpl. now rewrite eqb_str_app_l.
Qed.

Lemma blob_create_is_not (content : str) :
  is_commit_create self (blob_create self content) = false.
Proof.
  unfold is_commit_create, blob_create. simpl. now rewrite eqb_str_app_l.
Qed.

Lemma commits_requested_app (a b : trace) :
  commits_requested self (a ++ b)
  = commits_requested self a ++ commits_requested self b.
Proof. unfold commits_requested. now rewrite filter_app, map_app. Qed.

Lemma commits_requested_blobs (files : registeredFiles)
  (answers : list response) :
  commits_requested self (blob_exchanges self files answers) = [].
Proof.
  unfold commits_requested, blob_exchanges.
  induction (combine files answers) as [|p l IH]; [reflexivity|].
  simpl. now rewrite blob_create_is_not.
Qed.

Lemma commits_requested_bootstrap (boot : json)
  (r_put r_boot r_upd : response) :
  commits_requested self (bootstrap_exchanges self boot r_put r_boot r_upd)
  = [commit_data (JStr emptyTreeSha) JNull (py "Initial Commit")].
Proof.
  unfold commits_requested, bootstrap_exchanges.
  cbn [filter fst]. rewrite commit_create_is. reflexivity.
Qed.

Lemma commits_requested_upload
  (hd tree_url base_tree new_tree new_commit : json) (blobs : list json)
  (r_commit r_tree r_newtree r_new r_upd : response) :
  commits_requested self
    (upload_exchanges render self hd tree_url base_tree new_tree new_commit
                      blobs r_commit r_tree r_newtree r_new r_upd)
  = [commit_data new_tree hd []].
Proof.
  unfold commits_requested, upload_exchanges.
  cbn [filter fst]. rewrite commit_create_is, tree_update_is_not.
  reflexivity.
Qed.

Lemma commits_requested_ref_read (r : option response) (t : trace) :
  commits_requested self ((ref_read self, r) :: t) = commits_requested self t.
Proof. reflexivity. Qed.

Lemma last_event_suffix (a b : trace) :
  b <> [] -> last_event (a ++ b) = last_event b.
Proof.
  intros Hb. unfold last_event. rewrite map_app.
  induction (map (@Some event) a) as [|x l IH]; [reflexivity|].
  simpl. rewrite IH.
  destruct (l ++ map (@Some event) b) eqn:E; [|reflexivity].
  apply app_eq_nil in E as [_ E]. destruct b; [contradiction|discriminate].
Qed.

Lemma commit_data_parents (treeSha prev : json) (message : str) :
  getitem (commit_data treeSha prev message) (py "parents")
  = if is_none prev then Raised (KeyError (py "parents"))
    else Returned (JList [prev]).
Proof. unfold commit_data. now destruct (is_none prev). Qed.

Lemma head_not_none (res : response) (hd : json) :
  no_head res = false -> carries [py "object"; py "sha"] hd res ->
  (status_code res =? 409)%Z = false /\ is_none hd = false.
Proof.
  unfold no_head, carries. intros Hn Hc. rewrite Hc in Hn.
  apply orb_false_elim in Hn as [Hs Hn]. split; [assumption|].
  now destruct hd.
Qed.

(** An upload onto a branch that has a head. *)
Lemma upload_head_trace (files : registeredFiles) (answers : list response)
  (shas : list json)
  (r_ref r_commit r_tree r_newtree r_new r_upd : response)
  (hd tree_url base_tree new_tree new_commit : json) :
  forallb (fun kv : str * fileRec => is_encodable (contents (snd kv))) files
  = true ->
  Forall2 (fun res sha => carries [py "sha"] sha res) answers shas ->
  List.length answers = List.length files ->
  no_head r_ref = false ->
  carries [py "object"; py "sha"] hd r_ref ->
  carries [py "commit"; py "tree"; py "url"] tree_url r_commit ->
  carries [py "sha"] base_tree r_tree ->
  carries [py "sha"] new_tree r_newtree ->
  carries [py "sha"] new_commit r_new ->
  json_body r_upd <> None ->
  run (replay (map (@Some _)
                 (answers ++ [r_ref; r_commit; r_tree; r_newtree; r_new;
                              r_upd])))
      [] (writeRemoteFiles render self files)
  = (Returned tt,
     blob_exchanges self files answers
     ++ (ref_read self, Some r_ref)
     :: upload_exchanges render self hd tree_url base_tree new_tree
          new_commit (tree_blobs files shas)
          r_commit r_tree r_newtree r_new r_upd).
Proof.
  intros He Hs Hl Hn Hhd Hc Ht Hnt Hnc Hu.
  destruct (head_not_none Hn Hhd) as [H409 Hnone].
  unfold writeRemoteFiles. rewrite map_app, run_bind.
  rewrite (@run_blobs_replay_start self files answers shas) by assumption.
  cbn [app]. rewrite <- (app_nil_r (blob_exchanges self files answers)) at 1.
  rewrite replay_shift
    by (rewrite blob_exchanges_length, length_map; auto).
  rewrite run_bind.
  erewrite run_getPreviousCommit_head; [|reflexivity|exact H409|exact Hhd].
  rewrite Hnone. cbn [bind app].
  fold (upload_onto render self hd (tree_blobs files shas)).
  erewrite run_upload_onto;
    [|reflexivity|exact Hc|reflexivity|exact Ht|reflexivity|exact Hnt
     |reflexivity|exact Hnc|reflexivity|exact Hu].
  reflexivity.
Qed.

(** An upload onto a branch without a head: the bootstrap comes first. *)
Lemma upload_bootstrap_trace (files : registeredFiles)
  (answers : list response) (shas : list json)
  (r_ref r_put r_boot r_upd r_ref' r_commit r_tree r_newtree r_new r_upd'
     : response)
  (placeholder boot hd tree_url base_tree new_tree new_commit : json) :
  forallb (fun kv : str * fileRec => is_encodable (contents (snd kv))) files
  = true ->
  Forall2 (fun res sha => carries [py "sha"] sha res) answers shas ->
  List.length answers = List.length files ->
  status_code r_ref = 409%Z ->
  carries [py "content"; py "sha"] placeholder r_put ->
  carries [py "sha"] boot r_boot ->
  json_body r_upd <> None ->
  no_head r_ref' = false ->
  carries [py "object"; py "sha"] hd r_ref' ->
  carries [py "commit"; py "tree"; py "url"] tree_url r_commit ->
  carries [py "sha"] base_tree r_tree ->
  carries [py "sha"] new_tree r_newtree ->
  carries [py "sha"] new_commit r_new ->
  json_body r_upd' <> None ->
  run (replay (map (@Some _)
                 (answers ++ [r_ref; r_put; r_boot; r_upd; r_ref'; r_commit;
                              r_tree; r_newtree; r_new; r_upd'])))
      [] (writeRemoteFiles render self files)
  = (Returned tt,
     blob_exchanges self files answers
     ++ (ref_read self, Some r_ref)
     :: bootstrap_exchanges self boot r_put r_boot r_upd
     ++ (ref_read self, Some r_ref')
     :: upload_exchanges render self hd tree_url base_tree new_tree
          new_commit (tree_blobs files shas)
          r_commit r_tree r_newtree r_new r_upd').
Proof.
  intros He Hs Hl H409 Hp Hb Hu Hn Hhd Hc Ht Hnt Hnc Hu'.
  destruct (head_not_none Hn Hhd) as [H409' Hnone].
  unfold writeRemoteFiles. rewrite map_app, run_bind.
  rewrite (@run_blobs_replay_start self files answers shas) by assumption.
  cbn [app]. rewrite <- (app_nil_r (blob_exchanges self files answers)) at 1.
  rewrite replay_shift
    by (rewrite blob_exchanges_length, length_map; auto).
  rewrite run_bind.
  erewrite run_getPreviousCommit_409; [|reflexivity|exact H409].
  cbn [is_none app]. rewrite !run_bind.
  erewrite run_createBranch;
    [|reflexivity|exact Hp|reflexivity|exact Hb|reflexivity|exact Hu].
  erewrite run_getPreviousCommit_head; [|reflexivity|exact H409'|exact Hhd].
  fold (upload_onto render self hd (tree_blobs files shas)).
  erewrite run_upload_onto;
    [|reflexivity|exact Hc|reflexivity|exact Ht|reflexivity|exact Hnt
     |reflexivity|exact Hnc|reflexivity|exact Hu'].
  reflexivity.
Qed.

End BootstrapClaim.

Section BootstrapTheorem.

Lemma commitTree_sends (P : provider) (h : trace) (self : GitHubRepo)
  (treeSha prev : json) (message : str) :
  map fst (snd (run P h (_commitTree self treeSha prev message)))
  = [commit_create self treeSha prev message].
Proof.
  unfold _commitTree. rewrite run_bind.
  rewrite (@run_queryAPI P h self (py "post") _ _ true POST eq_refl).
  fold (commit_create self treeSha prev message).
  destruct (P h _) as [res|]; [|reflexivity].
  destruct (json_body res) as [j|]; [|reflexivity].
  cbv beta iota. now rewrite run_lift.
Qed.

(** The commits an upload asks for. [_commitTree] puts a [parents] field
    in the commit it asks for exactly when it is given a previous commit.
    On a branch without a head (the head read answers 409) an upload
    whose requests are answered returns normally, whatever the status of
    the answers; it asks for two commits: first the bootstrap commit of
    the empty tree, without parent, then the new commit, whose parent is
    the head read back after the bootstrap, be that the bootstrap commit
    or another; and it ends by asking for the reference to point at the
    new commit. On a branch with a head it asks for one commit, whose
    parent is that head. *)
Lemma upload_commit_requests (render : json -> str)
  (self : GitHubRepo) :
  (forall treeSha prev message,
      getitem (commit_data treeSha prev message) (py "parents")
      = if is_none prev then Raised (KeyError (py "parents"))
        else Returned (JList [prev]))
  /\ (forall P h treeSha prev message,
        map fst (snd (run P h (_commitTree self treeSha prev message)))
        = [commit_create self treeSha prev message])
  /\ (forall files answers shas
             r_ref r_put r_boot r_upd r_ref' r_commit r_tree r_newtree r_new
             r_upd'
             placeholder boot hd tree_url base_tree new_tree new_commit,
        forallb (fun kv : str * fileRec => is_encodable (contents (snd kv)))
                files = true ->
        Forall2 (fun res sha => carries [py "sha"] sha res) answers shas ->
        List.length answers = List.length files ->
        status_code r_ref = 409%Z ->
        carries [py "content"; py "sha"] placeholder r_put ->
        carries [py "sha"] boot r_boot ->
        json_body r_upd <> None ->
        no_head r_ref' = false ->
        carries [py "object"; py "sha"] hd r_ref' ->
        carries [py "commit"; py "tree"; py "url"] tree_url r_commit ->
        carries [py "sha"] base_tree r_tree ->
        carries [py "sha"] new_tree r_newtree ->
        carries [py "sha"] new_commit r_new ->
        json_body r_upd' <> None ->
        let tr :=
          blob_exchanges self files answers
          ++ (ref_read self, Some r_ref)
          :: bootstrap_exchanges self boot r_put r_boot r_upd
          ++ (ref_read self, Some r_ref')
          :: upload_exchanges render self hd tree_url base_tree new_tree
               new_commit (tree_blobs files shas)
               r_commit r_tree r_newtree r_new r_upd' in
        run (replay (map (@Some _)
                       (answers ++ [r_ref; r_put; r_boot; r_upd; r_ref';
                                    r_commit; r_tree; r_newtree; r_new;
                                    r_upd'])))
            [] (writeRemoteFiles render self files)
        = (Returned tt, tr)
        /\ commits_requested self tr
           = [commit_data (JStr emptyTreeSha) JNull (py "Initial Commit");
              commit_data new_tree hd []]
        /\ getitem (commit_data (JStr emptyTreeSha) JNull
                                (py "Initial Commit")) (py "parents")
           = Raised (KeyError (py "parents"))
        /\ getitem (commit_data new_tree hd []) (py "parents")
           = Returned (JList [hd])
        /\ last_event tr = Some (ref_update self new_commit false,
                                 Some r_upd'))
  /\ (forall files answers shas r_ref r_commit r_tree r_newtree r_new r_upd
             hd tree_url base_tree new_tree new_commit,
        forallb (fun kv : str * fileRec => is_encodable (contents (snd kv)))
                files = true ->
        Forall2 (fun res sha => carries [py "sha"] sha res) answers shas ->
        List.length answers = List.length files ->
        no_head r_ref = false ->
        carries [py "object"; py "sha"] hd r_ref ->
        carries [py "commit"; py "tree"; py "url"] tree_url r_commit ->
        carries [py "sha"] base_tree r_tree ->
        carries [py "sha"] new_tree r_newtree ->
        carries [py "sha"] new_commit r_new ->
        json_body r_upd <> None ->
        let tr :=
          blob_exchanges self files answers
          ++ (ref_read self, Some r_ref)
          :: upload_exchanges render self hd tree_url base_tree new_tree
               new_commit (tree_blobs files shas)
               r_commit r_tree r_newtree r_new r_upd in
        run (replay (map (@Some _)
                       (answers ++ [r_ref; r_commit; r_tree; r_newtree;
                                    r_new; r_upd])))
            [] (writeRemoteFiles render self files)
        = (Returned tt, tr)
        /\ commits_requested self tr = [commit_data new_tree hd []]
        /\ getitem (commit_data new_tree hd []) (py "parents")
           = Returned (JList [hd])).
Proof.
  split; [intros; apply commit_data_parents|].
  split; [intros; apply commitTree_sends|].
  split.
  - intros files answers shas r_ref r_put r_boot r_upd r_ref' r_commit
      r_tree r_newtree r_new r_upd' placeholder boot hd tree_url base_tree
      new_tree new_commit He Hs Hl H409 Hp Hb Hu Hn Hhd Hc Ht Hnt Hnc Hu' tr.
    destruct (head_not_none Hn Hhd) as [_ Hnone].
    split; [now apply upload_bootstrap_trace with (placeholder := placeholder)|].
    split.
    { unfold tr.
      rewrite commits_requested_app, commits_requested_blobs.
      rewrite commits_requested_ref_read, commits_requested_app.
      rewrite commits_requested_ref_read, commits_requested_bootstrap,
        commits_requested_upload. reflexivity. }
    split; [reflexivity|].
    split; [now rewrite commit_data_parents, Hnone|].
    unfold tr. now rewrite last_event_suffix by discriminate.
  - intros files answers shas r_ref r_commit r_tree r_newtree r_new r_upd
      hd tree_url base_tree new_tree new_commit He Hs Hl Hn Hhd Hc Ht Hnt
      Hnc Hu tr.
    destruct (head_not_none Hn Hhd) as [_ Hnone].
    split; [now apply upload_head_trace|].
    split; [|now rewrite commit_data_parents, Hnone].
    unfold tr. rewrite commits_requested_app, commits_requested_blobs.
    rewrite commits_requested_ref_read, commits_requested_upload.
    reflexivity.
Qed.

End BootstrapTheorem.

Section BootstrapExample.

(** C6 (the code is at fault). On a repository without commits the
    upload returns normally, but the bootstrap commit does not become the
    first commit of the branch. The file creation of [_createBranch]
    makes the provider commit the placeholder file, and that commit is
    the head of the branch from then on. The client then creates the
    bootstrap commit of the empty tree, without parent, and asks, without
    [force], for the reference to point at it: no fast-forward, so the
    provider refuses with status 422, which the client does not look at.
    The head read back is the placeholder commit and the new commit gets
    it for parent. The history of the branch is the new commit and the
    placeholder commit, whose tree holds [.master]; the bootstrap commit
    of the empty tree exists and is no part of it. *)
Theorem bootstrap_commit_left_off_branch :
  let upload := writeRemoteFiles render0 alice notes_files in
  let r := run (hosting Provider.empty_repo) [] upload in
  let s := Provider.state_after (repoURL alice) Provider.empty_repo (snd r) in
  Provider.history Provider.empty_repo = []
  /\ fst r = Returned tt
  /\ map snd (snd r)
     = map (@Some _) (sha_answer 201 "obj1" :: bootstrap_answers)
  /\ map (fun ev : event => method (fst ev)) (snd r)
     = [POST; GET; PUT; POST; PATCH; GET; GET; GET; POST; POST; PATCH]
  /\ nth_error (snd r) 2
     = Some (file_create alice [] (py ".master") [] (py "main"),
             Some placeholder_answer)
  /\ commits_requested alice (snd r)
     = [commit_data (JStr emptyTreeSha) JNull (py "Initial Commit");
        commit_data (JStr (py "obj6")) (JStr (py "obj4")) []]
  /\ nth_error (snd r) 4
     = Some (ref_update alice (JStr (py "obj5")) false, Some refused_answer)
  /\ is_success (status_code refused_answer) = false
  /\ last_event (snd r)
     = Some (ref_update alice (JStr (py "obj7")) false,
             Some (updated_answer "obj7"))
  /\ Provider.history s = [py "obj7"; py "obj4"]
  /\ Provider.parents_of s (py "obj7") = [py "obj4"]
  /\ Provider.parents_of s (py "obj4") = []
  /\ Provider.tree_of s (py "obj4") = [(py ".master", py "obj2")]
  /\ lookup (py "obj5") (Provider.commits s) = Some (emptyTreeSha, [])
  /\ existsb (eqb_str (py "obj5")) (Provider.history s) = false.
Proof. vm_compute. repeat split. Qed.

End BootstrapExample.

(* ===================================================================== *)
(** * Uploads and downloads against the in-memory provider *)
(* ===================================================================== *)

Section UploadOrderExamples.

(** The in-memory provider moves its head on reference updates and file
    creations only. *)
Lemma provider_objects_keep_head (self : GitHubRepo) (base : str)
  (s : Provider.pstate) (ev : event) :
  harmless self ev = true ->
  Provider.head (fst (Provider.step base s (fst ev))) = Provider.head s.
Proof.
  unfold harmless, reads_or_creates, Provider.step.
  destruct (method (fst ev)); intros H; try discriminate.
  - repeat match goal with
           | |- context [if ?x then _ else _] => destruct x
           | |- context [match ?x with Some _ => _ | None => _ end] =>
               destruct x
           end; reflexivity.
  - unfold Provider.post_blob, Provider.post_tree, Provider.post_commit,
      Provider.add_blob, Provider.add_tree, Provider.add_commit.
    repeat match goal with
           | |- context [if ?x then _ else _] => destruct x
           | |- context [match ?x with _ => _ end] => destruct x
           end; reflexivity.
Qed.

Lemma reference_update_comes_last_example :
  let upload := writeRemoteFiles render0 alice notes_files in
  let r := run (hosting Provider.initialised_repo) [] upload in
  let r' := run (cut_after 3 (hosting Provider.initialised_repo)) [] upload in
  (fst r = Returned tt
   /\ forallb (harmless alice) (removelast (snd r)) = true
   /\ (exists init commitSha res,
         snd r = init ++ [(ref_update alice commitSha false, Some res)])
   /\ Provider.head
        (Provider.state_after (repoURL alice) Provider.initialised_repo
                              (removelast (snd r)))
      = Provider.head Provider.initialised_repo)
  /\ (fst r' = Raised RequestException
      /\ List.length (snd r') = 4%nat
      /\ forallb (harmless alice) (snd r') = true
      /\ Provider.head
           (Provider.state_after (repoURL alice) Provider.initialised_repo
                                 (snd r'))
         = Provider.head Provider.initialised_repo).
Proof.
  intros upload r r'. split.
  - destruct (@reference_update_comes_last render0 alice
                Provider.pstate (option str)
                (fun s ev => fst (Provider.step (repoURL alice) s (fst ev)))
                Provider.head
                (provider_objects_keep_head alice (repoURL alice))
                notes_files (hosting Provider.initialised_repo) []
                (fst r) (snd r) Provider.initialised_repo)
      as (H1 & H2 & _ & H4 & _).
    + apply surjective_pairing.
    + vm_compute. reflexivity.
    + split; [vm_compute; reflexivity|]. split; [exact H1|].
      split; [apply H2; vm_compute; reflexivity|exact H4].
  - destruct (@reference_update_comes_last render0 alice
                Provider.pstate (option str)
                (fun s ev => fst (Provider.step (repoURL alice) s (fst ev)))
                Provider.head
                (provider_objects_keep_head alice (repoURL alice))
                notes_files
                (cut_after 3 (hosting Provider.initialised_repo)) []
                (fst r') (snd r') Provider.initialised_repo)
      as (_ & _ & H3 & _ & H5).
    + apply surjective_pairing.
    + vm_compute. reflexivity.
    + split; [vm_compute; reflexivity|].
      split; [vm_compute; reflexivity|].
      assert (Hlast : forall init commitSha r0,
                 snd r' <> init ++ [(ref_update alice commitSha false, r0)]).
      { intros init c r0 E.
        apply (f_equal (fun t => option_map (fun ev : event => method (fst ev))
                                            (last_event t))) in E.
        rewrite last_event_app in E. vm_compute in E. discriminate. }
      split; [|exact (H5 RequestException eq_refl Hlast)].
      destruct (H3 RequestException eq_refl) as [H | (init & c & res & H)];
        [exact H|].
      now destruct (Hlast init c res).
Defined.

(** On a branch without a head the bootstrap sends a file creation and a
    reference update in the middle of the upload, before the tree and
    commit steps. The update is the fifth request of eleven; the provider
    refuses it, but the file creation before it has given the branch a
    head already: when a later step fails, the branch is not as it was
    before the run. *)
Lemma bootstrap_updates_reference_early :
  let upload := writeRemoteFiles render0 alice notes_files in
  let r := run (hosting Provider.empty_repo) [] upload in
  let r' := run (cut_after 6 (hosting Provider.empty_repo)) [] upload in
  fst r = Returned tt
  /\ map (fun ev : event => method (fst ev)) (snd r)
     = [POST; GET; PUT; POST; PATCH; GET; GET; GET; POST; POST; PATCH]
  /\ nth_error (snd r) 2
     = Some (file_create alice [] (py ".master") [] (py "main"),
             Some placeholder_answer)
  /\ nth_error (snd r) 4
     = Some (ref_update alice (JStr (py "obj5")) false, Some refused_answer)
  /\ forallb (harmless alice) (removelast (snd r)) = false
  /\ fst r' = Raised RequestException
  /\ map (fun ev : event => method (fst ev)) (snd r')
     = [POST; GET; PUT; POST; PATCH; GET; GET]
  /\ Provider.head Provider.empty_repo = None
  /\ Provider.head
       (Provider.state_after (repoURL alice) Provider.empty_repo (snd r'))
     = Some (py "obj4").
Proof. vm_compute. repeat split. Qed.

End UploadOrderExamples.

Section RoundTrip.

(** C2 (the code is at fault). The manifest holds [notes.txt ->
    ~/notes.txt] and the local file holds [hello]. The upload succeeds
    and the remote then serves [hello] for [notes.txt]; but the download
    takes the list of files from the remote copy of [.master], which the
    upload did not send. On a repository with commits there is none and
    [readRemoteFiles] raises. On a repository that was empty the remote
    [.master] is the empty placeholder of the bootstrap: the download
    returns normally with no file at all. When the manifest is itself
    registered and uploaded, [readRemoteFiles] reads it back and stops
    with [IndexError] at its empty second line. In each case nothing is
    written back, whatever the operating system: the local file, cleared
    in between, stays empty. *)
Theorem download_after_upload_restores_nothing (o : os) :
  let P := hosting Provider.initialised_repo in
  let P0 := hosting Provider.empty_repo in
  let notes := py "/home/alice/notes.txt" in
  let up := command_upload render0 alice P [] notes_fs in
  let up0 := command_upload render0 alice P0 [] notes_fs in
  let up' := command_upload render0 alice P [] self_listed_fs in
  readLocalFiles alice notes_fs = Returned notes_files
  /\ fst up = Returned tt
  /\ fst (run P (snd up) (getFile alice (py "notes.txt")))
     = Returned (py "hello")
  /\ fst (run P (snd up) (readRemoteFiles alice))
     = Raised (KeyError (py "content"))
  /\ (let down := command_download o alice P (snd up)
                                    (write_text notes_fs notes []) in
      fst down = Raised (KeyError (py "content"))
      /\ snd down notes = Some [])
  /\ fst up0 = Returned tt
  /\ fst (run P0 (snd up0) (getFile alice (py "notes.txt")))
     = Returned (py "hello")
  /\ fst (run P0 (snd up0) (getFile alice (py ".master"))) = Returned []
  /\ fst (run P0 (snd up0) (readRemoteFiles alice)) = Returned []
  /\ (let down := command_download o alice P0 (snd up0)
                                    (write_text notes_fs notes []) in
      fst down = Returned tt
      /\ snd down notes = Some [])
  /\ readLocalFiles alice self_listed_fs = Returned self_listed_files
  /\ fst up' = Returned tt
  /\ fst (run P (snd up') (getFile alice (py ".master")))
     = Returned self_listed_manifest
  /\ fst (run P (snd up') (readRemoteFiles alice)) = Raised IndexError
  /\ (let down := command_download o alice P (snd up')
                                    (write_text self_listed_fs notes []) in
      fst down = Raised IndexError
      /\ snd down notes = Some []).
Proof. vm_compute. repeat split. Qed.

End RoundTrip.

(* ===================================================================== *)
(** * Registering and reading the manifest *)
(* ===================================================================== *)

Section ManifestOfEntries.
Local Open Scope N_scope.

Lemma split_on_nonempty (sep : char) (s : str) : split_on sep s <> [].
Proof.
  induction s as [|c t IH]; simpl; [discriminate|].
  destruct (c =? sep); [discriminate|].
  destruct (split_on sep t); [contradiction|discriminate].
Qed.

(** Splitting at a separator splits the text before it and the text
    after it. *)
Lemma split_on_sep_app (sep : char) (a b : str) :
  split_on sep (a ++ sep :: b) = split_on sep a ++ split_on sep b.
Proof.
  induction a as [|c a IH]; simpl.
  - now rewrite N.eqb_refl.
  - destruct (c =? sep); [now rewrite IH|].
    rewrite IH. destruct (split_on sep a) as [|w ws] eqn:E; [|reflexivity].
    now apply split_on_nonempty in E.
Qed.

Lemma words_parts (e : str * str) :
  words e = true -> is_word (fst e) = true /\ is_word (snd e) = true.
Proof. unfold words. intros H. now apply andb_prop in H. Qed.

Lemma entry_line_text (r l : str) :
  entry_line r l [] = NL :: entry_text r l ++ [SP].
Proof. unfold entry_line, entry_text. list_norm. Qed.

Lemma entry_lines_snoc (es : list (str * str)) (e : str * str) :
  entry_lines (es ++ [e]) = entry_lines es ++ entry_line (fst e) (snd e) [].
Proof.
  unfold entry_lines. rewrite map_app, concat_app.
  cbn [map List.concat]. now rewrite app_nil_r.
Qed.

Lemma manifest_of_snoc (es : list (str * str)) (e : str * str) :
  manifest_of (es ++ [e])
  = manifest_of es ++ NL :: entry_text (fst e) (snd e) ++ [SP].
Proof.
  unfold manifest_of.
  now rewrite entry_lines_snoc, entry_line_text, <- app_assoc.
Qed.

Lemma entry_text_sp_no_nl (r l : str) :
  is_word r = true -> is_word l = true ->
  forallb (fun d => negb (d =? NL)) (entry_text r l ++ [SP]) = true.
Proof.
  intros Hr Hl. unfold entry_text.
  repeat apply forallb_app_true;
    try reflexivity; apply word_no_char; auto using word_chars.
Qed.

Lemma entry_text_sp_no_cr (r l : str) :
  is_word r = true -> is_word l = true ->
  forallb (fun d => negb (d =? CR)) (entry_text r l ++ [SP]) = true.
Proof.
  intros Hr Hl. unfold entry_text.
  repeat apply forallb_app_true;
    try reflexivity; apply word_no_char; auto using word_chars.
Qed.

Lemma manifest_of_no_cr (es : list (str * str)) :
  forallb words es = true ->
  forallb (fun d => negb (d =? CR)) (manifest_of es) = true.
Proof.
  induction es as [|e es IH] using rev_ind; intros H; [reflexivity|].
  rewrite forallb_app in H. apply andb_prop in H as [Hes He].
  cbn [forallb] in He. rewrite andb_true_r in He.
  destruct (words_parts e He) as [Hr Hl].
  rewrite manifest_of_snoc.
  apply forallb_app_true; [now apply IH|].
  change (NL :: entry_text (fst e) (snd e) ++ [SP])
    with ([NL] ++ entry_text (fst e) (snd e) ++ [SP]).
  apply forallb_app_true; [reflexivity|now apply entry_text_sp_no_cr].
Qed.

(** The lines of the manifest: the header, an empty line, the entries. *)
Lemma manifest_of_lines (es : list (str * str)) :
  forallb words es = true ->
  split_on NL (manifest_of es)
  = py "[FILES]"
    :: [] :: map (fun e => entry_text (fst e) (snd e) ++ [SP]) es.
Proof.
  induction es as [|e es IH] using rev_ind; intros H; [reflexivity|].
  rewrite forallb_app in H. apply andb_prop in H as [Hes He].
  cbn [forallb] in He. rewrite andb_true_r in He.
  destruct (words_parts e He) as [Hr Hl].
  rewrite manifest_of_snoc, split_on_sep_app, IH by assumption.
  rewrite split_on_no_sep by now apply entry_text_sp_no_nl.
  rewrite map_app. reflexivity.
Qed.

Lemma manifest_of_strip (es : list (str * str)) (e : str * str) :
  strip (manifest_of (es ++ [e]))
  = manifest_of es ++ NL :: entry_text (fst e) (snd e).
Proof.
  rewrite manifest_of_snoc. unfold strip, entry_text.
  replace (manifest_of es ++ NL :: (fst e ++ py " -> " ++ snd e ++ py " -")
           ++ [SP])
    with ((manifest_of es ++ NL :: fst e ++ py " -> " ++ snd e ++ [SP])
          ++ 45 :: [SP])
    by (unfold manifest_of; list_norm).
  rewrite rstrip_keep by reflexivity.
  unfold manifest_of. list_norm.
Qed.


Lemma entry_text_sp_strip (r l : str) :
  is_word r = true -> strip (entry_text r l ++ [SP]) = entry_text r l.
Proof.
  intros Hr. rewrite <- (@entry_text_strip r l Hr) at 2.
  unfold strip. f_equal. unfold entry_text.
  replace ((r ++ py " -> " ++ l ++ py " -") ++ [SP])
    with ((r ++ py " -> " ++ l ++ [SP]) ++ 45 :: [SP]) by list_norm.
  replace (r ++ py " -> " ++ l ++ py " -")
    with ((r ++ py " -> " ++ l ++ [SP]) ++ 45 :: []) by list_norm.
  now rewrite !rstrip_keep by reflexivity.
Qed.

Lemma entry_text_sp_fields (r l : str) :
  is_word r = true -> is_word l = true ->
  split_ws (entry_text r l ++ [SP]) = [r; py "->"; l; py "-"].
Proof.
  intros Hr Hl. unfold entry_text.
  replace ((r ++ py " -> " ++ l ++ py " -") ++ [SP])
    with (r ++ SP :: py "->" ++ SP :: l ++ SP :: py "- ") by list_norm.
  rewrite split_ws_word_sp by auto.
  rewrite (@split_ws_word_sp (py "->")) by auto.
  now rewrite split_ws_word_sp by auto.
Qed.

Lemma entry_text_nonempty (r l : str) :
  is_word r = true -> eqb_str (entry_text r l) [] = false.
Proof. intros Hr. apply is_word_cons in Hr as (x & t & -> & _). reflexivity. Qed.

Variable self : GitHubRepo.

(** One line of the manifest that holds an entry, with or without the
    space at its end, adds the entry's file to the dictionary. *)
Lemma readLocalFiles_loop_line (f : fs) (r l line : str) (rest : list str)
  (acc : registeredFiles) :
  is_word r = true ->
  strip line = entry_text r l ->
  split_ws line = [r; py "->"; l; py "-"] ->
  exists_ f (resolve self l) = true ->
  readLocalFiles_loop self f (line :: rest) acc
  = readLocalFiles_loop self f rest
      (dict_set r (mk_fileRec (resolve self l) (text_at f (resolve self l)))
         acc).
Proof.
  intros Hr Hs Hw Hx. cbn [readLocalFiles_loop].
  rewrite Hs, entry_text_nonempty, Hw by assumption.
  unfold read_text, text_at, exists_ in *.
  now destruct (f (resolve self l)).
Qed.

Lemma readLocalFiles_loop_entries (f : fs) (es : list (str * str))
  (rest : list str) (acc : registeredFiles) :
  forallb words es = true ->
  forallb (fun e => exists_ f (resolve self (snd e))) es = true ->
  readLocalFiles_loop self f
    (map (fun e => entry_text (fst e) (snd e) ++ [SP]) es ++ rest) acc
  = readLocalFiles_loop self f rest (local_dict self f es acc).
Proof.
  revert acc. induction es as [|e es IH]; intros acc Hw Hx; [reflexivity|].
  cbn [forallb] in Hw, Hx.
  apply andb_prop in Hw as [He Hw]. apply andb_prop in Hx as [Hxe Hx].
  destruct (words_parts e He) as [Hr Hl].
  cbn [map app].
  rewrite (@readLocalFiles_loop_line f (fst e) (snd e))
    by auto using entry_text_sp_strip, entry_text_sp_fields.
  now rewrite IH.
Qed.

(** [readLocalFiles] on a manifest that holds the header and the entries
    as [registerFile] writes them. *)
Lemma readLocalFiles_entries (f : fs) (es : list (str * str)) :
  manifest f = Some (manifest_of es) ->
  forallb words es = true ->
  forallb (fun e => exists_ f (resolve self (snd e))) es = true ->
  readLocalFiles self f = Returned (local_dict self f es []).
Proof.
  intros Hm Hw Hx. unfold readLocalFiles, read_text.
  change (f (py ".master")) with (manifest f). rewrite Hm.
  rewrite universal_newlines_id by now apply manifest_of_no_cr.
  cbn [obind].
  destruct es as [|e0 es0]; [reflexivity|].
  destruct (@exists_last _ (e0 :: es0)) as (es' & e & E); [discriminate|].
  rewrite E in *. clear E e0 es0.
  rewrite forallb_app in Hw, Hx.
  apply andb_prop in Hw as [Hw He]. apply andb_prop in Hx as [Hx Hxe].
  cbn [forallb] in He, Hxe. rewrite andb_true_r in He, Hxe.
  destruct (words_parts e He) as [Hr Hl].
  rewrite manifest_of_strip, split_on_sep_app, manifest_of_lines
    by assumption.
  rewrite entry_text_one_line by assumption.
  cbn [app tl]. cbn [readLocalFiles_loop].
  change (eqb_str (strip []) []) with true. cbv iota.
  rewrite readLocalFiles_loop_entries by assumption.
  rewrite (@readLocalFiles_loop_line f (fst e) (snd e))
    by auto using entry_text_strip, entry_text_fields.
  unfold local_dict. now rewrite fold_left_app.
Qed.

(** ** Registering through the menu *)








Lemma dict_set_fresh {V} (k : str) (v : V) (d : list (str * V)) :
  existsb (eqb_str k) (map fst d) = false -> dict_set k v d = d ++ [(k, v)].
Proof.
  induction d as [|[k' v'] d IH]; cbn [dict_set map fst existsb app];
    [reflexivity|].
  intros H. apply orb_false_iff in H as [H1 H2].
  destruct (eqb_str k' k) eqn:E.
  - apply eqb_str_eq in E. subst. now rewrite eqb_str_refl in H1.
  - now rewrite IH.
Qed.

Lemma existsb_app_false {A} (p : A -> bool) (a b : list A) :
  existsb p a = false -> existsb p b = false -> existsb p (a ++ b) = false.
Proof. intros Ha Hb. now rewrite existsb_app, Ha, Hb. Qed.

Lemma eqb_str_sym (a b : str) : eqb_str a b = eqb_str b a.
Proof.
  destruct (eqb_str b a) eqn:E.
  - apply eqb_str_eq in E. subst. apply eqb_str_refl.
  - destruct (eqb_str a b) eqn:E2; [|reflexivity].
    apply eqb_str_eq in E2. subst. now rewrite eqb_str_refl in E.
Qed.

(** With pairwise different names the dictionary lists the entries in
    the order of the manifest. *)
Lemma local_dict_distinct (f : fs) (es : list (str * str))
  (acc : registeredFiles) :
  distinct (map fst acc ++ map fst es) = true ->
  local_dict self f es acc = acc ++ map (file_of self f) es.
Proof.
  revert acc. induction es as [|e es IH]; intros acc H.
  - cbn. now rewrite app_nil_r.
  - cbn [local_dict fold_left map].
    change (fold_left _ es ?a) with (local_dict self f es a).
    assert (Hfresh : existsb (eqb_str (fst e)) (map fst acc) = false).
    { clear IH. induction acc as [|[k v] acc IHa]; [reflexivity|].
      cbn [map fst app distinct existsb] in *.
      apply andb_prop in H as [H1 H2]. apply negb_true_iff in H1.
      rewrite existsb_app in H1. apply orb_false_iff in H1 as [_ H1].
      cbn [existsb] in H1. apply orb_false_iff in H1 as [H1 _].
      rewrite eqb_str_sym, H1. now apply IHa. }
    rewrite dict_set_fresh by exact Hfresh.
    rewrite IH.
    + rewrite <- app_assoc. reflexivity.
    + rewrite map_app. cbn [map fst app]. rewrite <- app_assoc. exact H.
Qed.





(** X4. With pairwise different names, [readLocalFiles] returns the
    files in the order of the manifest's lines, each under its remote
    name with its resolved local path and the file's text. *)
Theorem readLocalFiles_in_manifest_order (f : fs) (es : list (str * str)) :
  manifest f = Some (manifest_of es) ->
  forallb words es = true ->
  forallb (fun e => exists_ f (resolve self (snd e))) es = true ->
  distinct (map fst es) = true ->
  readLocalFiles self f = Returned (map (file_of self f) es).
Proof.
  intros Hm Hw Hx Hd.
  rewrite (@readLocalFiles_entries f es) by assumption.
  now rewrite local_dict_distinct.
Qed.


End ManifestOfEntries.

Section ManifestOfEntriesExamples.


Lemma readLocalFiles_in_manifest_order_example :
  readLocalFiles alice
    (registerFile (py "a") (py "/tmp/a") []
       (registerFile (py "notes.txt") (py "~/notes.txt") [] two_files_fs))
  = Returned [(py "notes.txt",
               mk_fileRec (py "/home/alice/notes.txt") (py "hello"));
              (py "a", mk_fileRec (py "/tmp/a") (py "A"))].
Proof.
  exact (@readLocalFiles_in_manifest_order alice
           (registerFile (py "a") (py "/tmp/a") []
              (registerFile (py "notes.txt") (py "~/notes.txt") []
                 two_files_fs))
           [(py "notes.txt", py "~/notes.txt"); (py "a", py "/tmp/a")]
           eq_refl eq_refl eq_refl eq_refl).
Defined.


End ManifestOfEntriesExamples.

(* ===================================================================== *)
(** * The access token file *)
(* ===================================================================== *)

Section EnvFile.
Local Open Scope N_scope.

Lemma last_app_nonempty {A} (a b : list A) (d : A) :
  b <> [] -> last (a ++ b) d = last b d.
Proof.
  intros Hb. induction a as [|x a IH]; [reflexivity|].
  cbn [app last]. rewrite IH.
  destruct (a ++ b) eqn:E; [|reflexivity].
  apply app_eq_nil in E as [_ E]. contradiction.
Qed.

Lemma one_line_parts (s : str) :
  one_line s = true ->
  forallb (fun c => negb (c =? NL)) s = true
  /\ forallb (fun c => negb (c =? CR)) s = true.
Proof.
  unfold one_line. induction s as [|c s IH]; cbn [forallb]; [auto|].
  intros H. apply andb_prop in H as [Hc Hs]. apply andb_prop in Hc as [H1 H2].
  destruct (IH Hs) as [IH1 IH2]. now rewrite H1, H2, IH1, IH2.
Qed.

Lemma plain_value_parts (s : str) :
  plain_value s = true ->
  forallb (fun c => negb (c =? EQUALS)) s = true /\ one_line s = true.
Proof. unfold plain_value. intros H. now apply andb_prop in H. Qed.

Lemma one_line_app (a b : str) :
  one_line a = true -> one_line b = true -> one_line (a ++ b) = true.
Proof. unfold one_line. apply forallb_app_true. Qed.

Lemma lines_keepends_one (s : str) :
  s <> [] -> forallb (fun c => negb (c =? NL)) s = true ->
  lines_keepends s = [s].
Proof.
  induction s as [|c s IH]; [contradiction|]. intros _ H.
  cbn [forallb] in H. apply andb_prop in H as [Hc Hs].
  apply negb_true_iff in Hc. cbn [lines_keepends]. rewrite Hc.
  destruct s as [|d s]; [reflexivity|].
  now rewrite IH by (discriminate || exact Hs).
Qed.

(** The value [readEnvFile] takes from a first line [key=value]. *)
Lemma last_field (a v : str) :
  forallb (fun c => negb (c =? EQUALS)) v = true ->
  last (split_on EQUALS (a ++ EQUALS :: v)) [] = v.
Proof.
  intros Hv. rewrite split_on_sep_app, last_app_nonempty
    by apply split_on_nonempty.
  now rewrite split_on_no_sep.
Qed.

(** Reading a file whose only line is [a=v]. *)
Lemma readEnvFile_one_line (f : fs) (p a v : str) :
  f p = Some (a ++ EQUALS :: v) ->
  one_line a = true -> plain_value v = true ->
  readEnvFile p f = Returned v.
Proof.
  intros Hf Ha Hv. destruct (plain_value_parts v Hv) as [Hv1 Hv2].
  assert (Hl : one_line (a ++ EQUALS :: v) = true).
  { change (EQUALS :: v) with ([EQUALS] ++ v).
    now repeat apply one_line_app. }
  destruct (one_line_parts _ Hl) as [Hnl Hcr].
  unfold readEnvFile, readline, readlines, read_text. rewrite Hf.
  rewrite universal_newlines_id by exact Hcr. cbn [omap obind].
  rewrite lines_keepends_one; [|now destruct a|exact Hnl].
  cbn [obind]. f_equal. now apply last_field.
Qed.



(** X7. A token that contains [=] is cut: [readEnvFile] returns only what
    follows its last [=]. *)
Theorem token_cut_at_equals (envFilePath pre post : str) (f : fs) :
  one_line pre = true ->
  plain_value post = true ->
  readEnvFile envFilePath
    (writeEnvFile envFilePath (pre ++ EQUALS :: post) f)
  = Returned post.
Proof.
  intros Hp Hv.
  apply (@readEnvFile_one_line _ _ (py "TOKEN=" ++ pre) post);
    [|now apply one_line_app|exact Hv].
  unfold writeEnvFile, write_text. rewrite eqb_str_refl.
  now rewrite <- app_assoc.
Qed.

Lemma token_cut_at_equals_example :
  readEnvFile (py ".env") (writeEnvFile (py ".env") (py "abc=def") no_files)
  = Returned (py "def").
Proof.
  exact (@token_cut_at_equals (py ".env") (py "abc") (py "def") no_files
           eq_refl eq_refl).
Defined.

(** X8. [readEnvFile] keeps the line end: from a file whose first line
    [TOKEN=<token>] is closed by a newline, as an editor leaves it, the
    token is returned with the newline at its end. *)
Theorem readEnvFile_keeps_newline (envFilePath key token more : str)
  (f : fs) :
  f envFilePath = Some (key ++ EQUALS :: token ++ NL :: more) ->
  one_line key = true ->
  plain_value token = true ->
  readEnvFile envFilePath f = Returned (token ++ [NL]).
Proof.
  intros Hf Hk Hv. destruct (plain_value_parts token Hv) as [Hv1 Hv2].
  assert (Hl : one_line (key ++ EQUALS :: token) = true).
  { change (EQUALS :: token) with ([EQUALS] ++ token).
    now repeat apply one_line_app. }
  destruct (one_line_parts _ Hl) as [Hnl Hcr].
  unfold readEnvFile, readline, readlines, read_text. rewrite Hf.
  replace (key ++ EQUALS :: token ++ NL :: more)
    with ((key ++ EQUALS :: token) ++ NL :: more) by list_norm.
  rewrite universal_newlines_app by exact Hcr.
  change (universal_newlines (NL :: more))
    with (NL :: universal_newlines more).
  cbn [omap obind]. rewrite lines_keepends_app by exact Hnl.
  cbn [obind]. f_equal.
  replace ((key ++ EQUALS :: token) ++ [NL])
    with (key ++ EQUALS :: (token ++ [NL])) by list_norm.
  apply last_field. now apply forallb_app_true.
Qed.

Lemma readEnvFile_keeps_newline_example :
  readEnvFile (py ".env")
    (write_text no_files (py ".env") (py "TOKEN=abc" ++ [NL]))
  = Returned (py "abc" ++ [NL]).
Proof.
  exact (@readEnvFile_keeps_newline (py ".env") (py "TOKEN") (py "abc") []
           (write_text no_files (py ".env") (py "TOKEN=abc" ++ [NL]))
           eq_refl eq_refl eq_refl).
Defined.

End EnvFile.

(* ===================================================================== *)
(** * Deregistering and listing, line by line *)
(* ===================================================================== *)

Section ManifestLines.
Local Open Scope N_scope.

(** The [for] loop of [deregisterFile] drops the first line whose first
    field is the name, and only that line. *)
Lemma deregister_scan_first_match (name : str) (pre : list str) (l : str)
  (post : list str) :
  forallb (names_other name) pre = true ->
  names name l = true ->
  deregister_scan name (pre ++ l :: post) = Returned (pre ++ post).
Proof.
  intros Hpre Hl. induction pre as [|x pre IH].
  - cbn [app deregister_scan]. unfold names in Hl.
    destruct (split_ws l) as [|w ws]; [discriminate|]. now rewrite Hl.
  - cbn [forallb] in Hpre. apply andb_prop in Hpre as [Hx Hpre].
    cbn [app deregister_scan]. unfold names_other in Hx.
    destruct (split_ws x) as [|w ws]; [discriminate|].
    apply negb_true_iff in Hx. rewrite Hx, IH by exact Hpre. reflexivity.
Qed.

Lemma deregister_scan_no_match (name : str) (lines : list str) :
  forallb (names_other name) lines = true ->
  deregister_scan name lines = Returned lines.
Proof.
  induction lines as [|x lines IH]; [reflexivity|]. intros H.
  cbn [forallb] in H. apply andb_prop in H as [Hx H].
  cbn [deregister_scan]. unfold names_other in Hx.
  destruct (split_ws x) as [|w ws]; [discriminate|].
  apply negb_true_iff in Hx. rewrite Hx, IH by exact H. reflexivity.
Qed.

Lemma deregisterFile_asks (name : str) (f : fs) :
  reserved name = false ->
  deregisterFile name f
  = match readlines f masterFile with
    | Raised e => (Raised e, f)
    | Returned lines =>
        match deregister_scan name lines with
        | Raised e => (Raised e, f)
        | Returned lines' =>
            (Returned [py "Successfully deregistered file!"],
             write_text f masterFile (List.concat lines'))
        end
    end.
Proof.
  intros Hr. unfold deregisterFile. rewrite orb_comm.
  change (eqb_str name (py "back") || eqb_str name (py "exit"))
    with (reserved name). now rewrite Hr.
Qed.

(** X9. [deregisterFile] on a manifest whose lines all have a first
    field, up to the first line that begins with the name: that line,
    and only that one, is removed from the file; the lines before and
    after it, later lines with the same name included, are written back
    as they were read. *)
Theorem deregister_removes_first_match (name c : str) (pre : list str)
  (l : str) (post : list str) (f : fs) :
  reserved name = false ->
  f masterFile = Some c ->
  lines_keepends (universal_newlines c) = pre ++ l :: post ->
  forallb (names_other name) pre = true ->
  names name l = true ->
  deregisterFile name f
  = (Returned [py "Successfully deregistered file!"],
     write_text f masterFile (List.concat (pre ++ post))).
Proof.
  intros Hr Hf Hl Hpre Hn. rewrite deregisterFile_asks by exact Hr.
  unfold readlines, read_text. rewrite Hf. cbn [omap obind]. rewrite Hl.
  now rewrite deregister_scan_first_match.
Qed.

(** X10. Deregistering a name that no line begins with reports success:
    on a manifest whose lines all have a first field the file is written
    back as it was read and [Successfully deregistered file!] is
    printed. *)
Theorem deregister_unknown_name_succeeds (name c : str) (f : fs) :
  reserved name = false ->
  f masterFile = Some c ->
  forallb (names_other name) (lines_keepends (universal_newlines c)) = true ->
  deregisterFile name f
  = (Returned [py "Successfully deregistered file!"],
     write_text f masterFile (universal_newlines c)).
Proof.
  intros Hr Hf Hl. rewrite deregisterFile_asks by exact Hr.
  unfold readlines, read_text. rewrite Hf. cbn [omap obind].
  rewrite deregister_scan_no_match by exact Hl.
  now rewrite lines_keepends_concat.
Qed.

(** ** The listing *)

Lemma strip_entry_trailing (r l ws : str) :
  is_word r = true -> forallb is_space ws = true ->
  strip (entry_text r l ++ ws) = entry_text r l.
Proof.
  intros Hr Hws. rewrite <- (@entry_text_strip r l Hr) at 2.
  unfold strip. f_equal. unfold entry_text.
  replace ((r ++ py " -> " ++ l ++ py " -") ++ ws)
    with ((r ++ py " -> " ++ l ++ [SP]) ++ 45 :: ws) by list_norm.
  replace (r ++ py " -> " ++ l ++ py " -")
    with ((r ++ py " -> " ++ l ++ [SP]) ++ 45 :: []) by list_norm.
  rewrite !rstrip_keep by reflexivity.
  now rewrite rstrip_spaces.
Qed.

(** The lines after an entry, stripped. *)
Lemma strip_entry_lines (es : list (str * str)) :
  forall e, forallb words (e :: es) = true ->
  map strip (lines_keepends
               ((entry_text (fst e) (snd e) ++ [SP]) ++ entry_lines es))
  = map (fun e => entry_text (fst e) (snd e)) (e :: es).
Proof.
  induction es as [|e' es IH]; intros e H;
    cbn [forallb] in H; apply andb_prop in H as [He H];
    apply andb_prop in He as [Hr Hl].
  - unfold entry_lines. cbn [map List.concat]. rewrite app_nil_r.
    rewrite lines_keepends_one;
      [|now destruct (entry_text (fst e) (snd e))
       |now apply entry_text_sp_no_nl].
    cbn [map]. now rewrite strip_entry_trailing.
  - change (entry_lines (e' :: es))
      with (entry_line (fst e') (snd e') [] ++ entry_lines es).
    unfold entry_line at 1.
    replace ((entry_text (fst e) (snd e) ++ [SP])
             ++ (NL :: fst e' ++ py " -> " ++ snd e' ++ py " - " ++ [])
             ++ entry_lines es)
      with ((entry_text (fst e) (snd e) ++ [SP])
            ++ NL :: (entry_text (fst e') (snd e') ++ [SP])
                     ++ entry_lines es)
      by (unfold entry_text; list_norm).
    rewrite lines_keepends_app by now apply entry_text_sp_no_nl.
    cbn [map]. rewrite (IH e' H). f_equal.
    rewrite <- app_assoc. now apply strip_entry_trailing.
Qed.

(** X11. The listing of a manifest that [registerFile] wrote: the
    title, and when there are entries an empty line (the one after the
    header) and then each entry as [name -> path -], in the order of
    registration. *)
Theorem display_lists_every_entry (f : fs) (es : list (str * str)) :
  manifest f = Some (manifest_of es) ->
  forallb words es = true ->
  displayRegisteredFiles f
  = Returned ((py "Remote Name" ++ [9] ++ py "Local Path")
              :: match es with
                 | [] => []
                 | _ => [] :: map (fun e => entry_text (fst e) (snd e)) es
                 end).
Proof.
  intros Hm Hw. unfold displayRegisteredFiles, readlines, read_text.
  change (f masterFile) with (manifest f). rewrite Hm.
  rewrite universal_newlines_id by now apply manifest_of_no_cr.
  cbn [omap obind]. do 2 f_equal.
  unfold manifest_of, header. rewrite <- app_assoc. cbn [app].
  change (91 :: 70 :: 73 :: 76 :: 69 :: 83 :: 93 :: NL :: entry_lines es)
    with (py "[FILES]" ++ NL :: entry_lines es).
  rewrite lines_keepends_app by reflexivity. cbn [tl].
  destruct es as [|e es]; [reflexivity|].
  change (entry_lines (e :: es))
    with (entry_line (fst e) (snd e) [] ++ entry_lines es).
  rewrite entry_line_text. cbn [app lines_keepends].
  change (NL =? NL) with true. cbv iota. cbn [map]. f_equal.
  now apply strip_entry_lines.
Qed.

End ManifestLines.

Section ManifestLinesExamples.
Local Open Scope N_scope.

Lemma deregister_removes_first_match_example :
  deregisterFile (py "a")
    (write_text no_files masterFile
       (py "[FILES]" ++ [NL] ++ py "a -> /tmp/a - " ++ [NL]
        ++ py "b -> /tmp/b - " ++ [NL] ++ py "a -> /tmp/c - " ++ [NL]))
  = (Returned [py "Successfully deregistered file!"],
     write_text
       (write_text no_files masterFile
          (py "[FILES]" ++ [NL] ++ py "a -> /tmp/a - " ++ [NL]
           ++ py "b -> /tmp/b - " ++ [NL] ++ py "a -> /tmp/c - " ++ [NL]))
       masterFile
       (py "[FILES]" ++ [NL] ++ py "b -> /tmp/b - " ++ [NL]
        ++ py "a -> /tmp/c - " ++ [NL])).
Proof.
  exact (@deregister_removes_first_match (py "a")
           (py "[FILES]" ++ [NL] ++ py "a -> /tmp/a - " ++ [NL]
            ++ py "b -> /tmp/b - " ++ [NL] ++ py "a -> /tmp/c - " ++ [NL])
           [py "[FILES]" ++ [NL]] (py "a -> /tmp/a - " ++ [NL])
           [py "b -> /tmp/b - " ++ [NL]; py "a -> /tmp/c - " ++ [NL]]
           _ eq_refl eq_refl eq_refl eq_refl eq_refl).
Defined.

Lemma deregister_unknown_name_succeeds_example :
  deregisterFile (py "z")
    (write_text no_files masterFile
       (py "[FILES]" ++ [NL] ++ py "a -> /tmp/a - " ++ [NL]))
  = (Returned [py "Successfully deregistered file!"],
     write_text
       (write_text no_files masterFile
          (py "[FILES]" ++ [NL] ++ py "a -> /tmp/a - " ++ [NL]))
       masterFile
       (py "[FILES]" ++ [NL] ++ py "a -> /tmp/a - " ++ [NL])).
Proof.
  exact (@deregister_unknown_name_succeeds (py "z")
           (py "[FILES]" ++ [NL] ++ py "a -> /tmp/a - " ++ [NL])
           _ eq_refl eq_refl eq_refl).
Defined.

Lemma display_lists_every_entry_example :
  displayRegisteredFiles
    (register_all [(py "a", py "/tmp/a"); (py "b", py "~/b")] fresh_fs)
  = Returned [py "Remote Name" ++ [9] ++ py "Local Path"; [];
              py "a -> /tmp/a -"; py "b -> ~/b -"].
Proof.
  exact (@display_lists_every_entry
           (register_all [(py "a", py "/tmp/a"); (py "b", py "~/b")] fresh_fs)
           [(py "a", py "/tmp/a"); (py "b", py "~/b")] eq_refl eq_refl).
Defined.

End ManifestLinesExamples.

(* ===================================================================== *)
(** * Downloading *)
(* ===================================================================== *)

Section Download.
Local Open Scope N_scope.

Variable self : GitHubRepo.

Lemma fetch_exchanges_length (es : list (str * str)) (rs : list response) :
  List.length rs = List.length es ->
  List.length (fetch_exchanges self es rs) = List.length rs.
Proof.
  intros H. unfold fetch_exchanges.
  rewrite length_map, length_combine. lia.
Qed.

(** The loop of [readRemoteFiles], against answers that carry a text
    each. *)
Lemma run_readRemoteFiles_loop (lines : list str) :
  forall (es : list (str * str)) (rs : list response) (texts : list str)
         (rest pre : list (option response)) (h : trace)
         (acc : registeredFiles),
  map entry_fields lines = map (@Some _) es ->
  map file_text rs = map (@Returned _) texts ->
  List.length rs = List.length es ->
  List.length h = List.length pre ->
  run (replay (pre ++ map (@Some _) rs ++ rest)) h
      (readRemoteFiles_loop self lines acc)
  = (Returned (remote_dict self (combine es texts) acc),
     fetch_exchanges self es rs).
Proof.
  induction lines as [|line lines IH];
    intros es rs texts rest pre h acc Hl Ht Hn Hh.
  - destruct es; [|discriminate]. destruct rs; [|discriminate].
    reflexivity.
  - destruct es as [|e es]; [discriminate|].
    destruct rs as [|r rs]; [discriminate|].
    destruct texts as [|t texts]; [discriminate|].
    cbn [map] in Hl, Ht. injection Hl as Hline Hl. injection Ht as Hr Ht.
    cbn [readRemoteFiles_loop]. unfold entry_fields in Hline.
    destruct (split_ws line) as [|t0 [|t1 [|t2 ws]]]; try discriminate.
    injection Hline as <-. cbn [fst snd] in *.
    rewrite run_bind.
    rewrite (@run_getFile _ h self t0 r t);
      [| |exact Hr].
    2:{ rewrite <- (app_nil_r h). cbn [map app].
        rewrite replay_skip by assumption. reflexivity. }
    cbn [map].
    replace (pre ++ (Some r :: map (@Some _) rs) ++ rest)
      with ((pre ++ [Some r]) ++ map (@Some _) rs ++ rest)
      by (now rewrite <- app_assoc).
    rewrite (IH es rs texts rest (pre ++ [Some r])); try assumption.
    + reflexivity.
    + cbn [List.length] in Hn. lia.
    + rewrite !length_app. cbn [List.length]. lia.
Qed.

Lemma run_readRemoteFiles (es : list (str * str)) (r0 : response)
  (rs : list response) (m : str) (texts : list str)
  (rest : list (option response)) :
  file_text r0 = Returned m ->
  map entry_fields (tl (split_on NL (strip m))) = map (@Some _) es ->
  map file_text rs = map (@Returned _) texts ->
  List.length rs = List.length es ->
  run (replay (map (@Some _) (r0 :: rs) ++ rest)) [] (readRemoteFiles self)
  = (Returned (remote_dict self (combine es texts) []),
     (fetch_request self masterFile, Some r0) :: fetch_exchanges self es rs).
Proof.
  intros H0 Hl Ht Hn. unfold readRemoteFiles. rewrite run_bind.
  rewrite (@run_getFile _ [] self masterFile r0 m); [|reflexivity|exact H0].
  cbn [map app].
  rewrite (@run_readRemoteFiles_loop _ es rs texts rest [Some r0]);
    try assumption; reflexivity.
Qed.

Lemma fold_dict_set_distinct {A V} (key : A -> str) (val : A -> V)
  (l : list A) (acc : list (str * V)) :
  distinct (map fst acc ++ map key l) = true ->
  fold_left (fun d a => dict_set (key a) (val a) d) l acc
  = acc ++ map (fun a => (key a, val a)) l.
Proof.
  revert acc. induction l as [|a l IH]; intros acc H.
  - cbn. now rewrite app_nil_r.
  - cbn [fold_left map].
    assert (Hfresh : existsb (eqb_str (key a)) (map fst acc) = false).
    { clear IH. induction acc as [|[k v] acc IHa]; [reflexivity|].
      cbn [map fst app distinct existsb] in *.
      apply andb_prop in H as [H1 H2]. apply negb_true_iff in H1.
      rewrite existsb_app in H1. apply orb_false_iff in H1 as [_ H1].
      cbn [existsb] in H1. apply orb_false_iff in H1 as [H1 _].
      rewrite eqb_str_sym, H1. now apply IHa. }
    rewrite dict_set_fresh by exact Hfresh.
    rewrite IH.
    + rewrite <- app_assoc. reflexivity.
    + rewrite map_app. cbn [map fst app]. rewrite <- app_assoc. exact H.
Qed.

Lemma map_fst_combine {A B} (l : list A) (l' : list B) :
  List.length l = List.length l' -> map fst (combine l l') = l.
Proof.
  revert l'. induction l as [|a l IH]; intros [|b l'] H;
    try discriminate; [reflexivity|].
  cbn. f_equal. apply IH. cbn in H. lia.
Qed.

Lemma combine_app_cons {A B} (la lb : list A) (a : A) (ta tb : list B)
  (t : B) :
  List.length la = List.length ta ->
  combine (la ++ a :: lb) (ta ++ t :: tb)
  = combine la ta ++ (a, t) :: combine lb tb.
Proof.
  revert ta. induction la as [|x la IH]; intros [|y ta] H;
    try discriminate; [reflexivity|].
  cbn. f_equal. apply IH. cbn in H. lia.
Qed.

Lemma remote_names (es : list (str * str)) (texts : list str) :
  List.length es = List.length texts ->
  map (fun et => fst (remote_file self et)) (combine es texts) = map fst es.
Proof.
  intros H. rewrite <- (map_fst_combine es texts H) at 2.
  rewrite map_map. reflexivity.
Qed.

Lemma texts_length (rs : list response) (texts : list str) :
  map file_text rs = map (@Returned _) texts ->
  List.length rs = List.length texts.
Proof.
  intros Ht. apply (f_equal (@List.length _)) in Ht.
  now rewrite !length_map in Ht.
Qed.

(** X14. Download reads what the remote manifest lists: when the text
    fetched for [.master] has, after its first line, lines of at least
    three fields, [readRemoteFiles] fetches [.master] and then the first
    field of every line, in order and once each, and returns for each
    name the third field with [~] resolved and the text fetched. *)
Theorem readRemoteFiles_fetches_every_entry (es : list (str * str))
  (r0 : response) (rs : list response) (m : str) (texts : list str)
  (rest : list (option response)) :
  file_text r0 = Returned m ->
  map entry_fields (tl (split_on NL (strip m))) = map (@Some _) es ->
  map file_text rs = map (@Returned _) texts ->
  List.length rs = List.length es ->
  distinct (map fst es) = true ->
  run (replay (map (@Some _) (r0 :: rs) ++ rest)) [] (readRemoteFiles self)
  = (Returned (map (remote_file self) (combine es texts)),
     (fetch_request self masterFile, Some r0) :: fetch_exchanges self es rs).
Proof.
  intros H0 Hl Ht Hn Hd.
  rewrite (@run_readRemoteFiles es r0 rs m texts rest) by assumption.
  do 2 f_equal. unfold remote_dict.
  rewrite (@fold_dict_set_distinct _ _
             (fun et => fst (remote_file self et))
             (fun et => snd (remote_file self et))).
  - cbn [app]. apply map_ext. now intros [[r l] t].
  - cbn [map app]. rewrite remote_names; [exact Hd|].
    apply texts_length in Ht. lia.
Qed.

End Download.

Section DownloadExamples.

Lemma readRemoteFiles_fetches_every_entry_example :
  run (replay (map (@Some _)
                 [text_answer hand_manifest; text_answer (py "A");
                  text_answer (py "hello")]))
      [] (readRemoteFiles alice)
  = (Returned [(py "a", mk_fileRec (py "/tmp/a") (py "A"));
               (py "notes.txt",
                mk_fileRec (py "/home/alice/notes.txt") (py "hello"))],
     [(fetch_request alice masterFile, Some (text_answer hand_manifest));
      (fetch_request alice (py "a"), Some (text_answer (py "A")));
      (fetch_request alice (py "notes.txt"),
       Some (text_answer (py "hello")))]).
Proof.
  rewrite <- (app_nil_r (map _ _)).
  exact (@readRemoteFiles_fetches_every_entry alice
           [(py "a", py "/tmp/a"); (py "notes.txt", py "~/notes.txt")]
           (text_answer hand_manifest)
           [text_answer (py "A"); text_answer (py "hello")]
           hand_manifest [py "A"; py "hello"] []
           eq_refl eq_refl eq_refl eq_refl eq_refl).
Defined.

End DownloadExamples.

(* ===================================================================== *)
(** * Counting the requests of an upload *)
(* ===================================================================== *)

Section RequestCount.

Lemma sends_mono {A} (n m : nat) (p : prog A) :
  n <= m -> sends_at_most n p -> sends_at_most m p.
Proof.
  intros Hle H. revert m Hle.
  induction H as [n a|n e|n q k Hk IH]; intros m Hle; try constructor.
  destruct m as [|m]; [lia|]. constructor. intros r. apply IH. lia.
Qed.

Lemma sends_bind {A B} (n m k : nat) (p : prog A) (f : A -> prog B) :
  sends_at_most n p -> (forall a, sends_at_most m (f a)) -> n + m <= k ->
  sends_at_most k (bind p f).
Proof.
  intros Hp Hf. revert k.
  induction Hp as [n a|n e|n q c Hc IH]; intros k Hk; cbn [bind].
  - apply sends_mono with (n := m); [lia|apply Hf].
  - constructor.
  - destruct k as [|k]; [lia|]. constructor. intros r. apply IH. lia.
Qed.

Lemma sends_lift {A} (n : nat) (o : outcome A) : sends_at_most n (lift o).
Proof. destruct o; constructor. Qed.

Lemma sends_queryAPI (self : GitHubRepo) (url : str) (j : json)
  (name : str) (wantJson : bool) :
  sends_at_most 1 (_queryAPI self url j name wantJson).
Proof.
  unfold _queryAPI.
  repeat match goal with
         | |- context [if eqb_str ?a ?b then _ else _] =>
             destruct (eqb_str a b)
         end;
    try constructor; intros r;
    destruct (negb wantJson); try constructor;
    destruct (json_body r); constructor.
Qed.

(** A run sends no more than the program can. *)
Lemma run_sends {A} (n : nat) (p : prog A) :
  sends_at_most n p ->
  forall P h, List.length (snd (run P h p)) <= n.
Proof.
  induction 1 as [n a|n e|n q k Hk IH]; intros P h; cbn [run snd List.length];
    try lia.
  destruct (P h q) as [r|]; cbn [snd List.length]; [|lia].
  specialize (IH r P (h ++ [(q, Some r)])).
  destruct (run P (h ++ [(q, Some r)]) (k r)) as [o t].
  cbn [snd List.length] in *. lia.
Qed.

Variable render : json -> str.
Variable self : GitHubRepo.

Lemma sends_createNewBlob (content : str) :
  sends_at_most 1 (_createNewBlob self content).
Proof.
  unfold _createNewBlob.
  apply sends_bind with (n := 0) (m := 1); [apply sends_lift| |lia].
  intros bs.
  apply sends_bind with (n := 1) (m := 0); [apply sends_queryAPI| |lia].
  intros r. apply sends_lift.
Qed.

Lemma sends_blobs (files : registeredFiles) (acc : list json) :
  sends_at_most (List.length files) (writeRemoteFiles_blobs self files acc).
Proof.
  revert acc. induction files as [|[name file] files IH]; intros acc;
    cbn [writeRemoteFiles_blobs List.length]; [constructor|].
  apply sends_bind with (n := 1) (m := List.length files);
    [apply sends_createNewBlob| |lia].
  intros sha. apply IH.
Qed.

Lemma sends_getPreviousCommit : sends_at_most 1 (_getPreviousCommit self).
Proof.
  unfold _getPreviousCommit.
  apply sends_bind with (n := 1) (m := 0); [apply sends_queryAPI| |lia].
  intros [res|j]; [|constructor].
  destruct (status_code res =? 409)%Z; [constructor|].
  destruct (json_body res); [apply sends_lift|constructor].
Qed.

Lemma sends_createFile (contents path message branch : str) :
  sends_at_most 1 (_createFile self contents path message branch).
Proof.
  unfold _createFile.
  apply sends_bind with (n := 0) (m := 1); [apply sends_lift| |lia].
  intros bs.
  apply sends_bind with (n := 1) (m := 0); [apply sends_queryAPI| |lia].
  intros r. apply sends_lift.
Qed.

Lemma sends_commitTree (t prev : json) (message : str) :
  sends_at_most 1 (_commitTree self t prev message).
Proof.
  unfold _commitTree.
  apply sends_bind with (n := 1) (m := 0); [apply sends_queryAPI| |lia].
  intros r. apply sends_lift.
Qed.

Lemma sends_updateTree (t : json) (blobs : list json) :
  sends_at_most 1 (_updateTree self t blobs).
Proof.
  unfold _updateTree.
  apply sends_bind with (n := 1) (m := 0); [apply sends_queryAPI| |lia].
  intros r. apply sends_lift.
Qed.

Lemma sends_updateBranchReference (c : json) (force : bool) :
  sends_at_most 1 (_updateBranchReference self c force).
Proof.
  unfold _updateBranchReference.
  apply sends_bind with (n := 1) (m := 0); [apply sends_queryAPI| |lia].
  intros r. constructor.
Qed.

Lemma sends_createBranch (name : str) :
  sends_at_most 3 (_createBranch self name).
Proof.
  unfold _createBranch.
  apply sends_bind with (n := 1) (m := 2); [apply sends_createFile| |lia].
  intros _.
  apply sends_bind with (n := 1) (m := 1); [apply sends_commitTree| |lia].
  intros c. apply sends_updateBranchReference.
Qed.

Lemma sends_getBranchTree (prev : json) :
  sends_at_most 2 (_getBranchTree render self prev).
Proof.
  unfold _getBranchTree.
  apply sends_bind with (n := 1) (m := 1); [apply sends_queryAPI| |lia].
  intros r.
  apply sends_bind with (n := 0) (m := 1); [apply sends_lift| |lia].
  intros u.
  apply sends_bind with (n := 1) (m := 0); [apply sends_queryAPI| |lia].
  intros r'. apply sends_lift.
Qed.

Lemma sends_getFile (path : str) : sends_at_most 1 (getFile self path).
Proof.
  unfold getFile.
  apply sends_bind with (n := 1) (m := 0); [apply sends_queryAPI| |lia].
  intros [res|j]; [apply sends_lift|].
  destruct j; try apply sends_lift. constructor.
Qed.

Lemma sends_writeRemoteFiles (files : registeredFiles) :
  sends_at_most (List.length files + 10)
                (writeRemoteFiles render self files).
Proof.
  unfold writeRemoteFiles.
  apply sends_bind with (n := List.length files) (m := 10);
    [apply sends_blobs| |lia].
  intros blobs.
  apply sends_bind with (n := 1) (m := 9);
    [apply sends_getPreviousCommit| |lia].
  intros prev.
  apply sends_bind with (n := 4) (m := 5); [| |lia].
  { destruct (is_none prev); [|constructor].
    apply sends_bind with (n := 3) (m := 1);
      [apply sends_createBranch| |lia].
    intros _. apply sends_getPreviousCommit. }
  intros prev'.
  apply sends_bind with (n := 2) (m := 3); [apply sends_getBranchTree| |lia].
  intros t.
  apply sends_bind with (n := 1) (m := 2); [apply sends_updateTree| |lia].
  intros t'.
  apply sends_bind with (n := 1) (m := 1); [apply sends_commitTree| |lia].
  intros c. apply sends_updateBranchReference.
Qed.

(** X16. An upload sends at most ten requests more than there are
    files, whatever the provider answers and whether it answers at all:
    one blob creation per file, and at most ten requests for the head,
    the bootstrap, the trees, the commit and the reference; no request
    is sent again after a failure. *)
Theorem upload_sends_bounded_requests (P : provider) (h : trace)
  (files : registeredFiles) :
  List.length (snd (run P h (writeRemoteFiles render self files)))
  <= List.length files + 10.
Proof. apply run_sends, sends_writeRemoteFiles. Qed.

End RequestCount.

(* ===================================================================== *)
(** * An upload that the provider rejects *)
(* ===================================================================== *)

Section RejectedBlob.

Variable render : json -> str.
Variable self : GitHubRepo.

(** A blob creation answered without [sha]. *)
Lemma run_createNewBlob_rejected (P : provider) (h : trace) (content : str)
  (res : response) (fields : list (str * json)) :
  is_encodable content = true ->
  P h (blob_create self content) = Some res ->
  json_body res = Some (JDict fields) ->
  lookup (py "sha") fields = None ->
  run P h (_createNewBlob self content)
  = (Raised (KeyError (py "sha")), [(blob_create self content, Some res)]).
Proof.
  unfold is_encodable, blob_create, encoded, _createNewBlob.
  destruct (Codec.encode content) as [bs|]; [|discriminate].
  intros _ HP Hj Hs. cbn [lift bind]. rewrite run_bind.
  rewrite (@run_queryAPI P h self (py "post") _ _ true POST eq_refl).
  rewrite HP, Hj. cbv beta iota. unfold qgetitem, getitem. now rewrite Hs.
Qed.

Lemma run_blobs_rejected (before : registeredFiles) :
  forall (after : registeredFiles) (name : str) (file : fileRec)
         (answers : list response) (shas : list json) (res : response)
         (fields : list (str * json))
         (rest pre : list (option response)) (h : trace) (acc : list json),
  forallb (fun kv : str * fileRec => is_encodable (contents (snd kv))) before
  = true ->
  is_encodable (contents file) = true ->
  Forall2 (fun res sha => carries [py "sha"] sha res) answers shas ->
  List.length answers = List.length before ->
  json_body res = Some (JDict fields) ->
  lookup (py "sha") fields = None ->
  List.length h = List.length pre ->
  run (replay (pre ++ map (@Some _) answers ++ Some res :: rest)) h
      (writeRemoteFiles_blobs self (before ++ (name, file) :: after) acc)
  = (Raised (KeyError (py "sha")),
     blob_exchanges self before answers
     ++ [(blob_create self (contents file), Some res)]).
Proof.
  induction before as [|[n0 f0] before IH];
    intros after name file answers shas res fields rest pre h acc
           He Hf Hs Hl Hj Hk Hh.
  - destruct answers; [|discriminate]. cbn [map app].
    cbn [writeRemoteFiles_blobs]. rewrite run_bind.
    erewrite run_createNewBlob_rejected; [reflexivity|exact Hf| |exact Hj|exact Hk].
    rewrite <- (app_nil_r h). rewrite replay_skip by assumption.
    reflexivity.
  - destruct answers as [|a answers]; [discriminate|].
    inversion Hs as [|? sha ? shas' Ha Hs']; subst.
    cbn [forallb] in He. apply andb_prop in He as [He1 He2].
    cbn [app writeRemoteFiles_blobs]. rewrite run_bind.
    erewrite run_createNewBlob; [|exact He1| |exact Ha].
    2:{ rewrite <- (app_nil_r h). cbn [map app].
        rewrite replay_skip by assumption. reflexivity. }
    cbn [map].
    replace (pre ++ (Some a :: map (@Some _) answers) ++ Some res :: rest)
      with ((pre ++ [Some a]) ++ map (@Some _) answers ++ Some res :: rest)
      by (now rewrite <- !app_assoc).
    rewrite (IH after name file answers shas' res fields rest
                (pre ++ [Some a])); try assumption.
    + reflexivity.
    + cbn [List.length] in Hl. lia.
    + rewrite !length_app. cbn [List.length]. lia.
Qed.

(** X17. An upload stops at the first blob the provider does not
    accept: when the answer to a blob creation is a JSON object without
    [sha] (the error object of a rejected token, for one), the upload
    raises [KeyError('sha')] with that exchange as its last; the blobs
    of the files before it were created, and nothing was asked about the
    branch, no tree, no commit and no reference update. *)
Theorem upload_stops_at_rejected_blob (before after : registeredFiles)
  (name : str) (file : fileRec) (answers : list response)
  (shas : list json) (res : response) (fields : list (str * json))
  (rest : list (option response)) :
  forallb (fun kv : str * fileRec => is_encodable (contents (snd kv)))
          (before ++ [(name, file)]) = true ->
  Forall2 (fun res sha => carries [py "sha"] sha res) answers shas ->
  List.length answers = List.length before ->
  json_body res = Some (JDict fields) ->
  lookup (py "sha") fields = None ->
  run (replay (map (@Some _) answers ++ Some res :: rest)) []
      (writeRemoteFiles render self (before ++ (name, file) :: after))
  = (Raised (KeyError (py "sha")),
     blob_exchanges self before answers
     ++ [(blob_create self (contents file), Some res)]).
Proof.
  intros He Hs Hl Hj Hk. rewrite forallb_app in He.
  apply andb_prop in He as [He Hf]. cbn [forallb snd] in Hf.
  rewrite andb_true_r in Hf.
  unfold writeRemoteFiles. rewrite run_bind.
  pose proof (@run_blobs_rejected before after name file answers shas res
                fields rest [] [] [] He Hf Hs Hl Hj Hk eq_refl) as Hrun.
  cbn [app] in Hrun. now rewrite Hrun.
Qed.

End RejectedBlob.

Section RejectedBlobExample.

Lemma upload_stops_at_rejected_blob_example :
  run (replay [Some (answer 201 [(py "sha", JStr (py "b1"))]);
               Some (answer 401 [(py "message",
                                  JStr (py "Bad credentials"))])])
      []
      (writeRemoteFiles render0 alice
         [(py "a", mk_fileRec (py "/tmp/a") (py "A"));
          (py "notes.txt",
           mk_fileRec (py "/home/alice/notes.txt") (py "hello"));
          (py "c", mk_fileRec (py "/tmp/c") (py "C"))])
  = (Raised (KeyError (py "sha")),
     [(blob_create alice (py "A"),
       Some (answer 201 [(py "sha", JStr (py "b1"))]));
      (blob_create alice (py "hello"),
       Some (answer 401 [(py "message", JStr (py "Bad credentials"))]))]).
Proof.
  refine (@upload_stops_at_rejected_blob render0 alice
           [(py "a", mk_fileRec (py "/tmp/a") (py "A"))]
           [(py "c", mk_fileRec (py "/tmp/c") (py "C"))]
           (py "notes.txt")
           (mk_fileRec (py "/home/alice/notes.txt") (py "hello"))
           [answer 201 [(py "sha", JStr (py "b1"))]]
           [JStr (py "b1")]
           (answer 401 [(py "message", JStr (py "Bad credentials"))])
           [(py "message", JStr (py "Bad credentials"))] []
           eq_refl _ eq_refl eq_refl eq_refl).
  repeat constructor.
Defined.

End RejectedBlobExample.

(* ===================================================================== *)
(** * What every request carries *)
(* ===================================================================== *)

Section RequestsCarry.

Variable render : json -> str.
Variable self : GitHubRepo.

Lemma queryHeaders_authorised (m : http_method) (url : str) (j : json) :
  authorised self (mk_request m url (queryHeaders self) j) = true.
Proof.
  unfold authorised, queryHeaders. cbn [headers lookup].
  change (eqb_str (py "Accept") (py "Authorization")) with false.
  change (eqb_str (py "Authorization") (py "Authorization")) with true.
  cbv iota. apply eqb_str_refl.
Qed.

Lemma careful_get (url : str) (j : json) :
  has_key (py "force") j = false ->
  careful self (mk_request GET url (queryHeaders self) j) = true.
Proof.
  intros Hj. unfold careful, builds_on_tree, unforced, is_tree_create.
  rewrite queryHeaders_authorised. cbn [method payload]. now rewrite Hj.
Qed.

Lemma careful_post (tail : str) (j : json) :
  eqb_str tail (py "/git/trees") = false
  \/ has_key (py "base_tree") j = true ->
  has_key (py "force") j = false ->
  careful self (mk_request POST (repoURL self ++ tail) (queryHeaders self) j)
  = true.
Proof.
  intros Ht Hj. unfold careful, builds_on_tree, unforced, is_tree_create.
  rewrite queryHeaders_authorised. cbn [method url payload].
  rewrite eqb_str_app_l, Hj.
  destruct Ht as [-> | ->]; [reflexivity|].
  now rewrite orb_true_r.
Qed.

Lemma careful_other (m : http_method) (url : str) (j : json) :
  m = PUT \/ m = PATCH ->
  has_key (py "force") j = false ->
  careful self (mk_request m url (queryHeaders self) j) = true.
Proof.
  intros Hm Hj. unfold careful, builds_on_tree, unforced, is_tree_create.
  rewrite queryHeaders_authorised. cbn [method payload]. rewrite Hj.
  now destruct Hm as [-> | ->].
Qed.

Lemma createNewBlob_careful (content : str) :
  calls_only (careful self) (_createNewBlob self content).
Proof.
  unfold _createNewBlob.
  apply calls_only_bind; [apply calls_only_lift|]. intros bs.
  apply calls_only_bind; [|intros r; apply calls_only_lift].
  apply calls_only_queryAPI. intros m H. injection H as <-.
  apply careful_post; [now left|reflexivity].
Qed.

Lemma blobs_careful (files : registeredFiles) :
  forall acc,
  calls_only (careful self) (writeRemoteFiles_blobs self files acc).
Proof.
  induction files as [|[name file] rest IH]; intros acc;
    cbn [writeRemoteFiles_blobs]; [exact I|].
  apply calls_only_bind; [apply createNewBlob_careful|].
  intros sha. apply IH.
Qed.

Lemma getPreviousCommit_careful :
  calls_only (careful self) (_getPreviousCommit self).
Proof.
  unfold _getPreviousCommit. apply calls_only_bind.
  - apply calls_only_queryAPI. intros m H. injection H as <-.
    now apply careful_get.
  - intros [res|j]; [|exact I].
    destruct (status_code res =? 409)%Z; [exact I|].
    destruct (json_body res); [apply calls_only_lift|exact I].
Qed.

Lemma createFile_careful (contents path message branch : str) :
  calls_only (careful self) (_createFile self contents path message branch).
Proof.
  unfold _createFile.
  apply calls_only_bind; [apply calls_only_lift|]. intros bs.
  apply calls_only_bind; [|intros r; apply calls_only_lift].
  apply calls_only_queryAPI. intros m H. injection H as <-.
  apply careful_other; [now left|reflexivity].
Qed.

Lemma commit_data_unforced (t prev : json) (message : str) :
  has_key (py "force") (commit_data t prev message) = false.
Proof. unfold commit_data. now destruct (is_none prev). Qed.

Lemma commitTree_careful (t prev : json) (message : str) :
  calls_only (careful self) (_commitTree self t prev message).
Proof.
  unfold _commitTree.
  apply calls_only_bind; [|intros r; apply calls_only_lift].
  apply calls_only_queryAPI. intros m H. injection H as <-.
  apply careful_post; [now left|apply commit_data_unforced].
Qed.

Lemma updateTree_careful (t : json) (blobs : list json) :
  calls_only (careful self) (_updateTree self t blobs).
Proof.
  unfold _updateTree.
  apply calls_only_bind; [|intros r; apply calls_only_lift].
  apply calls_only_queryAPI. intros m H. injection H as <-.
  apply careful_post; [now right|reflexivity].
Qed.

Lemma updateBranchReference_careful (c : json) :
  calls_only (careful self) (_updateBranchReference self c false).
Proof.
  unfold _updateBranchReference.
  apply calls_only_bind; [|intros r; exact I].
  apply calls_only_queryAPI. intros m H. injection H as <-.
  apply careful_other; [now right|reflexivity].
Qed.

Lemma createBranch_careful (name : str) :
  calls_only (careful self) (_createBranch self name).
Proof.
  unfold _createBranch.
  apply calls_only_bind; [apply createFile_careful|]. intros _.
  apply calls_only_bind; [apply commitTree_careful|]. intros c.
  apply updateBranchReference_careful.
Qed.

Lemma getBranchTree_careful (prev : json) :
  calls_only (careful self) (_getBranchTree render self prev).
Proof.
  unfold _getBranchTree.
  apply calls_only_bind.
  { apply calls_only_queryAPI. intros m H. injection H as <-.
    now apply careful_get. }
  intros r. apply calls_only_bind; [apply calls_only_lift|]. intros u.
  apply calls_only_bind; [|intros r'; apply calls_only_lift].
  apply calls_only_queryAPI. intros m H. injection H as <-.
  now apply careful_get.
Qed.

Lemma writeRemoteFiles_careful (files : registeredFiles) :
  calls_only (careful self) (writeRemoteFiles render self files).
Proof.
  unfold writeRemoteFiles.
  apply calls_only_bind; [apply blobs_careful|]. intros blobs.
  apply calls_only_bind; [apply getPreviousCommit_careful|]. intros prev.
  apply calls_only_bind.
  { destruct (is_none prev); [|exact I].
    apply calls_only_bind; [apply createBranch_careful|]. intros _.
    apply getPreviousCommit_careful. }
  intros prev'.
  apply calls_only_bind; [apply getBranchTree_careful|]. intros t.
  apply calls_only_bind; [apply updateTree_careful|]. intros t'.
  apply calls_only_bind; [apply commitTree_careful|]. intros c.
  apply updateBranchReference_careful.
Qed.

Lemma getFile_reading (path : str) :
  calls_only (reading self) (getFile self path).
Proof.
  unfold getFile. apply calls_only_bind.
  - apply calls_only_queryAPI. intros m H. injection H as <-.
    unfold reading. now rewrite queryHeaders_authorised.
  - intros [res|j]; [apply calls_only_lift|].
    destruct j; try apply calls_only_lift. exact I.
Qed.

Lemma readRemoteFiles_loop_reading (lines : list str) :
  forall acc, calls_only (reading self) (readRemoteFiles_loop self lines acc).
Proof.
  induction lines as [|line lines IH]; intros acc;
    cbn [readRemoteFiles_loop]; [exact I|].
  destruct (split_ws line) as [|t0 [|t1 [|t2 ws]]]; try exact I.
  apply calls_only_bind; [apply getFile_reading|]. intros c. apply IH.
Qed.

Lemma readRemoteFiles_reading :
  calls_only (reading self) (readRemoteFiles self).
Proof.
  unfold readRemoteFiles.
  apply calls_only_bind; [apply getFile_reading|]. intros text.
  apply readRemoteFiles_loop_reading.
Qed.

Lemma forallb_impl {A} (p q : A -> bool) (l : list A) :
  (forall a, p a = true -> q a = true) ->
  forallb p l = true -> forallb q l = true.
Proof.
  intros Hpq. induction l as [|a l IH]; [reflexivity|].
  cbn [forallb]. intros H. apply andb_prop in H as [Ha Hl].
  now rewrite (Hpq a Ha), IH.
Qed.

(** X18. What an upload never asks for, whatever the provider answers:
    no request carries [force] (the reference update is left to the
    provider to refuse when it is no fast-forward), and every tree it
    creates names a [base_tree]: [_createTree], which names none, is
    never used. *)
Theorem upload_never_forces_or_replaces (P : provider) (h : trace)
  (files : registeredFiles) :
  forallb (fun ev : event => unforced (fst ev) && builds_on_tree self (fst ev))
          (snd (run P h (writeRemoteFiles render self files))) = true.
Proof.
  apply forallb_impl
    with (p := fun ev : event => careful self (fst ev)).
  - intros ev H. unfold careful in H.
    apply andb_prop in H as [H Hu]. apply andb_prop in H as [_ Hb].
    now rewrite Hu, Hb.
  - apply calls_only_run, writeRemoteFiles_careful.
Qed.

(** X19. A download only reads: every request [readRemoteFiles] sends,
    whatever the provider answers, is a [GET]. *)
Theorem download_only_reads (P : provider) (h : trace) :
  forallb (fun ev : event => is_get (fst ev))
          (snd (run P h (readRemoteFiles self))) = true.
Proof.
  apply forallb_impl
    with (p := fun ev : event => reading self (fst ev)).
  - intros ev H. unfold reading in H. now apply andb_prop in H.
  - apply calls_only_run, readRemoteFiles_reading.
Qed.

(** X20. Every request of an upload and of a download carries the
    access token of the instance in its [Authorization] header, the
    request to the tree URL that the provider's answer names
    included. *)
Theorem every_request_carries_token (P : provider) (h : trace)
  (files : registeredFiles) :
  forallb (fun ev : event => authorised self (fst ev))
          (snd (run P h (writeRemoteFiles render self files))) = true
  /\ forallb (fun ev : event => authorised self (fst ev))
             (snd (run P h (readRemoteFiles self))) = true.
Proof.
  split.
  - apply forallb_impl
      with (p := fun ev : event => careful self (fst ev)).
    + intros ev H. unfold careful in H.
      apply andb_prop in H as [H _]. now apply andb_prop in H.
    + apply calls_only_run, writeRemoteFiles_careful.
  - apply forallb_impl
      with (p := fun ev : event => reading self (fst ev)).
    + intros ev H. unfold reading in H. now apply andb_prop in H.
    + apply calls_only_run, readRemoteFiles_reading.
Qed.

End RequestsCarry.

(* ===================================================================== *)
(** * The tree of an upload *)
(* ===================================================================== *)

Section UploadedTree.

Variable render : json -> str.
Variable self : GitHubRepo.

Lemma trees_requested_app (a b : trace) :
  trees_requested self (a ++ b)
  = trees_requested self a ++ trees_requested self b.
Proof. unfold trees_requested. now rewrite map_app, filter_app. Qed.

Lemma blob_create_no_tree (content : str) :
  is_tree_create self (blob_create self content) = false.
Proof.
  unfold is_tree_create, blob_create. simpl. now rewrite eqb_str_app_l.
Qed.

Lemma commit_create_no_tree (t prev : json) (msg : str) :
  is_tree_create self (commit_create self t prev msg) = false.
Proof.
  unfold is_tree_create, commit_create. simpl. now rewrite eqb_str_app_l.
Qed.

Lemma tree_update_is_tree (t : json) (blobs : list json) :
  is_tree_create self (tree_update self t blobs) = true.
Proof.
  unfold is_tree_create, tree_update. simpl. apply eqb_str_refl.
Qed.

Lemma trees_requested_blobs (files : registeredFiles)
  (answers : list response) :
  trees_requested self (blob_exchanges self files answers) = [].
Proof.
  unfold trees_requested, blob_exchanges.
  induction (combine files answers) as [|p l IH]; [reflexivity|].
  cbn [map filter fst]. now rewrite blob_create_no_tree.
Qed.

Lemma trees_requested_upload
  (hd tree_url base_tree new_tree new_commit : json) (blobs : list json)
  (r_commit r_tree r_newtree r_new r_upd : response) :
  trees_requested self
    (upload_exchanges render self hd tree_url base_tree new_tree new_commit
       blobs r_commit r_tree r_newtree r_new r_upd)
  = [tree_update self base_tree blobs].
Proof.
  unfold trees_requested, upload_exchanges. cbn [map fst filter].
  rewrite tree_update_is_tree, commit_create_no_tree. reflexivity.
Qed.

(** X21. The tree of a successful upload onto a branch with a head: the
    upload asks for one tree, built on the tree of the head commit, that
    lists every file of the dictionary once and in its order, under its
    remote name, as a blob of mode [100644] with the sha the provider
    gave for its content. *)
Theorem upload_lists_every_file (files : registeredFiles)
  (answers : list response) (shas : list json)
  (r_ref r_commit r_tree r_newtree r_new r_upd : response)
  (hd tree_url base_tree new_tree new_commit : json) :
  forallb (fun kv : str * fileRec => is_encodable (contents (snd kv))) files
  = true ->
  Forall2 (fun res sha => carries [py "sha"] sha res) answers shas ->
  List.length answers = List.length files ->
  no_head r_ref = false ->
  carries [py "object"; py "sha"] hd r_ref ->
  carries [py "commit"; py "tree"; py "url"] tree_url r_commit ->
  carries [py "sha"] base_tree r_tree ->
  carries [py "sha"] new_tree r_newtree ->
  carries [py "sha"] new_commit r_new ->
  json_body r_upd <> None ->
  trees_requested self
    (snd (run (replay (map (@Some _)
                         (answers ++ [r_ref; r_commit; r_tree; r_newtree;
                                      r_new; r_upd])))
              [] (writeRemoteFiles render self files)))
  = [mk_request POST (repoURL self ++ py "/git/trees") (queryHeaders self)
       (JDict
          [(py "base_tree", base_tree);
           (py "tree",
            JList (map (fun p : (str * fileRec) * json =>
                          JDict [(py "path", JStr (fst (fst p)));
                                 (py "mode", JStr (py "100644"));
                                 (py "type", JStr (py "blob"));
                                 (py "sha", snd p)])
                       (combine files shas)))])].
Proof.
  intros He Hs Hl Hn Hhd Hc Ht Hnt Hnc Hu.
  rewrite (@upload_head_trace render self files answers shas r_ref r_commit
             r_tree r_newtree r_new r_upd hd tree_url base_tree new_tree
             new_commit) by assumption.
  cbn [snd].
  change ((ref_read self, Some r_ref) :: ?t)
    with ([(ref_read self, Some r_ref)] ++ t).
  rewrite !trees_requested_app, trees_requested_blobs,
    trees_requested_upload.
  reflexivity.
Qed.

End UploadedTree.

Section UploadedTreeExample.

Lemma upload_lists_every_file_example :
  trees_requested alice
    (snd (run (replay (map (@Some _)
                         [sha_answer 201 "b1"; ref_answer "c0";
                          commit_answer "c0" (py "t0"); sha_answer 200 "t0";
                          sha_answer 201 "t1"; sha_answer 201 "c1";
                          updated_answer "c1"]))
              [] (writeRemoteFiles render0 alice notes_files)))
  = [mk_request POST (repoURL alice ++ py "/git/trees") (queryHeaders alice)
       (JDict
          [(py "base_tree", JStr (py "t0"));
           (py "tree",
            JList [JDict [(py "path", JStr (py "notes.txt"));
                          (py "mode", JStr (py "100644"));
                          (py "type", JStr (py "blob"));
                          (py "sha", JStr (py "b1"))]])])].
Proof.
  refine (@upload_lists_every_file render0 alice notes_files
            [sha_answer 201 "b1"] [JStr (py "b1")]
            (ref_answer "c0") (commit_answer "c0" (py "t0"))
            (sha_answer 200 "t0") (sha_answer 201 "t1")
            (sha_answer 201 "c1") (updated_answer "c1")
            (JStr (py "c0"))
            (JStr (repoURL alice ++ py "/git/trees/" ++ py "t0"))
            (JStr (py "t0")) (JStr (py "t1")) (JStr (py "c1"))
            eq_refl _ eq_refl eq_refl eq_refl eq_refl eq_refl eq_refl
            eq_refl _).
  - repeat constructor.
  - discriminate.
Defined.

End UploadedTreeExample.

(* ===================================================================== *)
(** * Creating a repository from the menu *)
(* ===================================================================== *)

Section CreateNewRepo.

Variable render : json -> str.



(** X23. Without a [.env] file [createNewRepo] fails before it sends
    anything: answered that a token is configured, it raises
    [FileNotFoundError] (which it does not catch, unlike
    [connectToGitHubRepo]), sends no request and writes no file. *)
Theorem createNewRepo_without_env_raises (P : provider) (h : trace)
  (username repoName hasToken typed home : str) (f : fs) :
  reserved username = false ->
  reserved repoName = false ->
  reserved hasToken = false ->
  eqb_str hasToken (py "n") || eqb_str hasToken (py "no") = false ->
  f (py ".env") = None ->
  fst (createNewRepo render username repoName hasToken typed home f) = f
  /\ run P h (snd (createNewRepo render username repoName hasToken typed
                     home f))
     = (Raised FileNotFoundError, []).
Proof.
  intros Hu Hr Hh Hn Hf. unfold createNewRepo. rewrite Hu, Hr, Hh, Hn.
  cbn [fst snd]. split; [reflexivity|].
  unfold readEnvFile, readline, readlines, read_text. now rewrite Hf.
Qed.

End CreateNewRepo.

Section CreateNewRepoExamples.


Lemma createNewRepo_without_env_raises_example :
  run (replay []) []
      (snd (createNewRepo render0 (py "alice") (py "backup") (py "y") []
              (py "/home/alice") fresh_fs))
  = (Raised FileNotFoundError, []).
Proof.
  exact (proj2 (@createNewRepo_without_env_raises render0 (replay []) []
                  (py "alice") (py "backup") (py "y") [] (py "/home/alice")
                  fresh_fs eq_refl eq_refl eq_refl eq_refl eq_refl)).
Defined.

End CreateNewRepoExamples.

(* ===================================================================== *)
(** * Text, UTF-8 and base64 *)
(* ===================================================================== *)

Section CodecFacts.
Import Codec.
Local Open Scope N_scope.

Lemma all_upto_spec (n : nat) (p : N -> bool) :
  all_upto n p = true -> forall x, x < N.of_nat n -> p x = true.
Proof.
  induction n as [|k IH]; intros H x Hx.
  - simpl in Hx. lia.
  - simpl in H. apply andb_prop in H as [Hk H].
    destruct (N.eq_dec x (N.of_nat k)) as [->|Hne]; [assumption|].
    apply IH; [assumption|lia].
Qed.

(** Two numbers below 256 at once. *)
Lemma all_bytes2 (p : N -> N -> bool) :
  all_upto 256 (fun a => all_upto 256 (p a)) = true ->
  forall a b, a < 256 -> b < 256 -> p a b = true.
Proof.
  intros H a b Ha Hb.
  apply (all_upto_spec 256 (p a)); [|exact Hb].
  now apply (all_upto_spec 256 (fun a => all_upto 256 (p a))).
Qed.

(** Bits that do not overlap add up. *)
Lemma lor_add (hi lo n : N) :
  lo < 2 ^ n -> N.lor (hi * 2 ^ n) lo = hi * 2 ^ n + lo.
Proof.
  intros Hlo.
  assert (H0 : N.land (hi * 2 ^ n) lo = 0).
  { apply N.bits_inj_0. intros k. rewrite N.land_spec.
    destruct (N.lt_ge_cases k n) as [Hk|Hk].
    - now rewrite N.mul_pow2_bits_low.
    - destruct (N.eq_dec lo 0) as [->|Hne].
      + now rewrite N.bits_0, andb_false_r.
      + rewrite (N.bits_above_log2 lo k), andb_false_r; [reflexivity|].
        apply N.lt_le_trans with (m := n); [|exact Hk].
        apply N.log2_lt_pow2; [lia|exact Hlo]. }
  now rewrite <- N.lxor_lor, <- N.add_nocarry_lxor.
Qed.

Lemma lead4 (a : N) :
  a <= 4 -> N.lor 240 a = 240 + a /\ N.land (240 + a) 7 = a.
Proof.
  intros Ha.
  assert (H : a = 0 \/ a = 1 \/ a = 2 \/ a = 3 \/ a = 4) by lia.
  destruct H as [->|[->|[->|[->| ->]]]]; split; reflexivity.
Qed.

Lemma cont6 (m : N) :
  m < 64 -> N.lor 128 m = 128 + m /\ N.land (128 + m) 63 = m.
Proof.
  intros Hm.
  assert (H : all_upto 64 (fun m => (N.lor 128 m =? 128 + m)
                                    && (N.land (128 + m) 63 =? m)) = true)
    by reflexivity.
  pose proof (@all_upto_spec 64 _ H m Hm) as Hb. cbv beta in Hb.
  apply andb_prop in Hb as [H1 H2].
  now apply N.eqb_eq in H1; apply N.eqb_eq in H2.
Qed.

(** The four parts of a code point. *)
Lemma split4 (c : N) :
  c < 1114112 ->
  exists a m1 m2 m3,
    c = a * 262144 + m1 * 4096 + m2 * 64 + m3
    /\ a <= 4 /\ m1 < 64 /\ m2 < 64 /\ m3 < 64.
Proof.
  intros Hc.
  pose proof (N.div_mod c 64) as E1.
  pose proof (N.mod_lt c 64) as L1.
  pose proof (N.div_mod (c / 64) 64) as E2.
  pose proof (N.mod_lt (c / 64) 64) as L2.
  pose proof (N.div_mod (c / 64 / 64) 64) as E3.
  pose proof (N.mod_lt (c / 64 / 64) 64) as L3.
  exists (c / 64 / 64 / 64), ((c / 64 / 64) mod 64), ((c / 64) mod 64),
         (c mod 64).
  generalize dependent (c / 64 / 64 / 64).
  generalize dependent ((c / 64 / 64) mod 64).
  generalize dependent (c / 64 / 64).
  generalize dependent ((c / 64) mod 64).
  generalize dependent (c / 64).
  generalize dependent (c mod 64).
  intros. lia.
Qed.

Lemma shiftr_parts (hi lo n : N) :
  lo < 2 ^ n -> N.shiftr (hi * 2 ^ n + lo) n = hi.
Proof.
  intros Hlo. rewrite N.shiftr_div_pow2. symmetry.
  apply N.div_unique with (r := lo); [exact Hlo|lia].
Qed.

Lemma land63_parts (hi lo : N) :
  lo < 64 -> N.land (hi * 64 + lo) 63 = lo.
Proof.
  intros Hlo. change 63 with (N.ones 6). rewrite N.land_ones.
  change (2 ^ 6) with 64. symmetry.
  apply N.mod_unique with (q := hi); [exact Hlo|lia].
Qed.

Lemma utf8_char_four (a m1 m2 m3 : N) :
  a <= 4 -> m1 < 64 -> m2 < 64 -> m3 < 64 ->
  65536 <= a * 262144 + m1 * 4096 + m2 * 64 + m3 < 1114112 ->
  utf8_char (a * 262144 + m1 * 4096 + m2 * 64 + m3)
  = Some [240 + a; 128 + m1; 128 + m2; 128 + m3].
Proof.
  intros Ha H1 H2 H3 Hc. set (c := a * 262144 + m1 * 4096 + m2 * 64 + m3).
  unfold utf8_char.
  assert ((c <? 128) = false) as -> by (apply N.ltb_ge; lia).
  assert ((c <? 2048) = false) as -> by (apply N.ltb_ge; lia).
  assert ((c <? 65536) = false) as -> by (apply N.ltb_ge; lia).
  assert ((c <? 1114112) = true) as -> by (apply N.ltb_lt; lia).
  assert (E18 : N.shiftr c 18 = a).
  { replace c with (a * 2 ^ 18 + (m1 * 4096 + m2 * 64 + m3))
      by (change (2 ^ 18) with 262144; unfold c; lia).
    apply shiftr_parts. change (2 ^ 18) with 262144. lia. }
  assert (E12 : N.shiftr c 12 = a * 64 + m1).
  { replace c with ((a * 64 + m1) * 2 ^ 12 + (m2 * 64 + m3))
      by (change (2 ^ 12) with 4096; unfold c; lia).
    apply shiftr_parts. change (2 ^ 12) with 4096. lia. }
  assert (E6 : N.shiftr c 6 = (a * 4096 + m1 * 64) + m2).
  { replace c with ((a * 4096 + m1 * 64 + m2) * 2 ^ 6 + m3)
      by (change (2 ^ 6) with 64; unfold c; lia).
    apply shiftr_parts. change (2 ^ 6) with 64. lia. }
  rewrite E18, E12, E6.
  replace (a * 4096 + m1 * 64 + m2) with ((a * 64 + m1) * 64 + m2) by lia.
  replace (N.land c 63) with m3
    by (symmetry; replace c with ((a * 4096 + m1 * 64 + m2) * 64 + m3)
          by (unfold c; lia); now apply land63_parts).
  rewrite !land63_parts by assumption.
  destruct (lead4 Ha) as [-> _].
  destruct (cont6 H1) as [-> _]. destruct (cont6 H2) as [-> _].
  destruct (cont6 H3) as [-> _]. reflexivity.
Qed.

Ltac decide_tests :=
  repeat match goal with
         | |- context [N.eqb ?x ?y] =>
             destruct (N.eqb_spec x y); try lia
         | |- context [N.ltb ?x ?y] =>
             first [ replace (x <? y) with true
                       by (symmetry; apply N.ltb_lt; lia)
                   | replace (x <? y) with false
                       by (symmetry; apply N.ltb_ge; lia) ]
         | |- context [N.leb ?x ?y] =>
             first [ replace (x <=? y) with true
                       by (symmetry; apply N.leb_le; lia)
                   | replace (x <=? y) with false
                       by (symmetry; apply N.leb_gt; lia) ]
         end.

Lemma decode_four (a m1 m2 m3 : N) :
  a <= 4 -> m1 < 64 -> m2 < 64 -> m3 < 64 ->
  65536 <= a * 262144 + m1 * 4096 + m2 * 64 + m3 < 1114112 ->
  decode [240 + a; 128 + m1; 128 + m2; 128 + m3]
  = Returned [a * 262144 + m1 * 4096 + m2 * 64 + m3].
Proof.
  intros Ha H1 H2 H3 Hc.
  assert (Hv : N.lor (N.shiftl (N.land (240 + a) 7) 18)
                 (N.lor (N.shiftl (low6 (128 + m1)) 12)
                    (N.lor (N.shiftl (low6 (128 + m2)) 6)
                       (low6 (128 + m3))))
               = a * 262144 + m1 * 4096 + m2 * 64 + m3).
  { unfold low6. destruct (lead4 Ha) as [_ ->].
    destruct (cont6 H1) as [_ ->]. destruct (cont6 H2) as [_ ->].
    destruct (cont6 H3) as [_ ->].
    rewrite !N.shiftl_mul_pow2.
    rewrite (@lor_add m2 m3 6) by (change (2 ^ 6) with 64; lia).
    rewrite (@lor_add m1 (m2 * 2 ^ 6 + m3) 12)
      by (change (2 ^ 12) with 4096; change (2 ^ 6) with 64; lia).
    rewrite (@lor_add a (m1 * 2 ^ 12 + (m2 * 2 ^ 6 + m3)) 18)
      by (change (2 ^ 18) with 262144; change (2 ^ 12) with 4096;
          change (2 ^ 6) with 64; lia).
    change (2 ^ 18) with 262144. change (2 ^ 12) with 4096.
    change (2 ^ 6) with 64. lia. }
  cbn [decode]. rewrite Hv. unfold cont, in_range.
  decide_tests; cbn [andb]; try reflexivity.
Qed.

Lemma utf8_char_ok_high (c : char) :
  65536 <= c -> c < 1114112 -> utf8_char_ok c = true.
Proof.
  intros Hlo Hhi.
  destruct (split4 Hhi) as (a & m1 & m2 & m3 & -> & Ha & H1 & H2 & H3).
  unfold utf8_char_ok.
  rewrite utf8_char_four, decode_four by (assumption || lia).
  rewrite N.eqb_refl. cbn [forallb andb].
  decide_tests. reflexivity.
Qed.

(** Encoding a code point and decoding the bytes gives the code point
    back: below 65536 by running through the code points, above by the
    arithmetic of the four bytes. *)
Lemma utf8_char_ok_all (c : char) : utf8_char_ok c = true.
Proof.
  destruct (N.ltb_spec c 65536) as [Hc|Hc].
  - assert (H : all_upto 256 (fun hi =>
                  all_upto 256 (fun lo => utf8_char_ok (hi * 256 + lo)))
                = true) by (vm_compute; reflexivity).
    rewrite (N.div_mod c 256) by lia. rewrite N.mul_comm.
    apply (@all_bytes2 (fun hi lo => utf8_char_ok (hi * 256 + lo)) H).
    + apply N.Div0.div_lt_upper_bound. simpl. lia.
    + apply N.mod_lt. lia.
  - destruct (N.ltb_spec c 1114112) as [Hc'|Hc'].
    + now apply utf8_char_ok_high.
    + unfold utf8_char_ok, utf8_char.
      assert ((c <? 128) = false) as -> by (apply N.ltb_ge; lia).
      assert ((c <? 2048) = false) as -> by (apply N.ltb_ge; lia).
      assert ((c <? 65536) = false) as -> by (apply N.ltb_ge; lia).
      assert ((c <? 1114112) = false) as -> by (apply N.ltb_ge; lia).
      reflexivity.
Qed.

End CodecFacts.

Section Utf8RoundTrip.
Import Codec.
Local Open Scope N_scope.

Lemma utf8_char_decodes (c : char) (bs : bytes) :
  utf8_char c = Some bs ->
  decode bs = Returned [c] /\ forallb (fun b => b <? 256) bs = true.
Proof.
  intros H. pose proof (utf8_char_ok_all c) as Hok.
  unfold utf8_char_ok in Hok. rewrite H in Hok.
  apply andb_prop in Hok as [Hd Hb]. split; [|exact Hb].
  destruct (decode bs) as [[|d [|? ?]]|]; try discriminate.
  apply N.eqb_eq in Hd. now subst.
Qed.

(** Decoding goes through a text that decodes and on to what follows. *)
Lemma decode_app (n : nat) :
  forall (a : bytes) (x : str),
  (List.length a <= n)%nat ->
  decode a = Returned x ->
  forall b, decode (a ++ b) = omap (app x) (decode b).
Proof.
  induction n as [|n IH]; intros a x Hn Ha b.
  - destruct a; [|simpl in Hn; lia]. injection Ha as <-.
    simpl. now destruct (decode b).
  - destruct a as [|b0 t0].
    { injection Ha as <-. simpl. now destruct (decode b). }
    simpl in Ha. simpl app. cbn [decode].
    destruct (b0 <? 128).
    { destruct (decode t0) as [y|] eqn:E; [|discriminate].
      injection Ha as <-.
      rewrite (IH t0 y) by (simpl in Hn; auto; lia).
      now destruct (decode b). }
    destruct (in_range 194 223 b0).
    { destruct t0 as [|b1 t1]; [discriminate|]. cbn [app].
      destruct (cont b1); [|discriminate].
      destruct (decode t1) as [y|] eqn:E; [|discriminate].
      injection Ha as <-.
      rewrite (IH t1 y) by (simpl in Hn; auto; lia).
      now destruct (decode b). }
    destruct (in_range 224 239 b0).
    { destruct t0 as [|b1 [|b2 t2]]; try discriminate. cbn [app].
      destruct (in_range _ _ b1 && cont b2); [|discriminate].
      destruct (decode t2) as [y|] eqn:E; [|discriminate].
      injection Ha as <-.
      rewrite (IH t2 y) by (simpl in Hn; auto; lia).
      now destruct (decode b). }
    destruct (in_range 240 244 b0); [|discriminate].
    destruct t0 as [|b1 [|b2 [|b3 t3]]]; try discriminate. cbn [app].
    destruct (in_range _ _ b1 && cont b2 && cont b3); [|discriminate].
    destruct (decode t3) as [y|] eqn:E; [|discriminate].
    injection Ha as <-.
    rewrite (IH t3 y) by (simpl in Hn; auto; lia).
    now destruct (decode b).
Qed.

(** What [str.encode()] gives, [bytes.decode('utf-8')] reads back. *)
Lemma encode_decode (s : str) (bs : bytes) :
  encode s = Returned bs ->
  decode bs = Returned s /\ forallb (fun b => b <? 256) bs = true.
Proof.
  revert bs. induction s as [|c t IH]; intros bs H.
  - injection H as <-. now split.
  - simpl in H. destruct (utf8_char c) as [b1|] eqn:Ec; [|discriminate].
    destruct (encode t) as [b2|]; [|discriminate].
    injection H as <-.
    destruct (utf8_char_decodes c Ec) as [Hd Hb].
    destruct (IH b2 eq_refl) as [Hd2 Hb2]. split.
    + rewrite (@decode_app (List.length b1) b1 [c] (le_n _) Hd), Hd2.
      reflexivity.
    + now rewrite forallb_app, Hb, Hb2.
Qed.

End Utf8RoundTrip.

Section Base64RoundTrip.
Import Codec.
Local Open Scope N_scope.

Lemma b64_char_value (v : N) :
  v < 64 ->
  b64_value (b64_char v) = Some v
  /\ (b64_char v =? PAD) = false
  /\ (b64_char v <? 128) = true.
Proof.
  intros Hv.
  assert (H : all_upto 64 (fun v =>
                match b64_value (b64_char v) with
                | Some w => w =? v
                | None => false
                end && negb (b64_char v =? PAD) && (b64_char v <? 128))
              = true) by (vm_compute; reflexivity).
  pose proof (@all_upto_spec 64 _ H v Hv) as Hc. cbv beta in Hc.
  apply andb_prop in Hc as [Hc H3]. apply andb_prop in Hc as [H1 H2].
  destruct (b64_value (b64_char v)) as [w|]; [|discriminate].
  apply N.eqb_eq in H1. subst w.
  apply negb_true_iff in H2. now repeat split.
Qed.

(** The four sextets of three bytes, and the bytes they give back. *)
Lemma sextets_12 (a b : N) :
  a < 256 -> b < 256 ->
  let v1 := N.shiftr a 2 in
  let v2 := N.lor (N.shiftl (N.land a 3) 4) (N.shiftr b 4) in
  v1 < 64 /\ v2 < 64
  /\ N.lor (N.shiftl v1 2) (N.shiftr v2 4) = a
  /\ N.land v2 15 = N.shiftr b 4
  /\ N.shiftl (N.land a 3) 4 < 64
  /\ N.lor (N.shiftl v1 2) (N.shiftr (N.shiftl (N.land a 3) 4) 4) = a.
Proof.
  intros Ha Hb v1 v2.
  assert (H : all_upto 256 (fun a => all_upto 256 (fun b =>
                let v1 := N.shiftr a 2 in
                let v2 := N.lor (N.shiftl (N.land a 3) 4) (N.shiftr b 4) in
                (v1 <? 64) && (v2 <? 64)
                && (N.lor (N.shiftl v1 2) (N.shiftr v2 4) =? a)
                && (N.land v2 15 =? N.shiftr b 4)
                && (N.shiftl (N.land a 3) 4 <? 64)
                && (N.lor (N.shiftl v1 2)
                          (N.shiftr (N.shiftl (N.land a 3) 4) 4) =? a)))
              = true) by (vm_compute; reflexivity).
  pose proof (@all_bytes2 _ H a b Ha Hb) as Hc. cbv beta zeta in Hc.
  repeat (apply andb_prop in Hc as [Hc ?]).
  repeat split;
    first [now apply N.ltb_lt | now apply N.eqb_eq].
Qed.

Lemma sextets_34 (b c : N) :
  b < 256 -> c < 256 ->
  let v3 := N.lor (N.shiftl (N.land b 15) 2) (N.shiftr c 6) in
  let v4 := N.land c 63 in
  v3 < 64 /\ v4 < 64
  /\ N.lor (N.shiftl (N.shiftr b 4) 4) (N.shiftr v3 2) = b
  /\ N.lor (N.shiftl (N.land v3 3) 6) v4 = c
  /\ N.shiftl (N.land b 15) 2 < 64
  /\ N.lor (N.shiftl (N.shiftr b 4) 4)
           (N.shiftr (N.shiftl (N.land b 15) 2) 2) = b.
Proof.
  intros Hb Hc v3 v4.
  assert (H : all_upto 256 (fun b => all_upto 256 (fun c =>
                let v3 := N.lor (N.shiftl (N.land b 15) 2) (N.shiftr c 6) in
                let v4 := N.land c 63 in
                (v3 <? 64) && (v4 <? 64)
                && (N.lor (N.shiftl (N.shiftr b 4) 4) (N.shiftr v3 2) =? b)
                && (N.lor (N.shiftl (N.land v3 3) 6) v4 =? c)
                && (N.shiftl (N.land b 15) 2 <? 64)
                && (N.lor (N.shiftl (N.shiftr b 4) 4)
                          (N.shiftr (N.shiftl (N.land b 15) 2) 2) =? b)))
              = true) by (vm_compute; reflexivity).
  pose proof (@all_bytes2 _ H b c Hb Hc) as Hx. cbv beta zeta in Hx.
  repeat (apply andb_prop in Hx as [Hx ?]).
  repeat split;
    first [now apply N.ltb_lt | now apply N.eqb_eq].
Qed.

(** One alphabet character, by the position in the quad. *)
Lemma a2b_char (v : N) (t : str) (quad_pos leftchar pads : N) :
  v < 64 ->
  a2b_base64 (b64_char v :: t) quad_pos leftchar pads
  = if quad_pos =? 0 then a2b_base64 t 1 v 0
    else if quad_pos =? 1 then
      omap (cons (N.lor (N.shiftl leftchar 2) (N.shiftr v 4)))
           (a2b_base64 t 2 (N.land v 15) 0)
    else if quad_pos =? 2 then
      omap (cons (N.lor (N.shiftl leftchar 4) (N.shiftr v 2)))
           (a2b_base64 t 3 (N.land v 3) 0)
    else omap (cons (N.lor (N.shiftl leftchar 6) v)) (a2b_base64 t 0 0 0).
Proof.
  intros Hv. destruct (b64_char_value Hv) as (H1 & H2 & _).
  cbn [a2b_base64]. now rewrite H2, H1.
Qed.

Lemma omap_omap {A B C} (f : A -> B) (g : B -> C) (o : outcome A) :
  omap g (omap f o) = omap (fun x => g (f x)) o.
Proof. now destruct o. Qed.

(** [b64decode] undoes [b64encode] on bytes. *)
Lemma a2b_b64encode (n : nat) :
  forall bs : bytes,
  (List.length bs <= n)%nat ->
  forallb (fun b => b <? 256) bs = true ->
  a2b_base64 (b64encode bs) 0 0 0 = Returned bs.
Proof.
  induction n as [|n IH]; intros bs Hn Hb.
  - destruct bs; [reflexivity|simpl in Hn; lia].
  - destruct bs as [|a [|b [|c rest]]]; [reflexivity| | |].
    + simpl in Hb. rewrite andb_true_r in Hb. apply N.ltb_lt in Hb.
      destruct (@sextets_12 a 0 Hb eq_refl) as (H1 & _ & _ & _ & H5 & H6).
      cbn [b64encode].
      rewrite (a2b_char _ 0 0 0 H1). cbn [N.eqb].
      rewrite (a2b_char _ 1 _ 0 H5). cbn [N.eqb Pos.eqb].
      rewrite H6. reflexivity.
    + simpl in Hb. rewrite andb_true_r in Hb.
      apply andb_prop in Hb as [Ha Hb].
      apply N.ltb_lt in Ha. apply N.ltb_lt in Hb.
      destruct (sextets_12 Ha Hb) as (H1 & H2 & H3 & H4 & _).
      destruct (@sextets_34 b 0 Hb eq_refl) as (_ & _ & _ & _ & H5 & H6).
      cbn [b64encode].
      rewrite (a2b_char _ 0 0 0 H1). cbn [N.eqb].
      rewrite (a2b_char _ 1 _ 0 H2). cbn [N.eqb Pos.eqb].
      rewrite (a2b_char _ 2 _ 0 H5). cbn [N.eqb Pos.eqb].
      rewrite H3, H4, H6. reflexivity.
    + simpl in Hb.
      apply andb_prop in Hb as [Ha Hb]. apply andb_prop in Hb as [Hb Hc].
      apply andb_prop in Hc as [Hc Hr].
      apply N.ltb_lt in Ha. apply N.ltb_lt in Hb. apply N.ltb_lt in Hc.
      destruct (sextets_12 Ha Hb) as (H1 & H2 & H3 & H4 & _).
      destruct (sextets_34 Hb Hc) as (H5 & H6 & H7 & H8 & _).
      cbn [b64encode].
      rewrite (a2b_char _ 0 0 0 H1). cbn [N.eqb].
      rewrite (a2b_char _ 1 _ 0 H2). cbn [N.eqb Pos.eqb].
      rewrite (a2b_char _ 2 _ 0 H5). cbn [N.eqb Pos.eqb].
      rewrite (a2b_char _ 3 _ 0 H6). cbn [N.eqb Pos.eqb].
      rewrite H3, H4, H7, H8.
      rewrite IH by (simpl in Hn; auto; lia). reflexivity.
Qed.

End Base64RoundTrip.

Section BlobRoundTrip.
Import Codec.
Local Open Scope N_scope.

(** [b64decode] skips what is neither in the alphabet nor [=]. *)
Lemma a2b_skips (s : str) :
  forall quad_pos leftchar pads,
  a2b_base64 s quad_pos leftchar pads
  = a2b_base64 (filter b64_symbol s) quad_pos leftchar pads.
Proof.
  induction s as [|c t IH]; intros q l p; [reflexivity|].
  cbn [filter]. unfold b64_symbol at 1.
  destruct (c =? PAD) eqn:Ep.
  - cbn [orb a2b_base64]. rewrite Ep.
    destruct (2 <=? q); [|apply IH].
    destruct (4 <=? q + (p + 1)); [reflexivity|apply IH].
  - cbn [orb]. destruct (b64_value c) as [v|] eqn:Ev.
    + cbn [a2b_base64]. rewrite Ep, Ev.
      destruct (q =? 0); [apply IH|].
      destruct (q =? 1); [now rewrite IH|].
      destruct (q =? 2); now rewrite IH.
    + cbn [a2b_base64]. rewrite Ep, Ev. apply IH.
Qed.



Lemma plain_char (v : N) : v < 64 -> plain (b64_char v) = true.
Proof.
  intros Hv. destruct (b64_char_value Hv) as (H1 & H2 & H3).
  unfold plain, b64_symbol. now rewrite H1, H2, H3.
Qed.

(** [b64encode] writes alphabet characters and [=] only, all ASCII. *)
Lemma b64encode_plain (n : nat) :
  forall bs : bytes,
  (List.length bs <= n)%nat ->
  forallb (fun b => b <? 256) bs = true ->
  forallb plain (b64encode bs) = true.
Proof.
  induction n as [|n IH]; intros bs Hn Hb.
  - destruct bs; [reflexivity|simpl in Hn; lia].
  - destruct bs as [|a [|b [|c rest]]]; [reflexivity| | |].
    + simpl in Hb. rewrite andb_true_r in Hb. apply N.ltb_lt in Hb.
      destruct (@sextets_12 a 0 Hb eq_refl) as (H1 & _ & _ & _ & H5 & _).
      cbn [b64encode forallb]. now rewrite !plain_char.
    + simpl in Hb. rewrite andb_true_r in Hb.
      apply andb_prop in Hb as [Ha Hb].
      apply N.ltb_lt in Ha. apply N.ltb_lt in Hb.
      destruct (sextets_12 Ha Hb) as (H1 & H2 & _).
      destruct (@sextets_34 b 0 Hb eq_refl) as (_ & _ & _ & _ & H5 & _).
      cbn [b64encode forallb]. now rewrite !plain_char.
    + simpl in Hb.
      apply andb_prop in Hb as [Ha Hb]. apply andb_prop in Hb as [Hb Hc].
      apply andb_prop in Hc as [Hc Hr].
      apply N.ltb_lt in Ha. apply N.ltb_lt in Hb. apply N.ltb_lt in Hc.
      destruct (sextets_12 Ha Hb) as (H1 & H2 & _).
      destruct (sextets_34 Hb Hc) as (H5 & H6 & _).
      cbn [b64encode forallb]. rewrite !plain_char by assumption.
      rewrite IH by (simpl in Hn; auto; lia). reflexivity.
Qed.

Lemma filter_all {A} (p : A -> bool) (l : list A) :
  forallb p l = true -> filter p l = l.
Proof.
  induction l as [|x l IH]; simpl; [reflexivity|].
  intros H. apply andb_prop in H as [Hx Hl]. now rewrite Hx, IH.
Qed.

Lemma forallb_weaken {A} (p q : A -> bool) (l : list A) :
  (forall x, p x = true -> q x = true) ->
  forallb p l = true -> forallb q l = true.
Proof.
  intros Hpq. induction l as [|x l IH]; simpl; [reflexivity|].
  intros H. apply andb_prop in H as [Hx Hl]. now rewrite Hpq, IH.
Qed.

(** What [_createNewBlob] puts in its payload decodes to the content,
    also when the characters come back with others in between. *)
Lemma decode_uploaded (content served : str) :
  is_encodable content = true ->
  forallb (fun c => c <? 128) served = true ->
  filter b64_symbol served = b64encode (encoded content) ->
  b64decode_text (JStr served) = Returned content.
Proof.
  unfold is_encodable, encoded. intros He Ha Hf.
  destruct (encode content) as [bs|] eqn:E; [|discriminate].
  destruct (encode_decode content E) as [Hd Hb].
  unfold b64decode_text, b64decode. rewrite Ha, a2b_skips, Hf.
  rewrite (@a2b_b64encode (List.length bs) bs (le_n _) Hb).
  exact Hd.
Qed.

Lemma uploaded_is_plain (content : str) :
  is_encodable content = true ->
  forallb (fun c => c <? 128) (b64encode (encoded content)) = true
  /\ filter b64_symbol (b64encode (encoded content))
     = b64encode (encoded content).
Proof.
  unfold is_encodable, encoded. intros He.
  destruct (encode content) as [bs|] eqn:E; [|discriminate].
  destruct (encode_decode content E) as [_ Hb].
  pose proof (@b64encode_plain (List.length bs) bs (le_n _) Hb) as Hp.
  split.
  - apply (forallb_weaken plain); [|exact Hp].
    unfold plain. intros x Hx. now apply andb_prop in Hx.
  - apply filter_all. apply (forallb_weaken plain); [|exact Hp].
    unfold plain. intros x Hx. now apply andb_prop in Hx.
Qed.

(** X1. The content of an uploaded file comes back unchanged: when the
    contents endpoint serves, in its [content] field, the base64 text
    that [_createNewBlob] sent for the file, be it as sent or with line
    breaks and other characters outside the alphabet in between,
    [getFile] returns the content of the file. *)
Theorem getFile_returns_uploaded_content (P : provider) (h : trace)
  (self : GitHubRepo) (path content sent served : str) (res : response)
  (fields : list (str * json)) :
  is_encodable content = true ->
  getitem (payload (blob_create self content)) (py "content")
  = Returned (JStr sent) ->
  forallb (fun c => c <? 128) served = true ->
  filter b64_symbol served = sent ->
  P h (fetch_request self path) = Some res ->
  json_body res = Some (JDict fields) ->
  lookup (py "content") fields = Some (JStr served) ->
  run P h (getFile self path)
  = (Returned content, [(fetch_request self path, Some res)])
  /\ forallb (fun c => c <? 128) sent = true
  /\ filter b64_symbol sent = sent.
Proof.
  intros He Hs Ha Hf HP Hj Hc.
  injection Hs as <-. split; [|now apply uploaded_is_plain].
  apply run_getFile; [assumption|].
  unfold file_text. rewrite Hj. cbn [getitem]. rewrite Hc. cbn [obind].
  now apply decode_uploaded.
Qed.

Lemma getFile_returns_uploaded_content_example :
  let served := py "aGVs" ++ [NL] ++ py "bG8=" ++ [NL] in
  let res := answer 200 [(py "encoding", JStr (py "base64"));
                         (py "content", JStr served)] in
  run (replay [Some res]) [] (getFile alice (py "notes.txt"))
  = (Returned (py "hello"),
     [(fetch_request alice (py "notes.txt"), Some res)]).
Proof.
  intros served res.
  apply (@getFile_returns_uploaded_content (replay [Some res]) [] alice
           (py "notes.txt") (py "hello") (py "aGVsbG8=") served res
           [(py "encoding", JStr (py "base64"));
            (py "content", JStr served)]); reflexivity.
Defined.

End BlobRoundTrip.

(* ===================================================================== *)
(** * Writing the downloaded files *)
(* ===================================================================== *)

Section WriteLocal.
Local Open Scope N_scope.

Variable o : os.

Lemma same_file_trans (p q r : str) :
  same_file o p q = true -> same_file o p r = same_file o q r.
Proof.
  unfold same_file. intros H. apply eqb_str_eq in H. now rewrite H.
Qed.

Lemma same_file_refl (p : str) : same_file o p p = true.
Proof. apply eqb_str_refl. Qed.

Lemma writeLocalFiles_cons (name : str) (file : fileRec)
  (rest : registeredFiles) (f : fs) :
  writeLocalFiles o ((name, file) :: rest) f
  = match open_w o f (localPath file) with
    | Some e => (Raised e, f)
    | None =>
        writeLocalFiles o rest
          (fun q => if same_file o q (localPath file)
                    then Some (contents file) else f q)
    end.
Proof.
  cbn [writeLocalFiles]. unfold write_file.
  now destruct (open_w o f (localPath file)).
Qed.

(** The files of a dictionary are written one after the other. *)
Lemma writeLocalFiles_app (a b : registeredFiles) (f : fs) :
  writeLocalFiles o (a ++ b) f
  = match fst (writeLocalFiles o a f) with
    | Returned _ => writeLocalFiles o b (snd (writeLocalFiles o a f))
    | Raised e => (Raised e, snd (writeLocalFiles o a f))
    end.
Proof.
  revert f. induction a as [|[name file] a IH]; intros f; [reflexivity|].
  cbn [app]. rewrite !writeLocalFiles_cons.
  destruct (open_w o f (localPath file)); [reflexivity|]. apply IH.
Qed.

(** A path that names none of the files keeps what it held, whether the
    loop ends normally or not. *)
Lemma writeLocalFiles_frame (files : registeredFiles) (f : fs) (p : str) :
  forallb (fun kv => negb (same_file o p (localPath (snd kv)))) files = true ->
  snd (writeLocalFiles o files f) p = f p.
Proof.
  revert f. induction files as [|[name file] files IH]; intros f H;
    [reflexivity|].
  cbn [forallb snd] in H. apply andb_prop in H as [Hkv H].
  apply negb_true_iff in Hkv. rewrite writeLocalFiles_cons.
  destruct (open_w o f (localPath file)); [reflexivity|].
  rewrite IH by exact H. now rewrite Hkv.
Qed.

Lemma writeLocalFiles_last (a b : registeredFiles) (name : str)
  (file : fileRec) (f : fs) (q : str) :
  forallb (fun kv' => negb (same_file o (localPath file)
                                      (localPath (snd kv')))) b = true ->
  fst (writeLocalFiles o (a ++ (name, file) :: b) f) = Returned tt ->
  same_file o q (localPath file) = true ->
  snd (writeLocalFiles o (a ++ (name, file) :: b) f) q
  = Some (contents file).
Proof.
  intros Hb Hret Hq. rewrite writeLocalFiles_app in Hret |- *.
  destruct (fst (writeLocalFiles o a f)) as [[]|e]; [|discriminate].
  rewrite writeLocalFiles_cons in Hret |- *.
  destruct (open_w o _ (localPath file)); [discriminate|].
  rewrite writeLocalFiles_frame; [now rewrite Hq|].
  apply forallb_impl
    with (p := fun kv' : str * fileRec =>
                 negb (same_file o (localPath file) (localPath (snd kv'))));
    [|exact Hb].
  intros kv' H. now rewrite (@same_file_trans q (localPath file) _ Hq).
Qed.

Lemma writeLocalFiles_stops (a b : registeredFiles) (name : str)
  (file : fileRec) (f : fs) (e : exn) :
  fst (writeLocalFiles o a f) = Returned tt ->
  open_w o (snd (writeLocalFiles o a f)) (localPath file) = Some e ->
  writeLocalFiles o (a ++ (name, file) :: b) f
  = (Raised e, snd (writeLocalFiles o a f)).
Proof.
  intros Ha He. rewrite writeLocalFiles_app, Ha, writeLocalFiles_cons.
  now rewrite He.
Qed.

Lemma writeLocalFiles_returns (files : registeredFiles) (f : fs) :
  (forall f' p, open_w o f' p = None) ->
  fst (writeLocalFiles o files f) = Returned tt.
Proof.
  intros Hopen. revert f.
  induction files as [|[name file] files IH]; intros f; [reflexivity|].
  rewrite writeLocalFiles_cons, Hopen. apply IH.
Qed.

(** X12. [writeLocalFiles] leaves alone every path that names none of
    the files it is given, whatever spelling of a file it is given and
    whether it ends normally or with the exception of an [open]. Two
    paths name one file when the operating system says so. *)
Theorem writeLocalFiles_writes_listed_paths_only (files : registeredFiles)
  (f : fs) (p : str) :
  forallb (fun kv => negb (same_file o p (localPath (snd kv)))) files = true ->
  snd (writeLocalFiles o files f) p = f p.
Proof. apply writeLocalFiles_frame. Qed.

(** X13. When [writeLocalFiles] returns normally, every spelling of the
    local path of a file reads the contents of that file, unless a later
    file of the dictionary names the same file; and an [open] that
    raises ends the loop with its exception: the files before it are
    written, that file and the files after it are not. *)
Theorem writeLocalFiles_stores_contents (a b : registeredFiles)
  (name : str) (file : fileRec) (f : fs) :
  forallb (fun kv' => negb (same_file o (localPath file)
                                      (localPath (snd kv')))) b = true ->
  (fst (writeLocalFiles o (a ++ (name, file) :: b) f) = Returned tt ->
   forall q, same_file o q (localPath file) = true ->
             snd (writeLocalFiles o (a ++ (name, file) :: b) f) q
             = Some (contents file))
  /\ (forall e,
        fst (writeLocalFiles o a f) = Returned tt ->
        open_w o (snd (writeLocalFiles o a f)) (localPath file) = Some e ->
        writeLocalFiles o (a ++ (name, file) :: b) f
        = (Raised e, snd (writeLocalFiles o a f))).
Proof.
  intros Hb. split.
  - intros Hret q Hq. now apply writeLocalFiles_last.
  - intros e Ha He. now apply writeLocalFiles_stops.
Qed.

End WriteLocal.

Section WriteLocalExamples.

Lemma writeLocalFiles_writes_listed_paths_only_example :
  snd (writeLocalFiles tidy_os notes_files fresh_fs) masterFile
  = Some header.
Proof.
  exact (@writeLocalFiles_writes_listed_paths_only tidy_os notes_files
           fresh_fs masterFile eq_refl).
Defined.

Lemma writeLocalFiles_stores_contents_example :
  let files := [(py "a", mk_fileRec (py "/tmp/x") (py "one"));
                (py "b", mk_fileRec (py "/tmp/y") (py "two"));
                (py "c", mk_fileRec (py "/tmp//x") (py "three"))] in
  snd (writeLocalFiles tidy_os files no_files) (py "/tmp/x")
  = Some (py "three")
  /\ snd (writeLocalFiles tidy_os files no_files) (py "/tmp/y")
     = Some (py "two")
  /\ writeLocalFiles guarded_os
       [(py "a", mk_fileRec (py "/tmp/x") (py "one"));
        (py "p", mk_fileRec (py "/etc/passwd") (py "two"));
        (py "c", mk_fileRec (py "/tmp/z") (py "three"))] no_files
     = (Raised (OSError (py "PermissionError")),
        snd (writeLocalFiles guarded_os
               [(py "a", mk_fileRec (py "/tmp/x") (py "one"))] no_files)).
Proof.
  intros files. split; [|split].
  - exact (proj1 (@writeLocalFiles_stores_contents tidy_os
                    [(py "a", mk_fileRec (py "/tmp/x") (py "one"));
                     (py "b", mk_fileRec (py "/tmp/y") (py "two"))] []
                    (py "c") (mk_fileRec (py "/tmp//x") (py "three"))
                    no_files eq_refl) eq_refl (py "/tmp/x") eq_refl).
  - exact (proj1 (@writeLocalFiles_stores_contents tidy_os
                    [(py "a", mk_fileRec (py "/tmp/x") (py "one"))]
                    [(py "c", mk_fileRec (py "/tmp//x") (py "three"))]
                    (py "b") (mk_fileRec (py "/tmp/y") (py "two"))
                    no_files eq_refl) eq_refl (py "/tmp/y") eq_refl).
  - exact (proj2 (@writeLocalFiles_stores_contents guarded_os
                    [(py "a", mk_fileRec (py "/tmp/x") (py "one"))]
                    [(py "c", mk_fileRec (py "/tmp/z") (py "three"))]
                    (py "p") (mk_fileRec (py "/etc/passwd") (py "two"))
                    no_files eq_refl)
             (OSError (py "PermissionError")) eq_refl eq_refl).
Defined.

End WriteLocalExamples.

(* ===================================================================== *)
(** * What a download writes *)
(* ===================================================================== *)

Section DownloadWrites.
Local Open Scope N_scope.

Variable o : os.
Variable self : GitHubRepo.

Lemma no_later_file (p : str) (eb : list (str * str)) (tb : list str) :
  forallb (fun e' => negb (same_file o p (resolve self (snd e')))) eb = true ->
  forallb (fun kv' : str * fileRec =>
             negb (same_file o p (localPath (snd kv'))))
          (map (remote_file self) (combine eb tb)) = true.
Proof.
  revert tb. induction eb as [|a l IH]; intros [|b l'] H; try reflexivity.
  cbn [forallb] in H. apply andb_prop in H as [Ha H].
  cbn [combine map forallb remote_file fst snd localPath].
  now rewrite Ha, IH.
Qed.

(** What command 1 does once the remote files are read. *)
Lemma command_download_writes (es : list (str * str)) (r0 : response)
  (rs : list response) (m : str) (texts : list str)
  (rest : list (option response)) (f : fs) :
  file_text r0 = Returned m ->
  map entry_fields (tl (split_on NL (strip m))) = map (@Some _) es ->
  map file_text rs = map (@Returned _) texts ->
  List.length rs = List.length es ->
  distinct (map fst es) = true ->
  command_download o self (replay (map (@Some _) (r0 :: rs) ++ rest)) [] f
  = writeLocalFiles o (map (remote_file self) (combine es texts)) f.
Proof.
  intros H0 Hl Ht Hn Hd. unfold command_download.
  rewrite (@run_readRemoteFiles self es r0 rs m texts rest) by assumption.
  cbn [fst]. f_equal. unfold remote_dict.
  rewrite (@fold_dict_set_distinct _ _
             (fun et => fst (remote_file self et))
             (fun et => snd (remote_file self et))).
  - cbn [app]. apply map_ext. now intros [[r l] t].
  - cbn [map app]. rewrite remote_names; [exact Hd|].
    apply texts_length in Ht. lia.
Qed.

(** X15. Download writes what it fetched: when the remote manifest
    lists entries with pairwise different names and every fetch is
    answered with text, command 1 of the menu writes the fetched texts
    in the order of the manifest. If it returns normally, every spelling
    of the resolved local path of an entry then reads the text fetched
    for its name, unless a later entry names the same file; it returns
    normally when no [open] raises, and ends with the exception of the
    first [open] that does. *)
Theorem download_writes_fetched_text (ea eb : list (str * str))
  (e : str * str) (ta tb : list str) (t : str)
  (r0 : response) (rs : list response) (m : str)
  (rest : list (option response)) (f : fs) :
  file_text r0 = Returned m ->
  map entry_fields (tl (split_on NL (strip m)))
  = map (@Some _) (ea ++ e :: eb) ->
  map file_text rs = map (@Returned _) (ta ++ t :: tb) ->
  List.length rs = List.length (ea ++ e :: eb) ->
  List.length ea = List.length ta ->
  distinct (map fst (ea ++ e :: eb)) = true ->
  forallb (fun e' => negb (same_file o (resolve self (snd e))
                                     (resolve self (snd e')))) eb = true ->
  let down :=
    command_download o self (replay (map (@Some _) (r0 :: rs) ++ rest))
                     [] f in
  down = writeLocalFiles o
           (map (remote_file self)
                (combine (ea ++ e :: eb) (ta ++ t :: tb))) f
  /\ (fst down = Returned tt ->
      forall q, same_file o q (resolve self (snd e)) = true ->
                snd down q = Some t)
  /\ ((forall f' p, open_w o f' p = None) -> fst down = Returned tt)
  /\ (forall x,
        fst (writeLocalFiles o (map (remote_file self) (combine ea ta)) f)
        = Returned tt ->
        open_w o
          (snd (writeLocalFiles o (map (remote_file self) (combine ea ta)) f))
          (resolve self (snd e)) = Some x ->
        down
        = (Raised x,
           snd (writeLocalFiles o (map (remote_file self) (combine ea ta))
                                f))).
Proof.
  intros H0 Hl Ht Hn Hla Hd Hp down.
  assert (E : down = writeLocalFiles o
                       (map (remote_file self)
                            (combine (ea ++ e :: eb) (ta ++ t :: tb))) f)
    by now apply command_download_writes with (m := m).
  split; [exact E|]. rewrite E. clear E down.
  rewrite combine_app_cons by exact Hla. rewrite map_app. cbn [map].
  change (remote_file self (e, t))
    with (fst e, mk_fileRec (resolve self (snd e)) t).
  split; [|split].
  - intros Hret q Hq.
    apply (@writeLocalFiles_last o _ _ (fst e)
             (mk_fileRec (resolve self (snd e)) t) f q);
      [|exact Hret|exact Hq].
    cbn [localPath]. now apply no_later_file.
  - intros Hopen. now apply writeLocalFiles_returns.
  - intros x Ha Hx. now apply writeLocalFiles_stops.
Qed.

End DownloadWrites.

Section DownloadWritesExamples.

Lemma download_writes_fetched_text_example :
  let P := replay (map (@Some _)
                     [text_answer hand_manifest; text_answer (py "A");
                      text_answer (py "hello")] ++ []) in
  fst (command_download tidy_os alice P [] no_files) = Returned tt
  /\ snd (command_download tidy_os alice P [] no_files)
         (py "/home/alice//notes.txt") = Some (py "hello")
  /\ snd (command_download tidy_os alice P [] no_files) (py "/tmp/a")
     = Some (py "A").
Proof.
  intros P.
  destruct (@download_writes_fetched_text tidy_os alice
              [(py "a", py "/tmp/a")] [] (py "notes.txt", py "~/notes.txt")
              [py "A"] [] (py "hello")
              (text_answer hand_manifest)
              [text_answer (py "A"); text_answer (py "hello")]
              hand_manifest [] no_files
              eq_refl eq_refl eq_refl eq_refl eq_refl eq_refl eq_refl)
    as (_ & Hq & Hret & _).
  split; [exact (Hret (fun _ _ => eq_refl))|].
  split; [exact (Hq (Hret (fun _ _ => eq_refl))
                    (py "/home/alice//notes.txt") eq_refl)|].
  reflexivity.
Defined.

End DownloadWritesExamples.
